(** * godns: cache-first resolution, answer synthesis and hit-count promotion

    A shallow embedding of the resolver of github.com/extremtechniker/godns:
    [dns.HandleDNSRequest], [dns.RespondWithRecords] and [dns.updateMetric]
    (package dns), [db.AddRecord], [db.FetchRecords], [db.IncrementMetric],
    [db.GetDomainHits] (package db), [cache.CacheKey] and [cache.CacheRecord]
    (package cache) and [util.MustGetenv]; and of what is built on it: the
    handlers of the HTTP API (package api) and the [cacheRecord] of
    main.bak.go.

    Postgres and Redis are modelled by their contents: the two relations
    created by [db.EnsureTables] and the key space of the Redis database.
    Every call that reaches a backend, every message written to the client
    and every goroutine started with [go] is recorded in an event log, so
    that statements about which accesses a path performs can be read off
    the log. *)

From Stdlib Require Import Ascii String ZArith Lia.
From stdpp Require Import base numbers list strings gmap.

Local Open Scope string_scope.
Local Open Scope list_scope.
Local Open Scope Z_scope.

(** ** Go strings (package strings), on ASCII text

    The type names of miekg/dns and the owner names it hands to a handler
    are ASCII.  [ToUpper], [ToLower] and [EqualFold] are Go's functions on
    strings of bytes below 128, which Go treats byte by byte as here.  Go
    also maps the letters above U+007F by its Unicode tables; these are
    not modelled, bytes from 128 on are left as they are, and what is
    proved of the case of a string from outside the resolver (a path
    variable or a body of the API) is proved of ASCII strings. *)

Module strings.

Definition is_upper (c : ascii) : bool :=
  (65 <=? nat_of_ascii c)%nat && (nat_of_ascii c <=? 90)%nat.

Definition is_lower (c : ascii) : bool :=
  (97 <=? nat_of_ascii c)%nat && (nat_of_ascii c <=? 122)%nat.

Definition upper_byte (c : ascii) : ascii :=
  if is_lower c then ascii_of_nat (nat_of_ascii c - 32) else c.

Definition lower_byte (c : ascii) : ascii :=
  if is_upper c then ascii_of_nat (nat_of_ascii c + 32) else c.

Fixpoint ToUpper (s : string) : string :=
  match s with
  | EmptyString => EmptyString
  | String c s' => String (upper_byte c) (ToUpper s')
  end.

Fixpoint ToLower (s : string) : string :=
  match s with
  | EmptyString => EmptyString
  | String c s' => String (lower_byte c) (ToLower s')
  end.

(** [strings.EqualFold]: equality up to the case of ASCII letters, byte by
    byte. *)
Fixpoint EqualFold (s t : string) : bool :=
  match s, t with
  | EmptyString, EmptyString => true
  | String a s', String b t' =>
      Ascii.eqb (lower_byte a) (lower_byte b) && EqualFold s' t'
  | _, _ => false
  end.

(** [strings.HasSuffix] and [strings.TrimSuffix]. *)
Definition HasSuffix (s suffix : string) : bool :=
  let n := String.length s in
  let k := String.length suffix in
  (k <=? n)%nat && String.eqb (substring (n - k) k s) suffix.

Definition TrimSuffix (s suffix : string) : string :=
  if HasSuffix s suffix
  then substring 0 (String.length s - String.length suffix) s
  else s.

End strings.

(** ** The data model (package model) *)

Record Record_ := mkRecord {
  Domain : string;
  QType : string;
  TTL : Z;
  Value : string
}.

(** ** The fragment of github.com/miekg/dns and package net the resolver uses *)

(** A [net.IP] is a byte slice; [nil] is the empty list. *)
Definition IP := list Z.

Definition isZeros (p : list Z) : bool := forallb (Z.eqb 0) p.

(** [IP.To4]: the 4-byte form of an IPv4 address, or [nil]. *)
Definition To4 (ip : IP) : IP :=
  if (length ip =? 4)%nat then ip
  else if (length ip =? 16)%nat && isZeros (take 10 ip)
          && (nth 10 ip 0 =? 255) && (nth 11 ip 0 =? 255)
       then drop 12 ip
       else [].

Definition is_nil {A} (l : list A) : bool :=
  match l with [] => true | _ => false end.

Record RR_Header := mkHdr {
  Name : string;
  Rrtype : Z;
  Class_ : Z;
  Ttl : Z
}.

Inductive RR :=
| RR_A (Hdr : RR_Header) (A : IP)
| RR_AAAA (Hdr : RR_Header) (AAAA : IP)
| RR_CNAME (Hdr : RR_Header) (Target : string)
| RR_TXT (Hdr : RR_Header) (Txt : list string).

Definition Header (rr : RR) : RR_Header :=
  match rr with
  | RR_A h _ | RR_AAAA h _ | RR_CNAME h _ | RR_TXT h _ => h
  end.

Record Question_ := mkQuestion {
  QName : string;
  Qtype : Z;
  Qclass : Z
}.

(** The fields of [dns.Msg] the handler reads or sets.  The opcode and the
    RD and CD bits, which [SetReply] copies from the request, are left out. *)
Record Msg := mkMsg {
  Id : Z;
  Response : bool;
  Rcode : Z;
  Question : list Question_;
  Answer : list RR
}.

Definition TypeA : Z := 1.
Definition TypeCNAME : Z := 5.
Definition TypeTXT : Z := 16.
Definition TypeAAAA : Z := 28.
Definition TypeANY : Z := 255.
Definition ClassINET : Z := 1.

Definition RcodeSuccess : Z := 0.
Definition RcodeFormatError : Z := 1.
Definition RcodeServerFailure : Z := 2.
Definition RcodeNameError : Z := 3.

Module dnslib.

(** [dns.IsFqdn]: the name ends in a dot that is not escaped, that is, a
    dot preceded by an even number of backslashes. *)
Fixpoint leading_backslashes (l : list ascii) : nat :=
  match l with
  | c :: l' => if Ascii.eqb c "\"%char then S (leading_backslashes l') else O
  | [] => O
  end.

Definition IsFqdn (s : string) : bool :=
  match rev (list_ascii_of_string s) with
  | c :: before => Ascii.eqb c "."%char && Nat.even (leading_backslashes before)
  | [] => false
  end.

Definition Fqdn (s : string) : string :=
  if IsFqdn s then s else s +:+ ".".

(** [Msg.SetReply] and [Msg.SetRcode] on a fresh message. *)
Definition SetReply (request : Msg) : Msg :=
  {| Id := Id request;
     Response := true;
     Rcode := RcodeSuccess;
     Question := match Question request with
                 | q :: _ => [q]
                 | [] => []
                 end;
     Answer := [] |}.

Definition SetRcode (request : Msg) (rcode : Z) : Msg :=
  let m := SetReply request in
  {| Id := Id m; Response := Response m; Rcode := rcode;
     Question := Question m; Answer := Answer m |}.

End dnslib.

(** What the resolver takes from its libraries without this development
    fixing it: the table [dns.TypeToString] (a missing key reads as the
    empty string, as a Go map does) and [net.ParseIP] ([nil] when the text
    is not an IP address, else the 16-byte form). *)
Class GoLib := {
  TypeToString : Z -> string;
  ParseIP : string -> IP
}.

(** ** The world outside the process

    The two Postgres relations of [db.EnsureTables], the Redis key space,
    whether each backend answers, and the process environment. *)

(** A Redis string value, up to what [json.Unmarshal] into a
    [[]model.Record] makes of it: [JSON recs] is text that decodes to [recs]
    (what [json.Marshal recs] writes), [Raw text] is text that does not
    decode. *)
Inductive RedisValue :=
| JSON (recs : list Record_)
| Raw (text : string).

Record World := mkWorld {
  dns_records : list Record_;              (* UNIQUE(domain, qtype, value) *)
  dns_metrics : gmap (string * string) Z;  (* PRIMARY KEY(domain, qtype) -> hits *)
  rdb : gmap string RedisValue;
  pg_up : bool;
  redis_up : bool;
  environ : gmap string string
}.

Definition set_dns_records (f : list Record_ -> list Record_) (w : World) : World :=
  {| dns_records := f (dns_records w); dns_metrics := dns_metrics w;
     rdb := rdb w; pg_up := pg_up w; redis_up := redis_up w;
     environ := environ w |}.

Definition set_dns_metrics
    (f : gmap (string * string) Z -> gmap (string * string) Z) (w : World) : World :=
  {| dns_records := dns_records w; dns_metrics := f (dns_metrics w);
     rdb := rdb w; pg_up := pg_up w; redis_up := redis_up w;
     environ := environ w |}.

Definition set_rdb
    (f : gmap string RedisValue -> gmap string RedisValue) (w : World) : World :=
  {| dns_records := dns_records w; dns_metrics := dns_metrics w;
     rdb := f (rdb w); pg_up := pg_up w; redis_up := redis_up w;
     environ := environ w |}.

(** Postgres and Redis start or stop answering. *)
Definition set_backends (pg redis : bool) (w : World) : World :=
  {| dns_records := dns_records w; dns_metrics := dns_metrics w;
     rdb := rdb w; pg_up := pg; redis_up := redis;
     environ := environ w |}.

(** The goroutines the handler starts. *)
Inductive Task :=
| GoServedFromCache (domain qtype : string)
| GoServedNotFromCache (domain qtype : string).

(** What a run does that can be observed from outside. *)
Inductive Event :=
| RedisGet (key : string)
| RedisSet (key : string) (value : RedisValue) (expiration : Z)
| PgAddRecord (r : Record_)
| PgFetchRecords (domain qtype : string)
| PgIncrementMetric (domain qtype : string)
| PgGetDomainHits (domain qtype : string)
| WriteMsg (m : Msg)
| Go (t : Task).

(** Go's [(value, error)] results; the resolver only tests [err != nil]. *)
Inductive Result (A : Type) :=
| Ok (a : A)
| Err.
Arguments Ok {A} a.
Arguments Err {A}.

(** ** A state-and-log monad for the effectful code *)

Definition IO (A : Type) : Type := World -> A * World * list Event.

Global Instance IO_ret : MRet IO := fun A a w => (a, w, []).

Global Instance IO_bind : MBind IO := fun A B f m w =>
  match m w with
  | (a, w1, log1) =>
      match f a w1 with
      | (b, w2, log2) => (b, w2, log1 ++ log2)
      end
  end.

Definition emit (e : Event) : IO unit := fun w => (tt, w, [e]).
Definition world : IO World := fun w => (w, w, []).
Definition update (f : World -> World) : IO unit := fun w => (tt, f w, []).

Definition result_of {A} (m : IO A) (w : World) : A := (m w).1.1.
Definition world_after {A} (m : IO A) (w : World) : World := (m w).1.2.
Definition log_of {A} (m : IO A) (w : World) : list Event := (m w).2.

(** ** Package strconv and package util *)

Module strconv.

Definition digit (c : ascii) : option Z :=
  let n := Z.of_nat (nat_of_ascii c) in
  if (48 <=? n) && (n <=? 57) then Some (n - 48) else None.

Inductive NumError :=
| ErrSyntax
| ErrRange.

Definition maxUint64 : Z := 2 ^ 64 - 1.

(** The loop of [strconv.ParseUint(s, 10, 64)] over the bytes of [s], with
    [n] the value read so far.  A byte that is not a digit is a syntax
    error; a digit at which the value leaves 64 bits ends the loop with
    the largest value and a range error, whatever follows it. *)
Fixpoint digits (s : string) (n : Z) : Z * option NumError :=
  match s with
  | EmptyString => (n, None)
  | String c s' =>
      match digit c with
      | None => (0, Some ErrSyntax)
      | Some d =>
          if maxUint64 / 10 + 1 <=? n then (maxUint64, Some ErrRange)
          else if maxUint64 <? n * 10 + d then (maxUint64, Some ErrRange)
          else digits s' (n * 10 + d)
      end
  end.

Definition ParseUint (s : string) : Z * option NumError :=
  match s with
  | EmptyString => (0, Some ErrSyntax)
  | _ => digits s 0
  end.

Definition maxInt64 : Z := 2 ^ 63 - 1.
Definition minInt64 : Z := - 2 ^ 63.

(** [strconv.ParseInt(s, 10, 64)]: the value and whether [err] is [nil].
    A syntax error gives 0, a range error the nearest bound. *)
Definition ParseInt (s : string) : Z * bool :=
  match s with
  | EmptyString => (0, false)
  | String c rest =>
      let neg := Ascii.eqb c "-"%char in
      let body :=
        if Ascii.eqb c "+"%char || Ascii.eqb c "-"%char then rest else s in
      match ParseUint body with
      | (_, Some ErrSyntax) => (0, false)
      | (un, _) =>
          if negb neg && (2 ^ 63 <=? un) then (maxInt64, false)
          else if neg && (2 ^ 63 <? un) then (minInt64, false)
          else (if neg then - un else un, true)
      end
  end.

End strconv.

Module util.

(** [os.Getenv] reads an unset variable as the empty string. *)
Definition Getenv (key : string) : IO string :=
  w ← world; mret (default "" (environ w !! key)).

Definition MustGetenv (key def : string) : IO string :=
  v ← Getenv key;
  if negb (String.eqb v "") then mret v else mret def.

End util.

(** ** Package db *)

Module db.

Definition same_pair (domain qtype : string) (r : Record_) : bool :=
  String.eqb (Domain r) domain && String.eqb (QType r) qtype.

(** The conflict target of [AddRecord]: the UNIQUE(domain, qtype, value)
    constraint. *)
Definition conflicts (r x : Record_) : bool :=
  String.eqb (Domain x) (Domain r) && String.eqb (QType x) (QType r)
  && String.eqb (Value x) (Value r).

Definition set_ttl (ttl : Z) (x : Record_) : Record_ :=
  {| Domain := Domain x; QType := QType x; TTL := ttl; Value := Value x |}.

(** The column [ttl INT] holds a signed 32-bit integer. *)
Definition int4 (n : Z) : bool := (- 2 ^ 31 <=? n) && (n <? 2 ^ 31).

(** INSERT ... ON CONFLICT (domain, qtype, value) DO UPDATE SET ttl = $3.
    [true] is a non-nil error. *)
Definition AddRecord (r : Record_) : IO bool :=
  emit (PgAddRecord r);;
  w ← world;
  if pg_up w && int4 (TTL r) then
    (if existsb (conflicts r) (dns_records w)
     then update (set_dns_records
            (map (fun x => if conflicts r x then set_ttl (TTL r) x else x)))
     else update (set_dns_records (fun rows => rows ++ [r])));;
    mret false
  else mret true.

(** SELECT domain, qtype, ttl, value FROM dns_records
    WHERE domain = $1 AND qtype = $2 *)
Definition FetchRecords (domain qtype : string) : IO (Result (list Record_)) :=
  emit (PgFetchRecords domain qtype);;
  w ← world;
  if pg_up w
  then mret (Ok (List.filter (same_pair domain qtype) (dns_records w)))
  else mret Err.

(** INSERT ... VALUES ($1,$2,1) ON CONFLICT (domain, qtype)
    DO UPDATE SET hits = dns_metrics.hits + 1.  The column is a BIGINT:
    the statement fails when the sum leaves the 64-bit range. *)
Definition IncrementMetric (domain qtype : string) : IO bool :=
  emit (PgIncrementMetric domain qtype);;
  w ← world;
  if pg_up w then
    match dns_metrics w !! (domain, qtype) with
    | None =>
        update (set_dns_metrics (insert (domain, qtype) 1));; mret false
    | Some hits =>
        if hits + 1 <=? strconv.maxInt64
        then update (set_dns_metrics (insert (domain, qtype) (hits + 1)));;
             mret false
        else mret true
    end
  else mret true.

(** SELECT hits FROM dns_metrics WHERE domain = $1 AND qtype = $2;
    [row.Scan] fails when there is no row. *)
Definition GetDomainHits (domain qtype : string) : IO (Result Z) :=
  emit (PgGetDomainHits domain qtype);;
  w ← world;
  if pg_up w then
    match dns_metrics w !! (domain, qtype) with
    | Some hits => mret (Ok hits)
    | None => mret Err
    end
  else mret Err.

End db.

(** ** Package cache *)

Module cache.

Definition CacheKey (domain qtype : string) : string :=
  "dns:record:" +:+ strings.ToLower domain +:+ ":" +:+ strings.ToUpper qtype.

(** [time.Hour], in nanoseconds. *)
Definition time_Hour : Z := 3600 * 1000000000.

(** [Rdb.Get(ctx, key).Result()]: an error when the key is absent
    ([redis.Nil]) or Redis does not answer. *)
Definition Get (key : string) : IO (Result RedisValue) :=
  emit (RedisGet key);;
  w ← world;
  if redis_up w then
    match rdb w !! key with
    | Some v => mret (Ok v)
    | None => mret Err
    end
  else mret Err.

(** [Rdb.Set(ctx, key, value, expiration).Err()]. *)
Definition Set_ (key : string) (value : RedisValue) (expiration : Z) : IO bool :=
  emit (RedisSet key value expiration);;
  w ← world;
  if redis_up w
  then update (set_rdb (insert key value));; mret false
  else mret true.

Definition CacheRecord (domain qtype : string) (records : list Record_) : IO bool :=
  if (length records =? 0)%nat then mret true
  else Set_ (CacheKey domain qtype) (JSON records) time_Hour.

End cache.

Definition json_Unmarshal (v : RedisValue) : option (list Record_) :=
  match v with
  | JSON recs => Some recs
  | Raw _ => None
  end.

(** ** Package dns: the resolver *)

Section Resolver.

Context `{GoLib}.

(** [uint32(r.TTL)]: the low 32 bits of a Go [int]. *)
Definition uint32 (n : Z) : Z := n mod 2 ^ 32.

Definition rr_header (r : Record_) (rrtype : Z) : RR_Header :=
  {| Name := dnslib.Fqdn (Domain r);
     Rrtype := rrtype;
     Class_ := ClassINET;
     Ttl := uint32 (TTL r) |}.

(** The type filter at the head of the loop body of
    [RespondWithRecords]. *)
Definition selected (q : Question_) (r : Record_) : bool :=
  strings.EqualFold (QType r) (TypeToString (Qtype q)) || (Qtype q =? TypeANY).

(** One iteration of the loop of [RespondWithRecords], on [m.Answer]. *)
Definition respond_step (q : Question_) (answer : list RR) (r : Record_) : list RR :=
  if selected q r then
    let ty := strings.ToUpper (QType r) in
    if String.eqb ty "A" then
      let a := To4 (ParseIP (Value r)) in
      if negb (is_nil a) then answer ++ [RR_A (rr_header r TypeA) a]
      else answer
    else if String.eqb ty "AAAA" then
      let aaaa := ParseIP (Value r) in
      if negb (is_nil aaaa) then answer ++ [RR_AAAA (rr_header r TypeAAAA) aaaa]
      else answer
    else if String.eqb ty "CNAME" then
      answer ++ [RR_CNAME (rr_header r TypeCNAME) (dnslib.Fqdn (Value r))]
    else if String.eqb ty "TXT" then
      answer ++ [RR_TXT (rr_header r TypeTXT) [Value r]]
    else answer
  else answer.

Definition set_Answer (m : Msg) (answer : list RR) : Msg :=
  {| Id := Id m; Response := Response m; Rcode := Rcode m;
     Question := Question m; Answer := answer |}.

(** The message [RespondWithRecords] builds. *)
Definition reply_with (req : Msg) (recs : list Record_) (q : Question_) : Msg :=
  let m := dnslib.SetReply req in
  set_Answer m (fold_left (respond_step q) recs (Answer m)).

Definition RespondWithRecords (req : Msg) (recs : list Record_) (q : Question_)
  : IO unit :=
  emit (WriteMsg (reply_with req recs q)).

(** The threshold of [updateMetric]. *)
Definition minHits : IO Z :=
  v ← util.MustGetenv "MIN_HITS_FOR_CACHE" "5";
  mret (strconv.ParseInt v).1.

Definition updateMetric (domain qtype : string) (servedFromCache : bool) : IO unit :=
  _ ← db.IncrementMetric domain qtype;
  res ← db.GetDomainHits domain qtype;
  match res with
  | Err => mret tt
  | Ok hits =>
      min ← minHits;
      if hits <? min then mret tt
      else if servedFromCache then mret tt
      else
        res ← db.FetchRecords domain qtype;
        match res with
        | Err => mret tt
        | Ok recs =>
            if (length recs =? 0)%nat then mret tt
            else _ ← cache.CacheRecord domain qtype recs; mret tt
        end
  end.

Definition updateMetricServedFromCache (domain qtype : string) : IO unit :=
  updateMetric domain qtype true.

Definition updateMetricServedNotFromCache (domain qtype : string) : IO unit :=
  updateMetric domain qtype false.

Definition go (t : Task) : IO unit := emit (Go t).

Definition HandleDNSRequest (r : Msg) : IO unit :=
  match Question r with
  | [] => emit (WriteMsg (dnslib.SetRcode r RcodeFormatError))
  | q :: _ =>
      let domain := strings.TrimSuffix (QName q) "." in
      let qtype := TypeToString (Qtype q) in
      (* 2: fetch from Postgres if not in cache *)
      let fromPostgres : IO unit :=
        res ← db.FetchRecords domain qtype;
        match res with
        | Err => emit (WriteMsg (dnslib.SetRcode r RcodeServerFailure))
        | Ok recs =>
            if (length recs =? 0)%nat
            then emit (WriteMsg (dnslib.SetRcode r RcodeNameError))
            else
              (* 3: serve the records; 4: update metrics *)
              RespondWithRecords r recs q;;
              go (GoServedNotFromCache domain qtype)
        end in
      (* 1: try the Redis cache first *)
      res ← cache.Get (cache.CacheKey domain qtype);
      match res with
      | Ok s =>
          match json_Unmarshal s with
          | Some recs =>
              RespondWithRecords r recs q;;
              go (GoServedFromCache domain qtype)
          | None => fromPostgres
          end
      | Err => fromPostgres
      end
  end.

(** What the first block of [HandleDNSRequest] finds: the cached records
    when the key is read without error and its value decodes, otherwise a
    miss. *)
Definition cache_lookup (domain qtype : string) : IO (option (list Record_)) :=
  res ← cache.Get (cache.CacheKey domain qtype);
  match res with
  | Ok s => mret (json_Unmarshal s)
  | Err => mret None
  end.

(** ** The server as a whole, one query at a time

    The goroutine a handler starts is run to completion before the next
    query is taken.  Between queries a Redis key may expire, and Postgres
    and Redis may start or stop answering; they may also do so between a
    response and the goroutine that follows it. *)

Definition run_task (t : Task) : IO unit :=
  match t with
  | GoServedFromCache domain qtype => updateMetricServedFromCache domain qtype
  | GoServedNotFromCache domain qtype => updateMetricServedNotFromCache domain qtype
  end.

Fixpoint spawned (log : list Event) : list Task :=
  match log with
  | Go t :: log' => t :: spawned log'
  | _ :: log' => spawned log'
  | [] => []
  end.

Fixpoint run_tasks (ts : list Task) : IO unit :=
  match ts with
  | [] => mret tt
  | t :: ts' => run_task t;; run_tasks ts'
  end.

Definition serve (r : Msg) : IO unit := fun w =>
  match HandleDNSRequest r w with
  | (_, w1, log1) =>
      match run_tasks (spawned log1) w1 with
      | (_, w2, log2) => (tt, w2, log1 ++ log2)
      end
  end.

(** [serve], with the availability of the backends changing to [pg] and
    [redis] once the handler has returned: the handler sees the backends
    as they were, its goroutine as they have become. *)
Definition serve_changing (r : Msg) (pg redis : bool) : IO unit := fun w =>
  match HandleDNSRequest r w with
  | (_, w1, log1) =>
      match run_tasks (spawned log1) (set_backends pg redis w1) with
      | (_, w2, log2) => (tt, w2, log1 ++ log2)
      end
  end.

Inductive Step :=
| Query (r : Msg)
| Expire (key : string)
| Backends (pg redis : bool)
| QueryChanging (r : Msg) (pg redis : bool).

Definition step (s : Step) : IO unit :=
  match s with
  | Query r => serve r
  | Expire key => update (set_rdb (delete key))
  | Backends pg redis => update (set_backends pg redis)
  | QueryChanging r pg redis => serve_changing r pg redis
  end.

(** The query a step serves, if it serves one. *)
Definition query_of (s : Step) : option Msg :=
  match s with
  | Query r | QueryChanging r _ _ => Some r
  | Expire _ | Backends _ _ => None
  end.

(** The world after a run, and the log of each of its steps. *)
Fixpoint run (steps : list Step) (w : World) : World * list (list Event) :=
  match steps with
  | [] => (w, [])
  | s :: steps' =>
      match step s w with
      | (_, w1, log) =>
          match run steps' w1 with
          | (w2, logs) => (w2, log :: logs)
          end
      end
  end.

(** The same server with its goroutines detached: a handler leaves the
    goroutine it starts pending, and the oldest pending goroutine runs at
    some later step. *)
Inductive Sched :=
| Handle (r : Msg)
| RunPending.

Definition sched_step (s : Sched) (st : World * list Task)
    : World * list Task * list Event :=
  match s with
  | Handle r =>
      match HandleDNSRequest r st.1 with
      | (_, w1, log) => (w1, st.2 ++ spawned log, log)
      end
  | RunPending =>
      match st.2 with
      | [] => (st, [])
      | t :: pending =>
          match run_task t st.1 with
          | (_, w1, log) => (w1, pending, log)
          end
      end
  end.

Fixpoint sched_run (steps : list Sched) (st : World * list Task)
    : World * list Task * list (list Event) :=
  match steps with
  | [] => (st, [])
  | s :: steps' =>
      match sched_step s st with
      | (st1, log) =>
          match sched_run steps' st1 with
          | (st2, logs) => (st2, log :: logs)
          end
      end
  end.

(** The (domain, qtype) pair a query is resolved for. *)
Definition asked (r : Msg) : option (string * string) :=
  match Question r with
  | [] => None
  | q :: _ => Some (strings.TrimSuffix (QName q) ".", TypeToString (Qtype q))
  end.

End Resolver.

(** ** A reference library, to run the model on concrete queries

    [net.ParseIP] after Go's [netip.ParseAddr], and the entries of
    [dns.TypeToString] for the types of RFC 1035, AAAA, SRV and ANY.  The
    table of the library has more entries than these; the theorems hold
    of any table, and the runs below ask for types that are listed. *)

Module netip.

(** [parseIPv4Fields]: four decimal octets separated by dots, no octet
    empty, above 255 or with a leading zero. *)
Fixpoint parseIPv4Fields (s : list ascii) (first prev_dot : bool)
    (val : Z) (digLen : nat) (fields : list Z) : option (list Z) :=
  match s with
  | [] => if (length fields <? 3)%nat then None else Some (fields ++ [val])
  | c :: s' =>
      match strconv.digit c with
      | Some d =>
          if (digLen =? 1)%nat && (val =? 0) then None
          else
            let val' := val * 10 + d in
            if 255 <? val' then None
            else parseIPv4Fields s' false false val' (S digLen) fields
      | None =>
          if Ascii.eqb c "."%char then
            if first || is_nil s' || prev_dot then None
            else if (length fields =? 3)%nat then None
            else parseIPv4Fields s' false true 0 O (fields ++ [val])
          else None
      end
  end.

Definition parseIPv4 (s : list ascii) : option (list Z) :=
  parseIPv4Fields s true false 0 O [].

Definition hexval (c : ascii) : option Z :=
  let n := Z.of_nat (nat_of_ascii c) in
  if (48 <=? n) && (n <=? 57) then Some (n - 48)
  else if (97 <=? n) && (n <=? 102) then Some (n - 97 + 10)
  else if (65 <=? n) && (n <=? 70) then Some (n - 65 + 10)
  else None.

(** One group of at most four hex digits: its value, the number of
    digits read and the rest of the text. *)
Fixpoint hex_group (s : list ascii) (off : nat) (acc : Z)
    : option (Z * nat * list ascii) :=
  match s with
  | [] => Some (acc, off, [])
  | c :: s' =>
      match hexval c with
      | Some d =>
          let acc' := acc * 16 + d in
          if (3 <? off)%nat then None
          else if 65535 <? acc' then None
          else hex_group s' (S off) acc'
      | None => Some (acc, off, s)
      end
  end.

(** The main loop of [parseIPv6]: the text left over, the bytes parsed
    and where the ellipsis stands. *)
Fixpoint groups (fuel : nat) (s : list ascii) (ip : list Z) (ellipsis : option nat)
    : option (list ascii * list Z * option nat) :=
  match fuel with
  | O => None
  | S fuel' =>
      if (16 <=? length ip)%nat then Some (s, ip, ellipsis)
      else
        match hex_group s 0 0 with
        | None => None
        | Some (acc, off, rest) =>
            if (off =? 0)%nat then None
            else
              match rest with
              | "."%char :: _ =>
                  if match ellipsis with
                     | None => negb (length ip =? 12)%nat
                     | Some _ => false
                     end
                  then None
                  else if (16 <? length ip + 4)%nat then None
                  else
                    match parseIPv4 s with
                    | Some v4 => Some ([], ip ++ v4, ellipsis)
                    | None => None
                    end
              | [] => Some ([], ip ++ [acc / 256; acc mod 256], ellipsis)
              | c :: rest1 =>
                  let ip' := ip ++ [acc / 256; acc mod 256] in
                  if negb (Ascii.eqb c ":"%char) then None
                  else
                    match rest1 with
                    | [] => None
                    | ":"%char :: rest2 =>
                        match ellipsis with
                        | Some _ => None
                        | None =>
                            if is_nil rest2 then Some ([], ip', Some (length ip'))
                            else groups fuel' rest2 ip' (Some (length ip'))
                        end
                    | _ => groups fuel' rest1 ip' ellipsis
                    end
              end
        end
  end.

Definition expand (ip : list Z) (ellipsis : option nat) (rest : list ascii)
    : option (list Z) :=
  if negb (is_nil rest) then None
  else if (length ip <? 16)%nat then
    match ellipsis with
    | None => None
    | Some e => Some (take e ip ++ replicate (16 - length ip) 0 ++ drop e ip)
    end
  else
    match ellipsis with
    | Some _ => None
    | None => Some ip
    end.

Definition parseIPv6 (s : list ascii) : option (list Z) :=
  if existsb (Ascii.eqb "%"%char) s then None
  else
    match s with
    | ":"%char :: ":"%char :: [] => Some (replicate 16 0)
    | ":"%char :: ":"%char :: s' =>
        match groups (S (length s')) s' [] (Some O) with
        | Some (rest, ip, e) => expand ip e rest
        | None => None
        end
    | _ =>
        match groups (S (length s)) s [] None with
        | Some (rest, ip, e) => expand ip e rest
        | None => None
        end
    end.

(** [ParseAddr] decides between the two syntaxes on the first dot, colon
    or percent sign. *)
Fixpoint dispatch (s all : list ascii) : option (list Z) :=
  match s with
  | [] => None
  | c :: s' =>
      if Ascii.eqb c "."%char then
        match parseIPv4 all with
        | Some v4 => Some (replicate 10 0 ++ [255; 255] ++ v4)
        | None => None
        end
      else if Ascii.eqb c ":"%char then parseIPv6 all
      else if Ascii.eqb c "%"%char then None
      else dispatch s' all
  end.

Definition ParseIP (s : string) : IP :=
  let l := list_ascii_of_string s in
  match dispatch l l with
  | Some ip => ip
  | None => []
  end.

End netip.

Definition ref_TypeToString (t : Z) : string :=
  match t with
  | 1 => "A" | 2 => "NS" | 3 => "MD" | 4 => "MF" | 5 => "CNAME" | 6 => "SOA"
  | 7 => "MB" | 8 => "MG" | 9 => "MR" | 10 => "NULL" | 12 => "PTR"
  | 13 => "HINFO" | 14 => "MINFO" | 15 => "MX" | 16 => "TXT"
  | 28 => "AAAA" | 33 => "SRV" | 255 => "ANY"
  | _ => ""
  end.

#[export] Instance ref_lib : GoLib :=
  {| TypeToString := ref_TypeToString; ParseIP := netip.ParseIP |}.

(** The messages a run writes to the client, in order. *)
Fixpoint written (log : list Event) : list Msg :=
  match log with
  | WriteMsg m :: log' => m :: written log'
  | _ :: log' => written log'
  | [] => []
  end.

(** A step was answered from the store for the pair: its handler started
    [updateMetricServedNotFromCache] for it. *)
Definition is_store_served (domain qtype : string) (e : Event) : bool :=
  match e with
  | Go (GoServedNotFromCache d q) => String.eqb d domain && String.eqb q qtype
  | _ => false
  end.

Definition store_served (domain qtype : string) (log : list Event) : bool :=
  existsb (is_store_served domain qtype) log.

Definition count_store_served (domain qtype : string) (logs : list (list Event)) : Z :=
  Z.of_nat (length (List.filter (store_served domain qtype) logs)).

(** A step issued a SET for the key. *)
Definition is_cache_write (key : string) (e : Event) : bool :=
  match e with
  | RedisSet k _ _ => String.eqb k key
  | _ => false
  end.

Definition cache_written (key : string) (log : list Event) : bool :=
  existsb (is_cache_write key) log.

(** The counter of a pair, 0 when it has no row. *)
Definition hits_of (w : World) (domain qtype : string) : Z :=
  default 0 (dns_metrics w !! (domain, qtype)).

(** A sequence of upserts. *)
Fixpoint AddRecords (rs : list Record_) : IO unit :=
  match rs with
  | [] => mret tt
  | r :: rs' => _ ← db.AddRecord r; AddRecords rs'
  end.

(** The UNIQUE(domain, qtype, value) constraint of [dns_records]. *)
Definition triple (r : Record_) : string * string * string :=
  (Domain r, QType r, Value r).

Definition unique_rows (rows : list Record_) : Prop :=
  NoDup (map triple rows).

(** What holds of a pair between the steps of a run in which [n] of its
    resolutions so far were answered from the store: its key is absent or
    holds a decodable value, and either [n] has reached the threshold
    [min] or the key is absent and the counter is at most [n]. *)
Definition promotion_inv (domain qtype : string) (min : Z) (w : World) (n : Z) : Prop :=
  let key := cache.CacheKey domain qtype in
  (rdb w !! key = None \/ exists rows, rdb w !! key = Some (JSON rows))
  /\ (min <= n \/ (rdb w !! key = None /\ hits_of w domain qtype <= n)).

(** ** The rest of package db, and the Redis commands of the API

    These calls are modelled by their results and their effect on the
    stores; they add nothing to the event log. *)

(** SELECT domain, qtype, ttl, value FROM dns_records *)
Definition FetchAllRecords : IO (Result (list Record_)) :=
  w ← world;
  if pg_up w then mret (Ok (dns_records w)) else mret Err.

(** DELETE FROM dns_records WHERE domain=$1 AND qtype=$2, as
    [DeleteRecord] runs it on [db.PgPool]; [true] is a non-nil error. *)
Definition Exec_delete (domain qtype : string) : IO bool :=
  w ← world;
  if pg_up w then
    update (set_dns_records
              (List.filter (fun x => negb (db.same_pair domain qtype x))));;
    mret false
  else mret true.

(** [cache.Rdb], the client every Redis call goes through, is the nil
    pointer until [cache.InitRedis] has run.  The daemon command runs it
    before it serves, also when it serves the HTTP API alongside; the api
    command does not.  A method call on the nil client is a nil pointer
    dereference: the handler panics, and [None] is that panic. *)
Inductive RdbClient :=
| Rdb_nil
| Rdb_set.

(** [Rdb.Exists(ctx, key).Result()]: the number of keys that exist and
    whether the call failed. *)
Definition Rdb_Exists (Rdb : RdbClient) (key : string) : IO (option (Z * bool)) :=
  match Rdb with
  | Rdb_nil => mret None
  | Rdb_set =>
      w ← world;
      if redis_up w then
        match rdb w !! key with
        | Some _ => mret (Some (1, false))
        | None => mret (Some (0, false))
        end
      else mret (Some (0, true))
  end.

(** [Rdb.Del(ctx, key)], its result dropped. *)
Definition Rdb_Del (Rdb : RdbClient) (key : string) : IO (option unit) :=
  match Rdb with
  | Rdb_nil => mret None
  | Rdb_set =>
      w ← world;
      if redis_up w then update (set_rdb (delete key));; mret (Some tt)
      else mret (Some tt)
  end.

(** [cache.CacheRecord] as a handler calls it: without records it returns
    its error before it touches [cache.Rdb]. *)
Definition Rdb_CacheRecord (Rdb : RdbClient) (domain qtype : string)
    (records : list Record_) : IO (option bool) :=
  match Rdb with
  | Rdb_nil =>
      if (length records =? 0)%nat then mret (Some true) else mret None
  | Rdb_set =>
      err ← cache.CacheRecord domain qtype records; mret (Some err)
  end.

(** ** Package api: the handlers behind the routes

    A handler takes what the router and the JSON decoder hand it (the path
    variables, and the decoded body or [None] when the body does not
    decode) and returns what it writes to the [http.ResponseWriter], or
    [Panic] when it panics before it has written anything: net/http
    recovers and closes the connection without a reply.  What the handler
    did before it panicked stays done. *)

Inductive HttpReply :=
| WriteHeader (status : Z)
| HttpError (msg : string) (status : Z)
| Encode (records : list Record_)
| Panic.

Definition StatusOK : Z := 200.
Definition StatusCreated : Z := 201.
Definition StatusBadRequest : Z := 400.
Definition StatusNotFound : Z := 404.
Definition StatusInternalServerError : Z := 500.

Module api.

Section Handlers.

(** The [cache.Rdb] of the process the handlers run in. *)
Variable Rdb : RdbClient.

(** The cache block shared by [CreateRecord] and [UpdateRecordTTL]:
    rewrite the entry only if the key exists.  [None] when it panics. *)
Definition refresh_if_cached (domain qtype : string) (records : list Record_)
    : IO (option unit) :=
  res ← Rdb_Exists Rdb (cache.CacheKey domain qtype);
  match res with
  | None => mret None
  | Some (exists_, _) =>
      if 0 <? exists_
      then
        err ← Rdb_CacheRecord Rdb domain qtype records;
        match err with
        | None => mret None
        | Some _ => mret (Some tt)
        end
      else mret (Some tt)
  end.

Definition CreateRecord (body : option Record_) : IO HttpReply :=
  match body with
  | None => mret (HttpError "invalid json" StatusBadRequest)
  | Some decoded =>
      (* if no ttl is specified use 300 *)
      let record := if TTL decoded =? 0 then db.set_ttl 300 decoded else decoded in
      err ← db.AddRecord record;
      if err : bool
      then mret (HttpError "failed to add record" StatusInternalServerError)
      else
        (* update cache only if exists *)
        done ← refresh_if_cached (Domain record) (QType record) [record];
        match done with
        | None => mret Panic
        | Some _ => mret (WriteHeader StatusCreated)
        end
  end.

Definition ListRecords : IO HttpReply :=
  res ← FetchAllRecords;
  match res with
  | Err => mret (HttpError "failed to fetch records" StatusInternalServerError)
  | Ok records => mret (Encode records)
  end.

(** The loop of [UpdateRecordTTL]: the TTL is set on the loop variable, a
    copy of the slice element, and the copy is upserted; [true] when an
    upsert failed and the handler returned. *)
Fixpoint update_ttls (ttl : Z) (records : list Record_) : IO bool :=
  match records with
  | [] => mret false
  | r :: rest =>
      err ← db.AddRecord (db.set_ttl ttl r);
      if err : bool then mret true else update_ttls ttl rest
  end.

Definition UpdateRecordTTL (domain qtype : string) (body : option Z)
    : IO HttpReply :=
  match body with
  | None => mret (HttpError "invalid json" StatusBadRequest)
  | Some ttl =>
      res ← db.FetchRecords domain qtype;
      match res with
      | Err => mret (HttpError "record not found" StatusNotFound)
      | Ok records =>
          if (length records =? 0)%nat
          then mret (HttpError "record not found" StatusNotFound)
          else
            failed ← update_ttls ttl records;
            if failed : bool
            then mret (HttpError "failed to update record"
                                 StatusInternalServerError)
            else
              done ← refresh_if_cached domain qtype records;
              match done with
              | None => mret Panic
              | Some _ => mret (WriteHeader StatusOK)
              end
      end
  end.

Definition DeleteRecord (domain qtype : string) : IO HttpReply :=
  err ← Exec_delete domain qtype;
  if err : bool then mret (HttpError "failed to delete" StatusInternalServerError)
  else
    done ← Rdb_Del Rdb (cache.CacheKey domain qtype);
    match done with
    | None => mret Panic
    | Some _ => mret (WriteHeader StatusOK)
    end.

Definition AddToCache (domain qtype : string) : IO HttpReply :=
  res ← db.FetchRecords domain qtype;
  match res with
  | Err => mret (HttpError "record not found" StatusNotFound)
  | Ok recs =>
      if (length recs =? 0)%nat
      then mret (HttpError "record not found" StatusNotFound)
      else
        res ← Rdb_CacheRecord Rdb domain qtype recs;
        match res with
        | None => mret Panic
        | Some err =>
            if err : bool
            then mret (HttpError "failed to cache" StatusInternalServerError)
            else mret (WriteHeader StatusOK)
        end
  end.

Definition RemoveFromCache (domain qtype : string) : IO HttpReply :=
  done ← Rdb_Del Rdb (cache.CacheKey domain qtype);
  match done with
  | None => mret Panic
  | Some _ => mret (WriteHeader StatusOK)
  end.

End Handlers.

End api.

(** ** main.bak.go: the cache-record command of the single-file version *)

Module bak.

(** [fetchRecordsFromDB] runs the statement of [db.FetchRecords] on the
    same table, and [cacheKey] builds the key of [cache.CacheKey].  Every
    command of the single-file version runs [initDeps] first, which sets
    its Redis client. *)
Definition fetchRecordsFromDB (domain qtype : string)
    : IO (Result (list Record_)) :=
  db.FetchRecords domain qtype.

Definition cacheKey (domain qtype : string) : string :=
  "dns:record:" +:+ strings.ToLower domain +:+ ":" +:+ strings.ToUpper qtype.

(** [cacheRecord]: fetch, refuse an empty result, marshal and SET for one
    hour; [true] is a non-nil error. *)
Definition cacheRecord (domain qtype : string) : IO bool :=
  res ← fetchRecordsFromDB domain qtype;
  match res with
  | Err => mret true
  | Ok recs =>
      if (length recs =? 0)%nat then mret true
      else cache.Set_ (cacheKey domain qtype) (JSON recs) cache.time_Hour
  end.

End bak.

(** A string without a colon. *)
Definition colon_free (s : string) : Prop :=
  ~ In ":"%char (list_ascii_of_string s).

(** A string of bytes below [utf8.RuneSelf]. *)
Definition is_ascii (s : string) : bool :=
  forallb (fun c => (nat_of_ascii c <? 128)%nat) (list_ascii_of_string s).

(** ** Concrete queries and stores for the examples *)

Definition question (name : string) (qtype : Z) : Question_ :=
  {| QName := name; Qtype := qtype; Qclass := ClassINET |}.

Definition query (name : string) (qtype : Z) : Msg :=
  {| Id := 1; Response := false; Rcode := RcodeSuccess;
     Question := [question name qtype]; Answer := [] |}.

(** Both backends up, no counters, an empty cache, no environment. *)
Definition store (rows : list Record_) : World :=
  {| dns_records := rows; dns_metrics := ∅; rdb := ∅;
     pg_up := true; redis_up := true; environ := ∅ |}.

Definition exA : Record_ := mkRecord "example.com" "A" 300 "203.0.113.5".

Definition exU : Record_ := mkRecord "EXAMPLE.COM" "A" 300 "203.0.113.5".

Definition lower : Step := Query (query "example.com." TypeA).
Definition upper : Step := Query (query "EXAMPLE.COM." TypeA).

Definition no_question : Msg :=
  {| Id := 7; Response := false; Rcode := RcodeSuccess;
     Question := []; Answer := [] |}.

(** The same store with Postgres not answering. *)
Definition pg_down (w : World) : World :=
  {| dns_records := dns_records w; dns_metrics := dns_metrics w;
     rdb := rdb w; pg_up := false; redis_up := redis_up w;
     environ := environ w |}.

Definition setenv (key value : string) (w : World) : World :=
  {| dns_records := dns_records w; dns_metrics := dns_metrics w;
     rdb := rdb w; pg_up := pg_up w; redis_up := redis_up w;
     environ := <[key := value]> (environ w) |}.

Definition not_an_address : Record_ :=
  mkRecord "example.com" "A" 300 "not-an-address".

(** * Properties *)

(** ** The answer synthesizer *)

Section Synthesizer.

Context `{GoLib}.

Lemma respond_step_app (q : Question_) (answer : list RR) (r : Record_) :
  respond_step q answer r = answer ++ respond_step q [] r.
Proof.
  unfold respond_step.
  repeat match goal with
         | |- context [if ?b then _ else _] => destruct b
         end; simpl; now rewrite ?app_nil_r.
Qed.

Lemma fold_respond_step (q : Question_) (recs : list Record_) (answer : list RR) :
  fold_left (respond_step q) recs answer
  = answer ++ flat_map (respond_step q []) recs.
Proof.
  revert answer.
  induction recs as [|r recs IH]; intros answer; simpl.
  - now rewrite app_nil_r.
  - rewrite IH, (respond_step_app q answer r). now rewrite <- app_assoc.
Qed.

Lemma Answer_reply_with (req : Msg) (recs : list Record_) (q : Question_) :
  Answer (reply_with req recs q) = flat_map (respond_step q []) recs.
Proof. unfold reply_with. simpl. now rewrite fold_respond_step. Qed.

Lemma Rcode_reply_with (req : Msg) (recs : list Record_) (q : Question_) :
  Rcode (reply_with req recs q) = RcodeSuccess.
Proof. reflexivity. Qed.

Lemma Answer_reply_with_skip (req : Msg) (q : Question_)
    (before after : list Record_) (r : Record_) :
  respond_step q [] r = [] ->
  Answer (reply_with req (before ++ r :: after) q)
  = Answer (reply_with req (before ++ after) q).
Proof.
  intros Hr. rewrite !Answer_reply_with, !flat_map_app. simpl.
  now rewrite Hr.
Qed.

Lemma uint32_range (n : Z) : 0 <= uint32 n < 2 ^ 32.
Proof. unfold uint32. apply Z.mod_pos_bound. lia. Qed.

Lemma uint32_small (n : Z) : 0 <= n < 2 ^ 32 -> uint32 n = n.
Proof. intros Hn. unfold uint32. now apply Z.mod_small. Qed.

Lemma list_ascii_of_string_app (s t : string) :
  list_ascii_of_string (s +:+ t)
  = list_ascii_of_string s ++ list_ascii_of_string t.
Proof. induction s as [|a s IH]; [reflexivity|]. simpl. now rewrite IH. Qed.

Lemma HasSuffix_last (s : string) (c : ascii) :
  last (list_ascii_of_string s) = Some c ->
  strings.HasSuffix s (String c EmptyString) = true.
Proof.
  unfold strings.HasSuffix. cbn [String.length].
  induction s as [|a s IH]; [discriminate|].
  cbn [list_ascii_of_string String.length]. intros Hl.
  destruct s as [|b s].
  - cbn in Hl. injection Hl as ->. cbn. now rewrite Ascii.eqb_refl.
  - cbn [list_ascii_of_string] in Hl, IH. rewrite last_cons_cons in Hl.
    specialize (IH Hl). apply andb_true_iff in IH as [_ IH].
    cbn [String.length] in *. cbn [Nat.leb Nat.sub andb] in *.
    rewrite Nat.sub_0_r in *.
    exact IH.
Qed.

(** [dns.Fqdn] returns a name that ends in a dot. *)
Lemma Fqdn_ends_in_dot (s : string) :
  strings.HasSuffix (dnslib.Fqdn s) "." = true.
Proof.
  apply HasSuffix_last. unfold dnslib.Fqdn, dnslib.IsFqdn.
  destruct (rev (list_ascii_of_string s)) as [|c before] eqn:Hrev.
  - rewrite list_ascii_of_string_app. cbn. now rewrite last_snoc.
  - destruct (Ascii.eqb_spec c "."%char) as [->|_]; cbn [andb].
    + destruct (Nat.even _).
      * apply (f_equal (@rev ascii)) in Hrev. rewrite rev_involutive in Hrev.
        rewrite Hrev. cbn [rev]. now rewrite last_snoc.
      * rewrite list_ascii_of_string_app. cbn. now rewrite last_snoc.
    + rewrite list_ascii_of_string_app. cbn. now rewrite last_snoc.
Qed.

(** What a single record contributes: nothing, or one answer whose header
    is built from that record. *)
Lemma respond_step_header (q : Question_) (r : Record_) (rr : RR) :
  In rr (respond_step q [] r) ->
  respond_step q [] r = [rr]
  /\ selected q r = true
  /\ Header rr = rr_header r (Rrtype (Header rr)).
Proof.
  unfold respond_step.
  destruct (selected q r); [|intros []].
  repeat match goal with
         | |- context [if ?b then _ else _] => destruct b
         end; simpl; intros Hin;
    try contradiction; destruct Hin as [<-|[]]; auto.
Qed.

End Synthesizer.

Section SynthesizerClaims.

Context `{GoLib}.

(** C7.  Whatever list of records [RespondWithRecords] is given, it writes
    one message, with Rcode success.  A record of type A whose value does
    not parse as an IPv4 address ([net.ParseIP(...).To4()] is [nil])
    contributes nothing, and the answers are those of the list without it.
    Every other record that passes the type filter is synthesized, at its
    place in the order of the list: a record of type A whose value parses
    gives an A answer with the four bytes, a record of type AAAA whose
    value parses an AAAA answer with the address, a record of type CNAME a
    CNAME answer with [dns.Fqdn] of the value, and a record of type TXT a
    TXT answer with the value.
    Every answer stems from a record of the list that passed the type
    filter, is owned by [dns.Fqdn] of that record's domain, a name that
    ends in a dot, is of class IN, and carries [uint32] of its TTL, a
    value in [0, 2^32) that is the TTL itself when the TTL is in that
    range. *)
Theorem invalid_A_record_is_dropped
    (req : Msg) (q : Question_) (recs : list Record_) (w : World) :
  let m := reply_with req recs q in
  RespondWithRecords req recs q w = (tt, w, [WriteMsg m])
  /\ Rcode m = RcodeSuccess
  /\ (forall before r after,
        recs = before ++ r :: after ->
        strings.ToUpper (QType r) = "A" ->
        To4 (ParseIP (Value r)) = [] ->
        respond_step q [] r = []
        /\ Answer m = Answer (reply_with req (before ++ after) q))
  /\ (forall before r after rr,
        recs = before ++ r :: after ->
        selected q r = true ->
        (strings.ToUpper (QType r) = "A"
         /\ To4 (ParseIP (Value r)) <> []
         /\ rr = RR_A (rr_header r TypeA) (To4 (ParseIP (Value r))))
        \/ (strings.ToUpper (QType r) = "AAAA"
            /\ ParseIP (Value r) <> []
            /\ rr = RR_AAAA (rr_header r TypeAAAA) (ParseIP (Value r)))
        \/ (strings.ToUpper (QType r) = "CNAME"
            /\ rr = RR_CNAME (rr_header r TypeCNAME) (dnslib.Fqdn (Value r)))
        \/ (strings.ToUpper (QType r) = "TXT"
            /\ rr = RR_TXT (rr_header r TypeTXT) [Value r]) ->
        Answer m
        = Answer (reply_with req before q)
          ++ rr :: Answer (reply_with req after q))
  /\ (forall rr, In rr (Answer m) ->
        exists r, In r recs
          /\ selected q r = true
          /\ respond_step q [] r = [rr]
          /\ Name (Header rr) = dnslib.Fqdn (Domain r)
          /\ strings.HasSuffix (Name (Header rr)) "." = true
          /\ Class_ (Header rr) = ClassINET
          /\ Ttl (Header rr) = uint32 (TTL r)
          /\ 0 <= Ttl (Header rr) < 2 ^ 32
          /\ (0 <= TTL r < 2 ^ 32 -> Ttl (Header rr) = TTL r)).
Proof.
  intros m. split; [reflexivity|]. split; [reflexivity|]. split; [|split].
  - intros before r after -> Hty Hip.
    assert (Hr : respond_step q [] r = []).
    { unfold respond_step. rewrite Hty, Hip. simpl.
      now destruct (selected q r). }
    split; [exact Hr|]. now apply Answer_reply_with_skip.
  - intros before r after rr -> Hsel Hrr. subst m.
    rewrite !Answer_reply_with, flat_map_app. cbn [flat_map].
    assert (Hr : respond_step q [] r = [rr]).
    { unfold respond_step. rewrite Hsel.
      destruct Hrr as [(Hty & Hip & ->)|[(Hty & Hip & ->)
                      |[(Hty & ->)|(Hty & ->)]]]; rewrite Hty; cbn.
      - now destruct (To4 (ParseIP (Value r))).
      - now destruct (ParseIP (Value r)).
      - reflexivity.
      - reflexivity. }
    now rewrite Hr.
  - intros rr Hin. subst m. rewrite Answer_reply_with in Hin.
    apply in_flat_map in Hin as (r & Hr & Hrr).
    destruct (respond_step_header q r rr Hrr) as (Heq & Hsel & Hhdr).
    exists r. repeat split; try assumption.
    + now rewrite Hhdr.
    + rewrite Hhdr. apply Fqdn_ends_in_dot.
    + now rewrite Hhdr.
    + now rewrite Hhdr.
    + rewrite Hhdr. apply uint32_range.
    + rewrite Hhdr. apply uint32_range.
    + intros Hsmall. rewrite Hhdr. simpl. now apply uint32_small.
Qed.

(** C8.  A record of type AAAA that passes the type filter and whose value
    [net.ParseIP] accepts yields an AAAA answer carrying the parsed
    address.  Nothing is asked of [To4]: a value that is an IPv4 address,
    such as a dotted-decimal literal, is answered like any other. *)
Theorem AAAA_accepts_any_IP
    (req : Msg) (q : Question_) (recs : list Record_) (r : Record_) :
  In r recs ->
  strings.ToUpper (QType r) = "AAAA" ->
  selected q r = true ->
  ParseIP (Value r) <> [] ->
  In (RR_AAAA (rr_header r TypeAAAA) (ParseIP (Value r)))
     (Answer (reply_with req recs q)).
Proof.
  intros Hin Hty Hsel Hip.
  rewrite Answer_reply_with. apply in_flat_map. exists r. split; [exact Hin|].
  unfold respond_step. rewrite Hsel, Hty. simpl.
  destruct (ParseIP (Value r)); [contradiction|]. simpl. now left.
Qed.

(** C10.  A record whose type, in upper case, is none of A, AAAA, CNAME and
    TXT contributes no answer, whatever the question: also when the
    question asks for that very type or for ANY.  The answers are those of
    the list without the record. *)
Theorem unsupported_type_yields_no_answer
    (req : Msg) (q : Question_) (before after : list Record_) (r : Record_) :
  ~ In (strings.ToUpper (QType r)) ["A"; "AAAA"; "CNAME"; "TXT"] ->
  (forall answer, respond_step q answer r = answer)
  /\ Answer (reply_with req (before ++ r :: after) q)
     = Answer (reply_with req (before ++ after) q).
Proof.
  intros Hty.
  assert (Hr : forall answer, respond_step q answer r = answer).
  { intros answer. unfold respond_step.
    destruct (selected q r); [|reflexivity].
    repeat match goal with
           | |- context [String.eqb ?a ?b] =>
               destruct (String.eqb_spec a b) as [Heq|_];
               [exfalso; apply Hty; rewrite Heq; simpl; tauto|]
           end.
    reflexivity. }
  split; [exact Hr|]. apply Answer_reply_with_skip, Hr.
Qed.

End SynthesizerClaims.

(** ** The backends, one call at a time *)

Ltac io_unfold :=
  unfold mbind, IO_bind, mret, IO_ret, emit, world, update.

Section Calls.

Context `{GoLib}.

Lemma IncrementMetric_run (domain qtype : string) (w : World) :
  db.IncrementMetric domain qtype w
  = (result_of (db.IncrementMetric domain qtype) w,
     world_after (db.IncrementMetric domain qtype) w,
     [PgIncrementMetric domain qtype]).
Proof.
  unfold result_of, world_after, db.IncrementMetric. io_unfold.
  cbv beta iota. destruct (pg_up w); [|reflexivity].
  destruct (dns_metrics w !! (domain, qtype)) as [hits|]; [|reflexivity].
  destruct (hits + 1 <=? strconv.maxInt64); reflexivity.
Qed.

Lemma GetDomainHits_run (domain qtype : string) (w : World) :
  db.GetDomainHits domain qtype w
  = (result_of (db.GetDomainHits domain qtype) w, w, [PgGetDomainHits domain qtype]).
Proof.
  unfold result_of, db.GetDomainHits. io_unfold.
  cbv beta iota. destruct (pg_up w); [|reflexivity].
  destruct (dns_metrics w !! (domain, qtype)); reflexivity.
Qed.

Lemma FetchRecords_run (domain qtype : string) (w : World) :
  db.FetchRecords domain qtype w
  = (result_of (db.FetchRecords domain qtype) w, w, [PgFetchRecords domain qtype]).
Proof.
  unfold result_of, db.FetchRecords. io_unfold.
  cbv beta iota. destruct (pg_up w); reflexivity.
Qed.

Lemma FetchRecords_result (domain qtype : string) (w : World) :
  result_of (db.FetchRecords domain qtype) w
  = if pg_up w
    then Ok (List.filter (db.same_pair domain qtype) (dns_records w))
    else Err.
Proof.
  unfold result_of, db.FetchRecords. io_unfold.
  cbv beta iota. destruct (pg_up w); reflexivity.
Qed.

Lemma GetDomainHits_result (domain qtype : string) (w : World) :
  result_of (db.GetDomainHits domain qtype) w
  = if pg_up w
    then match dns_metrics w !! (domain, qtype) with
         | Some hits => Ok hits
         | None => Err
         end
    else Err.
Proof.
  unfold result_of, db.GetDomainHits. io_unfold.
  cbv beta iota. destruct (pg_up w); [|reflexivity].
  destruct (dns_metrics w !! (domain, qtype)); reflexivity.
Qed.

Lemma cache_lookup_run (domain qtype : string) (w : World) :
  cache_lookup domain qtype w
  = (result_of (cache_lookup domain qtype) w, w,
     [RedisGet (cache.CacheKey domain qtype)]).
Proof.
  unfold result_of, cache_lookup, cache.Get. io_unfold.
  cbv beta iota. destruct (redis_up w); [|reflexivity].
  destruct (rdb w !! cache.CacheKey domain qtype); reflexivity.
Qed.

Lemma cache_lookup_result (domain qtype : string) (w : World) :
  result_of (cache_lookup domain qtype) w
  = if redis_up w
    then rdb w !! cache.CacheKey domain qtype ≫= json_Unmarshal
    else None.
Proof.
  unfold result_of, cache_lookup, cache.Get. io_unfold.
  cbv beta iota. destruct (redis_up w); [|reflexivity].
  destruct (rdb w !! cache.CacheKey domain qtype); reflexivity.
Qed.

Lemma minHits_run (w : World) : minHits w = (result_of minHits w, w, []).
Proof.
  unfold result_of, minHits, util.MustGetenv, util.Getenv. io_unfold.
  cbv beta iota. destruct (negb _); reflexivity.
Qed.

Lemma minHits_environ (w w' : World) :
  environ w' = environ w -> result_of minHits w' = result_of minHits w.
Proof.
  intros He. unfold result_of, minHits, util.MustGetenv, util.Getenv. io_unfold.
  cbv beta iota. rewrite He.
  destruct (negb _); reflexivity.
Qed.

Lemma CacheRecord_run (domain qtype : string) (r : Record_) (rows : list Record_)
    (w : World) :
  cache.CacheRecord domain qtype (r :: rows) w
  = (negb (redis_up w),
     if redis_up w
     then set_rdb (insert (cache.CacheKey domain qtype) (JSON (r :: rows))) w
     else w,
     [RedisSet (cache.CacheKey domain qtype) (JSON (r :: rows)) cache.time_Hour]).
Proof.
  unfold cache.CacheRecord, cache.Set_. io_unfold.
  cbn [length Nat.eqb]. cbv beta iota. destruct (redis_up w); reflexivity.
Qed.

(** [IncrementMetric] touches nothing but the counters. *)
Lemma IncrementMetric_frame (domain qtype : string) (w : World) :
  let w1 := world_after (db.IncrementMetric domain qtype) w in
  dns_records w1 = dns_records w /\ rdb w1 = rdb w /\ pg_up w1 = pg_up w
  /\ redis_up w1 = redis_up w /\ environ w1 = environ w.
Proof.
  unfold world_after, db.IncrementMetric. io_unfold.
  cbv beta iota zeta. destruct (pg_up w) eqn:Hpg; [|cbn; rewrite Hpg; tauto].
  destruct (dns_metrics w !! (domain, qtype)) as [hits|]; [|cbn; tauto].
  destruct (hits + 1 <=? strconv.maxInt64); cbn; rewrite ?Hpg; tauto.
Qed.

(** The handler, case by case. *)
Lemma HandleDNSRequest_eq (r : Msg) (w : World) :
  HandleDNSRequest r w =
  match Question r with
  | [] => (tt, w, [WriteMsg (dnslib.SetRcode r RcodeFormatError)])
  | q :: _ =>
      let domain := strings.TrimSuffix (QName q) "." in
      let qtype := TypeToString (Qtype q) in
      let key := cache.CacheKey domain qtype in
      match result_of (cache_lookup domain qtype) w with
      | Some recs =>
          (tt, w, [RedisGet key; WriteMsg (reply_with r recs q);
                   Go (GoServedFromCache domain qtype)])
      | None =>
          match result_of (db.FetchRecords domain qtype) w with
          | Err =>
              (tt, w, [RedisGet key; PgFetchRecords domain qtype;
                       WriteMsg (dnslib.SetRcode r RcodeServerFailure)])
          | Ok [] =>
              (tt, w, [RedisGet key; PgFetchRecords domain qtype;
                       WriteMsg (dnslib.SetRcode r RcodeNameError)])
          | Ok rows =>
              (tt, w, [RedisGet key; PgFetchRecords domain qtype;
                       WriteMsg (reply_with r rows q);
                       Go (GoServedNotFromCache domain qtype)])
          end
      end
  end.
Proof.
  unfold HandleDNSRequest.
  destruct (Question r) as [|q rest]; [reflexivity|].
  cbv zeta. rewrite cache_lookup_result.
  set (fromPostgres := mbind _ (db.FetchRecords _ _)).
  assert (Hpg : fromPostgres w
                = match result_of (db.FetchRecords
                                     (strings.TrimSuffix (QName q) ".")
                                     (TypeToString (Qtype q))) w with
                  | Err =>
                      (tt, w, [PgFetchRecords (strings.TrimSuffix (QName q) ".")
                                              (TypeToString (Qtype q));
                               WriteMsg (dnslib.SetRcode r RcodeServerFailure)])
                  | Ok [] =>
                      (tt, w, [PgFetchRecords (strings.TrimSuffix (QName q) ".")
                                              (TypeToString (Qtype q));
                               WriteMsg (dnslib.SetRcode r RcodeNameError)])
                  | Ok rows =>
                      (tt, w, [PgFetchRecords (strings.TrimSuffix (QName q) ".")
                                              (TypeToString (Qtype q));
                               WriteMsg (reply_with r rows q);
                               Go (GoServedNotFromCache
                                     (strings.TrimSuffix (QName q) ".")
                                     (TypeToString (Qtype q)))])
                  end).
  { subst fromPostgres. unfold mbind, IO_bind. rewrite FetchRecords_run.
    destruct (result_of (db.FetchRecords _ _) w) as [[|row rows]|]; reflexivity. }
  clearbody fromPostgres.
  unfold cache.Get. io_unfold. cbv beta iota.
  destruct (redis_up w).
  - destruct (rdb w !! cache.CacheKey _ _) as [[recs|text]|]; cbn;
      try reflexivity; rewrite Hpg;
      destruct (result_of (db.FetchRecords _ _) w) as [[|row rows]|];
      reflexivity.
  - cbn. rewrite Hpg.
    destruct (result_of (db.FetchRecords _ _) w) as [[|row rows]|];
      reflexivity.
Qed.

(** The promotion policy, case by case. *)
Lemma updateMetric_eq (domain qtype : string) (served : bool) (w : World) :
  let w1 := world_after (db.IncrementMetric domain qtype) w in
  let key := cache.CacheKey domain qtype in
  let counted := [PgIncrementMetric domain qtype; PgGetDomainHits domain qtype] in
  updateMetric domain qtype served w =
  match result_of (db.GetDomainHits domain qtype) w1 with
  | Err => (tt, w1, counted)
  | Ok hits =>
      if (hits <? result_of minHits w1) || served then (tt, w1, counted)
      else
        match result_of (db.FetchRecords domain qtype) w1 with
        | Err | Ok [] => (tt, w1, counted ++ [PgFetchRecords domain qtype])
        | Ok rows =>
            (tt,
             if redis_up w1 then set_rdb (insert key (JSON rows)) w1 else w1,
             counted ++ [PgFetchRecords domain qtype;
                         RedisSet key (JSON rows) cache.time_Hour])
        end
  end.
Proof.
  intros w1 key counted. unfold updateMetric, mbind, IO_bind, mret, IO_ret.
  rewrite IncrementMetric_run. cbv beta iota. fold w1.
  rewrite GetDomainHits_run. cbv beta iota.
  destruct (result_of (db.GetDomainHits domain qtype) w1) as [hits|]; [|reflexivity].
  rewrite minHits_run. cbv beta iota.
  destruct (hits <? result_of minHits w1); [reflexivity|].
  destruct served; [reflexivity|]. cbn [orb].
  rewrite FetchRecords_run. cbv beta iota.
  destruct (result_of (db.FetchRecords domain qtype) w1) as [[|r rows]|];
    [reflexivity| |reflexivity].
  cbn [length Nat.eqb]. rewrite CacheRecord_run.
  reflexivity.
Qed.

End Calls.

(** ** The resolver *)

Section ResolverClaims.

Context `{GoLib}.

(** C3.  The handler writes exactly one message and leaves the stores as
    they are; the message carries one of four codes.  With no question the
    whole run is that one FormatError message: nothing is read.  With a
    question and a cache miss, an error from [db.FetchRecords] gives
    ServerFailure after a single lookup, zero rows give NameError, and one
    or more rows give the success message built from them. *)
Theorem resolver_outcomes (r : Msg) (w : World) :
  let log := log_of (HandleDNSRequest r) w in
  world_after (HandleDNSRequest r) w = w
  /\ (exists m, written log = [m]
        /\ (Rcode m = RcodeFormatError \/ Rcode m = RcodeServerFailure
            \/ Rcode m = RcodeNameError \/ Rcode m = RcodeSuccess))
  /\ (Question r = [] ->
        log = [WriteMsg (dnslib.SetRcode r RcodeFormatError)])
  /\ (forall q rest, Question r = q :: rest ->
        let domain := strings.TrimSuffix (QName q) "." in
        let qtype := TypeToString (Qtype q) in
        result_of (cache_lookup domain qtype) w = None ->
        (result_of (db.FetchRecords domain qtype) w = Err ->
           log = [RedisGet (cache.CacheKey domain qtype);
                  PgFetchRecords domain qtype;
                  WriteMsg (dnslib.SetRcode r RcodeServerFailure)])
        /\ (result_of (db.FetchRecords domain qtype) w = Ok [] ->
              written log = [dnslib.SetRcode r RcodeNameError])
        /\ (forall rows,
              result_of (db.FetchRecords domain qtype) w = Ok rows ->
              rows <> [] ->
              written log = [reply_with r rows q]
              /\ Rcode (reply_with r rows q) = RcodeSuccess)).
Proof.
  unfold log_of, world_after. rewrite HandleDNSRequest_eq.
  destruct (Question r) as [|q0 rest0].
  - cbn. split; [reflexivity|]. split; [eauto|]. split; [reflexivity|].
    intros q rest Hq. discriminate.
  - cbv zeta.
    destruct (result_of (cache_lookup _ _) w) as [recs|] eqn:Hc.
    + cbn. split; [reflexivity|]. split; [eauto 6|]. split; [discriminate|].
      intros q rest [= <- <-] Hmiss. rewrite Hc in Hmiss. discriminate.
    + destruct (result_of (db.FetchRecords _ _) w) as [[|row rows]|] eqn:Hf;
        cbn; (split; [reflexivity|]); (split; [eauto 6|]);
        (split; [discriminate|]);
        intros q rest [= <- <-] _; rewrite Hf;
        (split; [|split]); try discriminate; try reflexivity.
      * intros rows' [= <-] Hne. now contradiction Hne.
      * intros rows' [= <-] _. split; reflexivity.
Qed.

(** C4.  On a cache hit the handler reads the key, writes the answer built
    from the cached records and starts [updateMetricServedFromCache]:
    Postgres is not asked for records and the stores are unchanged.  The
    goroutine, from whatever state it starts, only increments and reads the
    pair's counter: it fetches no records and leaves [dns_records] and
    Redis as they are. *)
Theorem cache_hit_skips_store
    (r : Msg) (q : Question_) (rest : list Question_) (recs : list Record_)
    (w : World) :
  let domain := strings.TrimSuffix (QName q) "." in
  let qtype := TypeToString (Qtype q) in
  Question r = q :: rest ->
  result_of (cache_lookup domain qtype) w = Some recs ->
  HandleDNSRequest r w
  = (tt, w, [RedisGet (cache.CacheKey domain qtype);
             WriteMsg (reply_with r recs q);
             Go (GoServedFromCache domain qtype)])
  /\ (forall w0,
        log_of (run_task (GoServedFromCache domain qtype)) w0
        = [PgIncrementMetric domain qtype; PgGetDomainHits domain qtype]
        /\ dns_records (world_after (run_task (GoServedFromCache domain qtype)) w0)
           = dns_records w0
        /\ rdb (world_after (run_task (GoServedFromCache domain qtype)) w0)
           = rdb w0).
Proof.
  intros domain qtype Hq Hc. split.
  - rewrite HandleDNSRequest_eq, Hq. cbv zeta. fold domain qtype.
    now rewrite Hc.
  - intros w0. unfold log_of, world_after, run_task, updateMetricServedFromCache.
    rewrite updateMetric_eq. cbv zeta.
    destruct (IncrementMetric_frame domain qtype w0) as (Hr & Hc0 & _).
    destruct (result_of (db.GetDomainHits _ _) _); [rewrite orb_true_r|];
      cbn; auto.
Qed.

(** C6.  When the key is present but its value does not decode, the handler
    does what it does when the key is absent: the same calls, the same
    message and the same goroutine, among them the lookup in Postgres. *)
Theorem corrupt_entry_is_a_miss
    (r : Msg) (q : Question_) (rest : list Question_) (text : string)
    (w : World) :
  let domain := strings.TrimSuffix (QName q) "." in
  let qtype := TypeToString (Qtype q) in
  let key := cache.CacheKey domain qtype in
  Question r = q :: rest ->
  redis_up w = true ->
  rdb w !! key = Some (Raw text) ->
  rdb (set_rdb (delete key) w) !! key = None
  /\ log_of (HandleDNSRequest r) w
     = log_of (HandleDNSRequest r) (set_rdb (delete key) w)
  /\ world_after (HandleDNSRequest r) w = w
  /\ In (PgFetchRecords domain qtype) (log_of (HandleDNSRequest r) w).
Proof.
  intros domain qtype key Hq Hup Hraw.
  split; [cbn; apply lookup_delete_eq|].
  unfold log_of, world_after. rewrite !HandleDNSRequest_eq, Hq. cbv zeta.
  fold domain qtype key.
  rewrite !cache_lookup_result. fold key. cbn [redis_up set_rdb rdb].
  rewrite Hup, Hraw, lookup_delete_eq. cbn [mbind option_bind json_Unmarshal].
  rewrite !FetchRecords_result. cbn [pg_up set_rdb dns_records].
  destruct (pg_up w); [|cbn; tauto].
  destruct (List.filter _ _); cbn; tauto.
Qed.

(** C1, as the code has it.  On a cache miss with Postgres answering, the
    handler answers NameError whenever no row has exactly the asked domain
    and type: rows of the same domain with other types do not count.  When
    there are such rows it answers with the success message built from
    them, however many answers the type filter and the parsers leave. *)
Theorem nxdomain_when_no_row_for_pair
    (r : Msg) (q : Question_) (rest : list Question_) (w : World) :
  let domain := strings.TrimSuffix (QName q) "." in
  let qtype := TypeToString (Qtype q) in
  let log := log_of (HandleDNSRequest r) w in
  Question r = q :: rest ->
  pg_up w = true ->
  result_of (cache_lookup domain qtype) w = None ->
  ((forall x, In x (dns_records w) -> Domain x = domain -> QType x <> qtype) ->
     written log = [dnslib.SetRcode r RcodeNameError])
  /\ (forall rows,
        rows = List.filter (db.same_pair domain qtype) (dns_records w) ->
        rows <> [] ->
        written log = [reply_with r rows q]
        /\ Rcode (reply_with r rows q) = RcodeSuccess).
Proof.
  intros domain qtype log Hq Hpg Hc. subst log.
  unfold log_of. rewrite HandleDNSRequest_eq, Hq. cbv zeta.
  fold domain qtype. rewrite Hc, FetchRecords_result, Hpg. split.
  - intros Hnone.
    assert (Hrows : List.filter (db.same_pair domain qtype) (dns_records w) = []).
    { destruct (List.filter _ _) as [|x rows] eqn:Hf; [reflexivity|].
      assert (Hin : In x (List.filter (db.same_pair domain qtype) (dns_records w)))
        by (rewrite Hf; now left).
      apply filter_In in Hin as [Hin Hsame].
      unfold db.same_pair in Hsame. apply andb_true_iff in Hsame as [Hd Ht].
      apply String.eqb_eq in Hd, Ht. now destruct (Hnone x Hin Hd). }
    now rewrite Hrows.
  - intros rows -> Hne.
    destruct (List.filter _ _); [now contradiction Hne|]. now cbn.
Qed.

End ResolverClaims.

(** ** One query at a time: what a step can do *)

Section Steps.

Context `{GoLib}.

Lemma IncrementMetric_metrics (domain qtype : string) (w : World) :
  let w1 := world_after (db.IncrementMetric domain qtype) w in
  (forall p, p <> (domain, qtype) -> dns_metrics w1 !! p = dns_metrics w !! p)
  /\ hits_of w domain qtype <= hits_of w1 domain qtype <= hits_of w domain qtype + 1
  /\ (forall h, dns_metrics w !! (domain, qtype) = Some h ->
        exists h', dns_metrics w1 !! (domain, qtype) = Some h' /\ h <= h').
Proof.
  unfold world_after, db.IncrementMetric, hits_of. io_unfold.
  cbv beta iota zeta. destruct (pg_up w).
  - destruct (dns_metrics w !! (domain, qtype)) as [hits|] eqn:Hm.
    + destruct (hits + 1 <=? strconv.maxInt64); cbn.
      * rewrite lookup_insert_eq. cbn. repeat split; try lia.
        -- intros p Hp. now rewrite lookup_insert_ne.
        -- intros h [= <-]. exists (hits + 1). split; [reflexivity|lia].
      * rewrite Hm. cbn. repeat split; try lia; eauto.
        intros h [= <-]. exists hits. split; [reflexivity|lia].
    + cbn. rewrite lookup_insert_eq. cbn. repeat split; try lia.
      * intros p Hp. now rewrite lookup_insert_ne.
      * intros h Hh. discriminate.
  - cbn. destruct (dns_metrics w !! (domain, qtype)) as [hits|] eqn:Hm; cbn.
    + repeat split; try lia. intros h [= <-]. exists hits. split; [reflexivity|lia].
    + repeat split; try lia. intros h Hh. discriminate.
Qed.

(** The three ways [updateMetric] can end: after the two counter calls,
    after the lookup that follows them, or with a SET. *)
Lemma updateMetric_cases (domain qtype : string) (served : bool) (w : World) :
  let w1 := world_after (db.IncrementMetric domain qtype) w in
  let key := cache.CacheKey domain qtype in
  let counted := [PgIncrementMetric domain qtype; PgGetDomainHits domain qtype] in
  updateMetric domain qtype served w = (tt, w1, counted)
  \/ updateMetric domain qtype served w
     = (tt, w1, counted ++ [PgFetchRecords domain qtype])
  \/ (served = false
      /\ exists hits rows,
           dns_metrics w1 !! (domain, qtype) = Some hits
           /\ result_of minHits w <= hits
           /\ rows <> []
           /\ updateMetric domain qtype served w
              = (tt,
                 if redis_up w then set_rdb (insert key (JSON rows)) w1 else w1,
                 counted ++ [PgFetchRecords domain qtype;
                             RedisSet key (JSON rows) cache.time_Hour])).
Proof.
  intros w1 key counted. rewrite updateMetric_eq. fold w1 key counted.
  destruct (IncrementMetric_frame domain qtype w) as (_ & _ & _ & Hup & Henv).
  fold w1 in Hup, Henv.
  rewrite (minHits_environ w w1 Henv), Hup.
  rewrite GetDomainHits_result.
  destruct (pg_up w1); [|now left].
  destruct (dns_metrics w1 !! (domain, qtype)) as [hits|] eqn:Hm; [|now left].
  destruct (Z.ltb_spec hits (result_of minHits w)); [now left|].
  destruct served; [now left|]. cbn [orb].
  destruct (result_of (db.FetchRecords domain qtype) w1) as [[|row rows]|];
    [right; now left| |right; now left].
  right; right. split; [reflexivity|].
  exists hits, (row :: rows). repeat split; try assumption. discriminate.
Qed.

Lemma run_tasks_one (t : Task) (w : World) :
  run_tasks [t] w = (tt, world_after (run_task t) w, log_of (run_task t) w).
Proof.
  unfold world_after, log_of. cbn [run_tasks]. io_unfold.
  destruct (run_task t w) as [[[] w1] log1]. cbn. now rewrite app_nil_r.
Qed.

(** The three ways a query with a question can be served: from the cache,
    from the store, or with a failure code and no goroutine. *)
Lemma serve_cases (r : Msg) (q : Question_) (rest : list Question_) (w : World) :
  let domain := strings.TrimSuffix (QName q) "." in
  let qtype := TypeToString (Qtype q) in
  let key := cache.CacheKey domain qtype in
  Question r = q :: rest ->
  (exists recs,
     result_of (cache_lookup domain qtype) w = Some recs
     /\ serve r w
        = (tt, world_after (updateMetric domain qtype true) w,
           [RedisGet key; WriteMsg (reply_with r recs q);
            Go (GoServedFromCache domain qtype)]
           ++ log_of (updateMetric domain qtype true) w))
  \/ (exists rows,
        result_of (cache_lookup domain qtype) w = None
        /\ rows <> []
        /\ serve r w
           = (tt, world_after (updateMetric domain qtype false) w,
              [RedisGet key; PgFetchRecords domain qtype;
               WriteMsg (reply_with r rows q);
               Go (GoServedNotFromCache domain qtype)]
              ++ log_of (updateMetric domain qtype false) w))
  \/ (exists m,
        result_of (cache_lookup domain qtype) w = None
        /\ serve r w
           = (tt, w, [RedisGet key; PgFetchRecords domain qtype; WriteMsg m])).
Proof.
  intros domain qtype key Hq. unfold serve.
  rewrite HandleDNSRequest_eq, Hq. cbv zeta. fold domain qtype key.
  destruct (result_of (cache_lookup domain qtype) w) as [recs|].
  - left. exists recs. split; [reflexivity|].
    cbn [spawned]. now rewrite run_tasks_one.
  - destruct (result_of (db.FetchRecords domain qtype) w) as [[|row rows]|].
    + right; right. eexists. split; [reflexivity|]. reflexivity.
    + right; left. exists (row :: rows). split; [reflexivity|].
      split; [discriminate|]. cbn [spawned]. now rewrite run_tasks_one.
    + right; right. eexists. split; [reflexivity|]. reflexivity.
Qed.

Lemma serve_no_question (r : Msg) (w : World) :
  Question r = [] ->
  serve r w = (tt, w, [WriteMsg (dnslib.SetRcode r RcodeFormatError)]).
Proof.
  intros Hq. unfold serve. rewrite HandleDNSRequest_eq, Hq. reflexivity.
Qed.

End Steps.

Section Effects.

Context `{GoLib}.

(** The effect of serving one query that has a question: no goroutine and
    no change; a cache hit, which counts; an answer from the store, which
    counts; or an answer from the store that counts and issues a SET. *)
Lemma serve_effect (r : Msg) (q : Question_) (rest : list Question_)
    (w w' : World) (log : list Event) :
  let domain := strings.TrimSuffix (QName q) "." in
  let qtype := TypeToString (Qtype q) in
  let key := cache.CacheKey domain qtype in
  let w1 := world_after (db.IncrementMetric domain qtype) w in
  Question r = q :: rest ->
  serve r w = (tt, w', log) ->
  (result_of (cache_lookup domain qtype) w = None
   /\ w' = w
   /\ (forall d t, store_served d t log = false)
   /\ (forall k, cache_written k log = false))
  \/ ((exists recs, result_of (cache_lookup domain qtype) w = Some recs)
      /\ w' = w1
      /\ (forall d t, store_served d t log = false)
      /\ (forall k, cache_written k log = false))
  \/ (result_of (cache_lookup domain qtype) w = None
      /\ w' = w1
      /\ (forall d t, store_served d t log
                      = String.eqb domain d && String.eqb qtype t)
      /\ (forall k, cache_written k log = false))
  \/ (result_of (cache_lookup domain qtype) w = None
      /\ (exists hits rows,
            dns_metrics w1 !! (domain, qtype) = Some hits
            /\ result_of minHits w <= hits
            /\ w' = if redis_up w
                    then set_rdb (insert key (JSON rows)) w1
                    else w1)
      /\ (forall d t, store_served d t log
                      = String.eqb domain d && String.eqb qtype t)
      /\ (forall k, cache_written k log = String.eqb key k)).
Proof.
  intros domain qtype key w1 Hq Hs.
  destruct (serve_cases r q rest w Hq)
    as [(recs & Hc & Hs')|[(rows & Hc & Hne & Hs')|(m & Hc & Hs')]];
    fold domain qtype key in Hc, Hs'; rewrite Hs' in Hs; clear Hs'.
  - right; left. split; [eauto|].
    destruct (updateMetric_cases domain qtype true w)
      as [Hu|[Hu|(Hf & _)]]; [| |discriminate];
      unfold world_after at 1, log_of in Hs; rewrite Hu in Hs;
      cbn [fst snd] in Hs; injection Hs as <- <-; cbn; auto.
  - destruct (updateMetric_cases domain qtype false w)
      as [Hu|[Hu|(_ & hits & rows' & Hm & Hmin & _ & Hu)]];
      unfold world_after at 1, log_of in Hs; rewrite Hu in Hs;
      cbn [fst snd] in Hs; injection Hs as <- <-.
    + right; right; left. repeat split; try assumption.
      intros d t. cbn. now rewrite !orb_false_r.
    + right; right; left. repeat split; try assumption.
      intros d t. cbn. now rewrite !orb_false_r.
    + right; right; right. split; [assumption|]. split; [eauto|]. split.
      * intros d t. cbn. now rewrite !orb_false_r.
      * intros k. cbn. now rewrite !orb_false_r.
  - left. injection Hs as <- <-. cbn. auto.
Qed.

End Effects.

Section Changing.

Context `{GoLib}.

Lemma set_backends_same (w : World) :
  set_backends (pg_up w) (redis_up w) w = w.
Proof. now destruct w. Qed.

Lemma HandleDNSRequest_world (r : Msg) (w : World) :
  world_after (HandleDNSRequest r) w = w.
Proof.
  unfold world_after. rewrite HandleDNSRequest_eq.
  destruct (Question r) as [|q rest]; [reflexivity|]. cbv zeta.
  destruct (result_of (cache_lookup _ _) w); [reflexivity|].
  destruct (result_of (db.FetchRecords _ _) w) as [[|row rows]|]; reflexivity.
Qed.

(** A query served while nothing changes is a query served while the
    backends change to what they are. *)
Lemma serve_as_changing (r : Msg) (w : World) :
  serve r w = serve_changing r (pg_up w) (redis_up w) w.
Proof.
  unfold serve, serve_changing.
  pose proof (HandleDNSRequest_world r w) as Hw. unfold world_after in Hw.
  destruct (HandleDNSRequest r w) as [[u w1] log1]. cbn in Hw. subst w1.
  now rewrite set_backends_same.
Qed.

Lemma serve_changing_no_question (r : Msg) (pg redis : bool) (w : World) :
  Question r = [] ->
  serve_changing r pg redis w
  = (tt, set_backends pg redis w,
     [WriteMsg (dnslib.SetRcode r RcodeFormatError)]).
Proof.
  intros Hq. unfold serve_changing. rewrite HandleDNSRequest_eq, Hq. reflexivity.
Qed.

(** The effect of serving one query that has a question while the
    backends change: the handler runs in [w], its goroutine in [w] with
    the backends changed. *)
Lemma serve_changing_effect (r : Msg) (q : Question_) (rest : list Question_)
    (pg redis : bool) (w w' : World) (log : list Event) :
  let domain := strings.TrimSuffix (QName q) "." in
  let qtype := TypeToString (Qtype q) in
  let key := cache.CacheKey domain qtype in
  let wb := set_backends pg redis w in
  let w1 := world_after (db.IncrementMetric domain qtype) wb in
  Question r = q :: rest ->
  serve_changing r pg redis w = (tt, w', log) ->
  (result_of (cache_lookup domain qtype) w = None
   /\ w' = wb
   /\ (forall d t, store_served d t log = false)
   /\ (forall k, cache_written k log = false))
  \/ ((exists recs, result_of (cache_lookup domain qtype) w = Some recs)
      /\ w' = w1
      /\ (forall d t, store_served d t log = false)
      /\ (forall k, cache_written k log = false))
  \/ (result_of (cache_lookup domain qtype) w = None
      /\ w' = w1
      /\ (forall d t, store_served d t log
                      = String.eqb domain d && String.eqb qtype t)
      /\ (forall k, cache_written k log = false))
  \/ (result_of (cache_lookup domain qtype) w = None
      /\ (exists hits rows,
            dns_metrics w1 !! (domain, qtype) = Some hits
            /\ result_of minHits w <= hits
            /\ w' = if redis
                    then set_rdb (insert key (JSON rows)) w1
                    else w1)
      /\ (forall d t, store_served d t log
                      = String.eqb domain d && String.eqb qtype t)
      /\ (forall k, cache_written k log = String.eqb key k)).
Proof.
  intros domain qtype key wb w1 Hq Hs. unfold serve_changing in Hs.
  rewrite HandleDNSRequest_eq, Hq in Hs. cbv zeta in Hs.
  fold domain qtype key wb in Hs.
  assert (Hmin : result_of minHits wb = result_of minHits w)
    by (now apply minHits_environ).
  destruct (result_of (cache_lookup domain qtype) w) as [recs|] eqn:Hc.
  - cbn [spawned] in Hs. rewrite run_tasks_one in Hs.
    cbn [run_task] in Hs. unfold updateMetricServedFromCache in Hs.
    change (set_backends pg redis w) with wb in Hs.
    right; left. split; [eauto|].
    destruct (updateMetric_cases domain qtype true wb)
      as [Hu|[Hu|(Hf & _)]]; [| |discriminate];
      unfold world_after at 1, log_of in Hs; rewrite Hu in Hs;
      cbn [fst snd] in Hs; injection Hs as <- <-; cbn; auto.
  - destruct (result_of (db.FetchRecords domain qtype) w) as [[|row rows]|].
    + left. cbn in Hs. injection Hs as <- <-. cbn. auto.
    + cbn [spawned] in Hs. rewrite run_tasks_one in Hs.
      cbn [run_task] in Hs. unfold updateMetricServedNotFromCache in Hs.
      change (set_backends pg redis w) with wb in Hs.
      destruct (updateMetric_cases domain qtype false wb)
        as [Hu|[Hu|(_ & hits & rows' & Hm & Hmin' & _ & Hu)]];
        unfold world_after at 1, log_of in Hs; rewrite Hu in Hs;
        cbn [fst snd] in Hs; injection Hs as <- <-.
      * right; right; left. repeat split.
        intros d t. cbn. now rewrite !orb_false_r.
      * right; right; left. repeat split.
        intros d t. cbn. now rewrite !orb_false_r.
      * right; right; right. split; [reflexivity|].
        rewrite Hmin in Hmin'. split; [eauto|]. split.
        -- intros d t. cbn. now rewrite !orb_false_r.
        -- intros k. cbn. now rewrite !orb_false_r.
    + left. cbn in Hs. injection Hs as <- <-. cbn. auto.
Qed.

End Changing.

Section Runs.

Context `{GoLib}.

Lemma asked_question (r : Msg) (domain qtype : string) :
  asked r = Some (domain, qtype) ->
  exists q rest,
    Question r = q :: rest
    /\ strings.TrimSuffix (QName q) "." = domain
    /\ TypeToString (Qtype q) = qtype.
Proof.
  unfold asked. destruct (Question r) as [|q rest]; [discriminate|].
  intros [= <- <-]. now exists q, rest.
Qed.

(** No step touches the records or the environment, and no counter ever
    decreases. *)
Lemma step_frame (s : Step) (w w' : World) (log : list Event) :
  step s w = (tt, w', log) ->
  dns_records w' = dns_records w /\ environ w' = environ w
  /\ (forall p h, dns_metrics w !! p = Some h ->
        exists h', dns_metrics w' !! p = Some h' /\ h <= h').
Proof.
  assert (Hsame : forall pg redis,
            let v := set_backends pg redis w in
            dns_records v = dns_records w /\ environ v = environ w
            /\ (forall p h, dns_metrics w !! p = Some h ->
                  exists h', dns_metrics v !! p = Some h' /\ h <= h')).
  { intros pg redis. cbn. repeat split. intros p h Hp.
    exists h. split; [exact Hp|lia]. }
  assert (Hinc : forall pg redis d t,
            let w1 := world_after (db.IncrementMetric d t)
                                  (set_backends pg redis w) in
            dns_records w1 = dns_records w /\ environ w1 = environ w
            /\ (forall p h, dns_metrics w !! p = Some h ->
                  exists h', dns_metrics w1 !! p = Some h' /\ h <= h')).
  { intros pg redis d t. cbv zeta.
    destruct (IncrementMetric_frame d t (set_backends pg redis w))
      as (Hr & _ & _ & _ & He).
    destruct (IncrementMetric_metrics d t (set_backends pg redis w))
      as (Hother & _ & Hmono).
    repeat split; try assumption.
    intros p h Hp'. destruct (decide (p = (d, t))) as [->|Hne].
    - now apply Hmono.
    - exists h. split; [|lia]. now rewrite (Hother p Hne). }
  assert (Hserve : forall r pg redis,
            serve_changing r pg redis w = (tt, w', log) ->
            dns_records w' = dns_records w /\ environ w' = environ w
            /\ (forall p h, dns_metrics w !! p = Some h ->
                  exists h', dns_metrics w' !! p = Some h' /\ h <= h')).
  { intros r pg redis. destruct (Question r) as [|q rest] eqn:Hq.
    - rewrite (serve_changing_no_question r pg redis w Hq).
      intros [= <- <-]. apply Hsame.
    - intros Hs.
      destruct (serve_changing_effect r q rest pg redis w w' log Hq Hs)
        as [(_ & -> & _)|[(_ & -> & _)|[(_ & -> & _)
           |(_ & (hits & rows & _ & _ & ->) & _)]]].
      + apply Hsame.
      + apply Hinc.
      + apply Hinc.
      + destruct redis; apply Hinc. }
  destruct s as [r|key|pg redis|r pg redis]; cbn [step].
  - rewrite serve_as_changing. apply Hserve.
  - unfold update. intros [= <- <-]. cbn. repeat split.
    intros p h Hp. exists h. split; [exact Hp|lia].
  - unfold update. intros [= <- <-]. apply Hsame.
  - apply Hserve.
Qed.

Lemma run_cons (s : Step) (steps : list Step) (w : World) :
  run (s :: steps) w
  = ((run steps (world_after (step s) w)).1,
     log_of (step s) w :: (run steps (world_after (step s) w)).2).
Proof.
  unfold world_after, log_of. cbn [run].
  destruct (step s w) as [[[] w1] log]. cbn.
  now destruct (run steps w1).
Qed.

Lemma step_eta (s : Step) (w : World) :
  step s w = (tt, world_after (step s) w, log_of (step s) w).
Proof.
  unfold world_after, log_of. now destruct (step s w) as [[[] w1] log].
Qed.

Lemma run_frame (steps : list Step) (w : World) :
  environ (run steps w).1 = environ w
  /\ (forall p h, dns_metrics w !! p = Some h ->
        exists h', dns_metrics (run steps w).1 !! p = Some h' /\ h <= h').
Proof.
  revert w. induction steps as [|s steps IH]; intros w.
  - cbn. repeat split. intros p h Hp. exists h. split; [exact Hp|lia].
  - rewrite run_cons. cbn [fst].
    destruct (step_frame s w _ _ (step_eta s w)) as (_ & He & Hm).
    destruct (IH (world_after (step s) w)) as (He' & Hm').
    split; [congruence|].
    intros p h Hp. destruct (Hm p h Hp) as (h1 & Hp1 & Hle1).
    destruct (Hm' p h1 Hp1) as (h2 & Hp2 & Hle2).
    exists h2. split; [exact Hp2|lia].
Qed.

Lemma run_app (before after : list Step) (w : World) :
  run (before ++ after) w
  = ((run after (run before w).1).1,
     (run before w).2 ++ (run after (run before w).1).2).
Proof.
  revert w. induction before as [|s before IH]; intros w.
  - cbn. now destruct (run after w).
  - cbn [app]. rewrite !run_cons, IH. reflexivity.
Qed.

End Runs.

Section PromotionClaims.

Context `{GoLib}.

(** C5.  A run of [updateMetric] that reads back a counter below the
    threshold makes the two counter calls and nothing else: Redis is as it
    was.  Hence, over any sequence of queries for one pair served one after
    the other, if the pair's counter ends below the threshold (or was never
    created) then no step issued a SET and Redis is as it was. *)
Theorem below_threshold_no_cache_write :
  (forall (domain qtype : string) (served : bool) (w : World) (hits : Z),
      result_of (db.GetDomainHits domain qtype)
                (world_after (db.IncrementMetric domain qtype) w) = Ok hits ->
      hits < result_of minHits w ->
      log_of (updateMetric domain qtype served) w
      = [PgIncrementMetric domain qtype; PgGetDomainHits domain qtype]
      /\ rdb (world_after (updateMetric domain qtype served) w) = rdb w)
  /\ (forall (domain qtype : string) (steps : list Step) (w : World),
        Forall (fun s => exists r, s = Query r /\ asked r = Some (domain, qtype))
               steps ->
        (forall h, dns_metrics (run steps w).1 !! (domain, qtype) = Some h ->
                   h < result_of minHits w) ->
        rdb (run steps w).1 = rdb w
        /\ Forall (fun log => forall k, cache_written k log = false)
                  (run steps w).2).
Proof.
  split.
  - intros domain qtype served w hits Hhits Hlt.
    unfold log_of, world_after at 1. rewrite updateMetric_eq. cbv zeta.
    rewrite Hhits.
    destruct (IncrementMetric_frame domain qtype w) as (_ & Hrdb & _ & _ & Henv).
    rewrite (minHits_environ _ _ Henv).
    destruct (Z.ltb_spec hits (result_of minHits w)); [|lia]. cbn.
    split; [reflexivity|exact Hrdb].
  - intros domain qtype steps. induction steps as [|s steps IH]; intros w Hall Hend.
    + cbn. split; [reflexivity|constructor].
    + inversion Hall as [|s' steps' (r & -> & Hasked) Hall']; subst.
      destruct (asked_question r domain qtype Hasked) as (q & rest & Hq & Hd & Ht).
      rewrite run_cons in Hend |- *. cbn [fst snd] in Hend |- *.
      pose proof (step_eta (Query r) w) as Hstep.
      destruct (step_frame _ _ _ _ Hstep) as (_ & Henv & _).
      pose proof (minHits_environ _ _ Henv) as Hmin.
      set (w' := world_after (step (Query r)) w) in *.
      set (log := log_of (step (Query r)) w) in *.
      cbn [step] in Hstep.
      assert (Hquiet : rdb w' = rdb w /\ forall k, cache_written k log = false).
      { destruct (serve_effect r q rest w w' log Hq Hstep)
          as [(_ & -> & _ & Hw)|[(_ & -> & _ & Hw)|[(_ & -> & _ & Hw)
             |(_ & (hits & rows & Hm & Hle & Hw') & _)]]].
        - now split.
        - split; [|exact Hw]. apply IncrementMetric_frame.
        - split; [|exact Hw]. apply IncrementMetric_frame.
        - exfalso.
          assert (Hm' : dns_metrics w' !! (domain, qtype) = Some hits).
          { rewrite Hw', <- Hd, <- Ht. destruct (redis_up w); exact Hm. }
          destruct (run_frame steps w') as (_ & Hmono).
          destruct (Hmono _ _ Hm') as (h' & Hh' & Hge).
          specialize (Hend h' Hh'). lia. }
      destruct Hquiet as [Hrdb Hlog].
      destruct (IH w' Hall') as [Hrdb' Hlogs'].
      { intros h Hh. rewrite Hmin. now apply Hend. }
      split; [congruence|]. constructor; assumption.
Qed.

End PromotionClaims.

Section Promotion.

Context `{GoLib}.

Variables (domain qtype : string) (min : Z).

(** A lookup that Redis answered and that found nothing usable found the
    key absent. *)
Lemma miss_key_absent (w : World) (n : Z) :
  promotion_inv domain qtype min w n ->
  result_of (cache_lookup domain qtype) w = None ->
  redis_up w = true ->
  rdb w !! (cache.CacheKey domain qtype) = None.
Proof.
  intros [[Hnone|(rows & Hrows)] _] Hmiss Hup; [exact Hnone|].
  rewrite cache_lookup_result, Hup in Hmiss.
  rewrite Hrows in Hmiss. discriminate.
Qed.

Lemma hit_key_present (w : World) (recs : list Record_) :
  result_of (cache_lookup domain qtype) w = Some recs ->
  rdb w !! (cache.CacheKey domain qtype) <> None.
Proof.
  rewrite cache_lookup_result.
  destruct (redis_up w); [|discriminate].
  destruct (rdb w !! (cache.CacheKey domain qtype)); [discriminate|]. cbn. discriminate.
Qed.

(** Serving one query keeps the invariant, adding one to the count when
    the query was answered from the store for the pair; and a query whose
    goroutine issues a SET for the key of the pair is such a query, its
    lookup found nothing usable, and it leaves a counter that has reached
    the threshold. *)
Lemma serve_promotion (r : Msg) (pg redis : bool) (w w' : World)
    (log : list Event) (n : Z) :
  result_of minHits w = min ->
  promotion_inv domain qtype min w n ->
  (forall d t, asked r = Some (d, t) ->
               cache.CacheKey d t = cache.CacheKey domain qtype ->
               (d, t) = (domain, qtype)) ->
  serve_changing r pg redis w = (tt, w', log) ->
  promotion_inv domain qtype min w'
    (n + if store_served domain qtype log then 1 else 0)
  /\ (cache_written (cache.CacheKey domain qtype) log = true ->
        asked r = Some (domain, qtype)
        /\ store_served domain qtype log = true
        /\ result_of (cache_lookup domain qtype) w = None
        /\ (exists hits, dns_metrics w' !! (domain, qtype) = Some hits
                         /\ min <= hits)
        /\ min <= n + 1).
Proof.
  intros Hmin Hinv Halias Hstep.
  assert (Hinvb : promotion_inv domain qtype min (set_backends pg redis w) n)
    by exact Hinv.
  destruct (Question r) as [|q rest] eqn:Hq.
  { rewrite (serve_changing_no_question r pg redis w Hq) in Hstep.
    injection Hstep as <- <-.
    cbn. rewrite Z.add_0_r. split; [exact Hinvb|discriminate]. }
  assert (Hasked : asked r = Some (strings.TrimSuffix (QName q) ".",
                                   TypeToString (Qtype q)))
    by (unfold asked; now rewrite Hq).
  set (d := strings.TrimSuffix (QName q) ".") in *.
  set (t := TypeToString (Qtype q)) in *.
  pose proof (serve_changing_effect r q rest pg redis w w' log Hq Hstep) as Heff.
  cbv zeta in Heff. fold d t in Heff.
  set (wb := set_backends pg redis w) in *.
  destruct (IncrementMetric_frame d t wb) as (_ & Hrdb1 & _ & _ & _).
  destruct (IncrementMetric_metrics d t wb) as (Hother1 & Hhits1 & _).
  set (w1 := world_after (db.IncrementMetric d t) wb) in *.
  assert (Hrdbb : rdb wb = rdb w) by reflexivity.
  assert (Hhitsb : forall d' t', hits_of wb d' t' = hits_of w d' t')
    by reflexivity.
  destruct (decide (cache.CacheKey d t = (cache.CacheKey domain qtype))) as [Hkey|Hkey].
  - (* the pair itself *)
    pose proof (Halias d t Hasked Hkey) as Hpair.
    injection Hpair as Hd Ht. clearbody d t. subst d t.
    rewrite Hhitsb in Hhits1.
    destruct Heff as [(Hc & -> & Hs & Hw)|[((recs & Hc) & -> & Hs & Hw)
                     |[(Hc & -> & Hs & Hw)
                     |(Hc & (hits & rows & Hm & Hle & ->) & Hs & Hw)]]].
    + rewrite Hs, Hw, Z.add_0_r. split; [exact Hinvb|discriminate].
    + rewrite Hs, Hw, Z.add_0_r. split; [|discriminate].
      pose proof (hit_key_present w recs Hc) as Hpresent.
      destruct Hinv as [H1 H2]. unfold promotion_inv.
      rewrite Hrdb1, Hrdbb. split; [exact H1|].
      destruct H2 as [H2|[H2 _]]; [now left|contradiction].
    + rewrite Hs, Hw, !String.eqb_refl. cbn [andb]. split; [|discriminate].
      destruct Hinv as [H1 H2]. unfold promotion_inv.
      rewrite Hrdb1, Hrdbb. split; [exact H1|].
      destruct H2 as [H2|[Habsent H2]]; [left; lia|right].
      split; [exact Habsent|lia].
    + rewrite Hs, Hw, !String.eqb_refl. cbn [andb].
      assert (Hhits : hits_of w1 domain qtype = hits)
        by (unfold hits_of; now rewrite Hm).
      assert (Hn : min <= n + 1).
      { destruct Hinv as [_ [H2|[_ H2]]]; lia. }
      split.
      * unfold promotion_inv. split; [|now left].
        destruct redis.
        -- right. cbn. rewrite lookup_insert_eq. eauto.
        -- rewrite Hrdb1, Hrdbb. exact (proj1 Hinv).
      * intros _. split; [exact Hasked|]. split; [reflexivity|].
        split; [exact Hc|]. split; [|exact Hn].
        exists hits. split; [|lia]. now destruct redis.
  - (* another key, hence another pair *)
    assert (Hpair : (domain, qtype) <> (d, t)).
    { intros [= -> ->]. now apply Hkey. }
    assert (Hserved : String.eqb d domain && String.eqb t qtype = false).
    { destruct (String.eqb_spec d domain) as [->|]; [|reflexivity].
      destruct (String.eqb_spec t qtype) as [->|]; [|reflexivity].
      now contradiction Hpair. }
    assert (Hwritten : String.eqb (cache.CacheKey d t) (cache.CacheKey domain qtype) = false)
      by now apply String.eqb_neq.
    assert (Hinv1 : promotion_inv domain qtype min w1 n).
    { destruct Hinv as [H1 H2]. unfold promotion_inv, hits_of.
      rewrite Hrdb1, Hrdbb, (Hother1 _ Hpair). now split. }
    destruct Heff as [(Hc & -> & Hs & Hw)|[((recs & Hc) & -> & Hs & Hw)
                     |[(Hc & -> & Hs & Hw)
                     |(Hc & (hits & rows & Hm & Hle & ->) & Hs & Hw)]]];
      rewrite Hs, Hw, ?Hserved, ?Hwritten, Z.add_0_r;
      (split; [|discriminate]); try assumption.
    destruct redis; [|exact Hinv1].
    destruct Hinv1 as [H1 H2]. unfold promotion_inv, hits_of in *.
    cbn. now rewrite (lookup_insert_ne (rdb w1) _ (cache.CacheKey domain qtype) _ Hkey).
Qed.

(** The same of any step of a run. *)
Lemma step_promotion (s : Step) (w w' : World) (log : list Event) (n : Z) :
  result_of minHits w = min ->
  promotion_inv domain qtype min w n ->
  (forall r d t, query_of s = Some r -> asked r = Some (d, t) ->
                 cache.CacheKey d t = (cache.CacheKey domain qtype) -> (d, t) = (domain, qtype)) ->
  step s w = (tt, w', log) ->
  promotion_inv domain qtype min w'
    (n + if store_served domain qtype log then 1 else 0)
  /\ (cache_written (cache.CacheKey domain qtype) log = true ->
        (exists r, query_of s = Some r /\ asked r = Some (domain, qtype))
        /\ store_served domain qtype log = true
        /\ result_of (cache_lookup domain qtype) w = None
        /\ (exists hits, dns_metrics w' !! (domain, qtype) = Some hits
                         /\ min <= hits)
        /\ min <= n + 1).
Proof.
  intros Hmin Hinv Halias Hstep.
  destruct s as [r|k|pg redis|r pg redis]; cbn [step] in Hstep.
  - rewrite serve_as_changing in Hstep.
    destruct (serve_promotion r _ _ w w' log n Hmin Hinv
                (fun d t => Halias r d t eq_refl) Hstep)
      as [Hinv' Hset].
    split; [exact Hinv'|]. intros Hw.
    destruct (Hset Hw) as (Ha & Hrest). split; [now exists r|exact Hrest].
  - (* Expire *)
    unfold update in Hstep. injection Hstep as <- <-. cbn.
    split; [|discriminate]. rewrite Z.add_0_r.
    destruct Hinv as [H1 H2]. unfold promotion_inv. cbn.
    destruct (decide (k = (cache.CacheKey domain qtype))) as [->|Hne].
    + rewrite lookup_delete_eq. split; [now left|].
      destruct H2 as [H2|[_ H2]]; [now left|right; now split].
    + rewrite (lookup_delete_ne (rdb w) k (cache.CacheKey domain qtype) Hne). split; [exact H1|exact H2].
  - (* Backends *)
    unfold update in Hstep. injection Hstep as <- <-. cbn.
    split; [|discriminate]. rewrite Z.add_0_r. exact Hinv.
  - destruct (serve_promotion r _ _ w w' log n Hmin Hinv
                (fun d t => Halias r d t eq_refl) Hstep)
      as [Hinv' Hset].
    split; [exact Hinv'|]. intros Hw.
    destruct (Hset Hw) as (Ha & Hrest). split; [now exists r|exact Hrest].
Qed.

End Promotion.

Section PromotionRuns.

Context `{GoLib}.

Lemma count_store_served_cons (domain qtype : string) (log : list Event)
    (logs : list (list Event)) :
  count_store_served domain qtype (log :: logs)
  = (if store_served domain qtype log then 1 else 0)
    + count_store_served domain qtype logs.
Proof.
  unfold count_store_served. cbn [List.filter].
  destruct (store_served domain qtype log); cbn [length]; lia.
Qed.

Lemma count_store_served_app (domain qtype : string) (logs logs' : list (list Event)) :
  count_store_served domain qtype (logs ++ logs')
  = count_store_served domain qtype logs + count_store_served domain qtype logs'.
Proof.
  induction logs as [|log logs IH]; [reflexivity|].
  cbn [app]. rewrite !count_store_served_cons, IH. lia.
Qed.

Lemma run_promotion (domain qtype : string) (min : Z) (steps : list Step)
    (w : World) (n : Z) :
  result_of minHits w = min ->
  promotion_inv domain qtype min w n ->
  (forall s r d t, In s steps -> query_of s = Some r -> asked r = Some (d, t) ->
                   cache.CacheKey d t = cache.CacheKey domain qtype ->
                   (d, t) = (domain, qtype)) ->
  result_of minHits (run steps w).1 = min
  /\ promotion_inv domain qtype min (run steps w).1
       (n + count_store_served domain qtype (run steps w).2).
Proof.
  revert w n. induction steps as [|s steps IH]; intros w n Hmin Hinv Halias.
  - cbn. rewrite Z.add_0_r. now split.
  - rewrite run_cons. cbn [fst snd]. rewrite count_store_served_cons.
    pose proof (step_eta s w) as Hstep.
    destruct (step_frame _ _ _ _ Hstep) as (_ & Henv & _).
    assert (Hs : forall r d t, query_of s = Some r -> asked r = Some (d, t) ->
                   cache.CacheKey d t = cache.CacheKey domain qtype ->
                   (d, t) = (domain, qtype)).
    { intros r d t Hr Ha Hk. apply (Halias s r d t); [now left|assumption..]. }
    destruct (step_promotion domain qtype min s w _ _ n Hmin Hinv Hs Hstep)
      as [Hinv' _].
    rewrite Z.add_assoc. apply IH.
    + rewrite <- Hmin. now apply minHits_environ.
    + exact Hinv'.
    + intros s' r d t Hin. apply Halias. now right.
Qed.

(** C2, as the code has it.  Queries are served one after the other, each
    goroutine finishing before the next query; in between keys may expire
    and Postgres and Redis may start or stop answering, also between a
    response and its goroutine.  Take a pair whose key is absent from
    Redis and that has no counter at the start, and suppose no query of
    the run is for another pair with the same key.  Then a step that
    issues a SET for the key serves a query for the pair and answers it
    from the store; its lookup in the cache found nothing usable, and if
    Redis answered that lookup the key was absent when the step began (so
    a step that begins with the key present and has its lookup answered
    issues no SET for it); the counter the step leaves has reached the
    threshold; and at least threshold many resolutions of the pair, this
    one included, were answered from the store. *)
Theorem promotion_only_after_threshold
    (domain qtype : string) (w0 : World) (before : list Step) (s : Step) :
  let key := cache.CacheKey domain qtype in
  let w := (run before w0).1 in
  let log := log_of (step s) w in
  rdb w0 !! key = None ->
  dns_metrics w0 !! (domain, qtype) = None ->
  (forall s' r d t, In s' (before ++ [s]) -> query_of s' = Some r ->
                    asked r = Some (d, t) ->
                    cache.CacheKey d t = key -> (d, t) = (domain, qtype)) ->
  cache_written key log = true ->
  (exists r, query_of s = Some r /\ asked r = Some (domain, qtype))
  /\ store_served domain qtype log = true
  /\ result_of (cache_lookup domain qtype) w = None
  /\ (redis_up w = true -> rdb w !! key = None)
  /\ (exists hits,
        dns_metrics (world_after (step s) w) !! (domain, qtype) = Some hits
        /\ result_of minHits w0 <= hits)
  /\ result_of minHits w0
     <= count_store_served domain qtype ((run before w0).2 ++ [log]).
Proof.
  intros key w log Hkey Hctr Halias Hwritten.
  assert (Hinv0 : promotion_inv domain qtype (result_of minHits w0) w0 0).
  { split; [now left|right]. split; [exact Hkey|].
    unfold hits_of. rewrite Hctr. cbn. lia. }
  destruct (run_promotion domain qtype _ before w0 0 eq_refl Hinv0)
    as [Hmin Hinv].
  { intros s' r d t Hin. apply Halias, in_or_app. now left. }
  fold w in Hmin, Hinv. rewrite Z.add_0_l in Hinv.
  assert (Hs : forall r d t, query_of s = Some r -> asked r = Some (d, t) ->
                 cache.CacheKey d t = key -> (d, t) = (domain, qtype)).
  { intros r d t Hr Ha Hk. apply (Halias s r d t); [|assumption..].
    apply in_or_app. right. now left. }
  destruct (step_promotion domain qtype _ s w _ _ _ Hmin Hinv Hs (step_eta s w))
    as [_ Hset].
  destruct (Hset Hwritten) as (Hq & Hserved & Hmiss & Hhits & Hn).
  split; [exact Hq|]. split; [exact Hserved|]. split; [exact Hmiss|].
  split; [now apply (miss_key_absent domain qtype _ w _ Hinv Hmiss)|].
  split; [exact Hhits|].
  rewrite count_store_served_app, count_store_served_cons. subst log.
  rewrite Hserved. unfold count_store_served at 2. cbn. lia.
Qed.

End PromotionRuns.

(** ** The record upsert *)

Section Upsert.

Lemma conflicts_triple (r x : Record_) :
  db.conflicts r x = true <-> triple x = triple r.
Proof.
  unfold db.conflicts, triple. rewrite !andb_true_iff, !String.eqb_eq.
  split; [intros [[-> ->] ->]; reflexivity|intros [= -> -> ->]; auto].
Qed.

Lemma conflicts_set_ttl (r x : Record_) :
  db.conflicts r x = true -> db.set_ttl (TTL r) x = r.
Proof.
  intros Hc. apply conflicts_triple in Hc. unfold triple in Hc.
  injection Hc as Hd Ht Hv. destruct r, x; cbn in *. now subst.
Qed.

Lemma AddRecord_eq (r : Record_) (w : World) :
  db.AddRecord r w
  = if pg_up w && db.int4 (TTL r) then
      (false,
       set_dns_records
         (fun rows =>
            if existsb (db.conflicts r) rows
            then map (fun x => if db.conflicts r x then db.set_ttl (TTL r) x else x) rows
            else rows ++ [r]) w,
       [PgAddRecord r])
    else (true, w, [PgAddRecord r]).
Proof.
  unfold db.AddRecord. io_unfold. cbv beta iota.
  destruct (pg_up w && db.int4 (TTL r)); [|reflexivity].
  destruct (existsb (db.conflicts r) (dns_records w)) eqn:He; cbn; unfold set_dns_records;
    cbn; now rewrite He.
Qed.

Lemma update_others (r : Record_) (rows : list Record_) :
  (forall y, In y rows -> db.conflicts r y = false) ->
  List.filter (db.conflicts r)
    (map (fun x => if db.conflicts r x then db.set_ttl (TTL r) x else x) rows)
  = [].
Proof.
  induction rows as [|y rows IH]; intros Hnone; [reflexivity|].
  cbn [map List.filter].
  rewrite (Hnone y (or_introl eq_refl)), (Hnone y (or_introl eq_refl)).
  apply IH. intros z Hz. apply Hnone. now right.
Qed.

(** The rows after an update in place: the same triples in the same order,
    the one row of the triple now equal to the record written. *)
Lemma update_in_place (r : Record_) (rows : list Record_) :
  let f := fun x => if db.conflicts r x then db.set_ttl (TTL r) x else x in
  map triple (map f rows) = map triple rows
  /\ List.filter (fun x => negb (db.conflicts r x)) (map f rows)
     = List.filter (fun x => negb (db.conflicts r x)) rows
  /\ (unique_rows rows -> existsb (db.conflicts r) rows = true ->
      List.filter (db.conflicts r) (map f rows) = [r]).
Proof.
  cbv zeta.
  assert (Hr : db.conflicts r r = true) by now apply conflicts_triple.
  induction rows as [|x rows (IH1 & IH2 & IH3)]; [repeat split; discriminate|].
  cbn [map List.filter existsb].
  destruct (db.conflicts r x) eqn:Hx.
  - rewrite (conflicts_set_ttl r x Hx), Hr. cbn [negb]. split; [|split].
    + f_equal; [|exact IH1]. symmetry. now apply conflicts_triple.
    + exact IH2.
    + intros Hu _. f_equal. apply update_others.
      intros y Hy. destruct (db.conflicts r y) eqn:Hcy; [|reflexivity].
      apply conflicts_triple in Hx, Hcy. unfold unique_rows in Hu.
      cbn [map] in Hu. apply NoDup_cons in Hu as [Hu _]. exfalso. apply Hu.
      rewrite Hx, <- Hcy. apply list_elem_of_In, in_map, Hy.
  - rewrite Hx. cbn [negb orb]. split; [|split].
    + now f_equal.
    + now f_equal.
    + intros Hu He. apply IH3; [|exact He].
      unfold unique_rows in *. cbn [map] in Hu. now apply NoDup_cons in Hu.
Qed.

Lemma AddRecord_unique (r : Record_) (w : World) :
  unique_rows (dns_records w) ->
  unique_rows (dns_records (world_after (db.AddRecord r) w))
  /\ pg_up (world_after (db.AddRecord r) w) = pg_up w.
Proof.
  intros Hu. unfold world_after. rewrite AddRecord_eq.
  destruct (pg_up w && db.int4 (TTL r)); [|now split]. cbn. split; [|reflexivity].
  destruct (existsb (db.conflicts r) (dns_records w)) eqn:He.
  - unfold unique_rows. now rewrite (proj1 (update_in_place r (dns_records w))).
  - unfold unique_rows. rewrite map_app. cbn [map].
    apply NoDup_app. split; [exact Hu|]. split; [|apply NoDup_singleton].
    intros k Hk ->%list_elem_of_singleton.
    apply list_elem_of_In, in_map_iff in Hk as (x & Hx & Hin).
    apply conflicts_triple in Hx.
    assert (Ht : existsb (db.conflicts r) (dns_records w) = true)
      by (apply existsb_exists; eauto).
    congruence.
Qed.

Lemma AddRecords_unique (rs : list Record_) (w : World) :
  unique_rows (dns_records w) ->
  unique_rows (dns_records (world_after (AddRecords rs) w))
  /\ pg_up (world_after (AddRecords rs) w) = pg_up w.
Proof.
  revert w. induction rs as [|r rs IH]; intros w Hu; [now split|].
  destruct (AddRecord_unique r w Hu) as [Hu1 Hp1].
  destruct (IH _ Hu1) as [Hu2 Hp2].
  unfold world_after in *. cbn [AddRecords]. unfold mbind, IO_bind.
  destruct (db.AddRecord r w) as [[e w1] log1]. cbn [fst snd] in *.
  destruct (AddRecords rs w1) as [[[] w2] log2]. cbn [fst snd] in *.
  split; [exact Hu2|congruence].
Qed.

Lemma AddRecords_app (rs rs' : list Record_) (w : World) :
  world_after (AddRecords (rs ++ rs')) w
  = world_after (AddRecords rs') (world_after (AddRecords rs) w).
Proof.
  revert w. induction rs as [|r rs IH]; intros w; [reflexivity|].
  unfold world_after in *. cbn [app AddRecords]. unfold mbind, IO_bind.
  destruct (db.AddRecord r w) as [[e w1] log1]. cbn [fst snd].
  specialize (IH w1).
  destruct (AddRecords (rs ++ rs') w1) as [[[] w2] log2].
  destruct (AddRecords rs w1) as [[[] w3] log3]. cbn [fst snd] in *.
  exact IH.
Qed.

Lemma AddRecord_once (r : Record_) (w : World) :
  pg_up w = true -> db.int4 (TTL r) = true ->
  unique_rows (dns_records w) ->
  let w' := world_after (db.AddRecord r) w in
  result_of (db.AddRecord r) w = false
  /\ unique_rows (dns_records w')
  /\ List.filter (db.conflicts r) (dns_records w') = [r]
  /\ List.filter (fun x => negb (db.conflicts r x)) (dns_records w')
     = List.filter (fun x => negb (db.conflicts r x)) (dns_records w)
  /\ (existsb (db.conflicts r) (dns_records w) = true ->
      length (dns_records w') = length (dns_records w)).
Proof.
  intros Hpg Httl Hu w'.
  split; [unfold result_of; now rewrite AddRecord_eq, Hpg, Httl|].
  split; [now apply AddRecord_unique|].
  subst w'. unfold world_after. rewrite AddRecord_eq, Hpg, Httl.
  cbn [andb fst snd set_dns_records dns_records].
  assert (Hr : db.conflicts r r = true) by now apply conflicts_triple.
  destruct (existsb (db.conflicts r) (dns_records w)) eqn:He.
  - destruct (update_in_place r (dns_records w)) as (_ & Hother & Hsame).
    split; [now apply Hsame|]. split; [exact Hother|].
    intros _. apply length_map.
  - assert (Hnone : List.filter (db.conflicts r) (dns_records w) = []).
    { destruct (List.filter _ _) as [|x l] eqn:Hf; [reflexivity|].
      assert (Hin : In x (List.filter (db.conflicts r) (dns_records w)))
        by (rewrite Hf; now left).
      apply filter_In in Hin as [Hin Hx].
      assert (existsb (db.conflicts r) (dns_records w) = true)
        by (apply existsb_exists; eauto).
      congruence. }
    rewrite !List.filter_app. cbn [List.filter]. rewrite Hr, Hnone. cbn [negb].
    split; [reflexivity|]. split; [now rewrite app_nil_r|discriminate].
Qed.

(** C9.  On a table that satisfies its UNIQUE(domain, qtype, value)
    constraint, with Postgres up and a TTL that fits the INT column,
    [AddRecord] succeeds, keeps the constraint, leaves every row of another
    triple as it was, and leaves exactly one row for the record's triple,
    equal to the record written; when the triple was there the number of
    rows does not change.  Hence after any sequence of upserts that ends
    with the record, the table holds exactly one row for its triple, with
    the TTL written last. *)
Theorem AddRecord_is_idempotent_upsert
    (rs : list Record_) (r : Record_) (w : World) :
  pg_up w = true -> db.int4 (TTL r) = true ->
  unique_rows (dns_records w) ->
  let w1 := world_after (db.AddRecord r) w in
  let wn := world_after (AddRecords (rs ++ [r])) w in
  (result_of (db.AddRecord r) w = false
   /\ unique_rows (dns_records w1)
   /\ List.filter (db.conflicts r) (dns_records w1) = [r]
   /\ List.filter (fun x => negb (db.conflicts r x)) (dns_records w1)
      = List.filter (fun x => negb (db.conflicts r x)) (dns_records w)
   /\ (existsb (db.conflicts r) (dns_records w) = true ->
       length (dns_records w1) = length (dns_records w)))
  /\ (unique_rows (dns_records wn)
      /\ List.filter (db.conflicts r) (dns_records wn) = [r]).
Proof.
  intros Hpg Httl Hu w1 wn. split; [now apply AddRecord_once|].
  subst wn. rewrite AddRecords_app.
  destruct (AddRecords_unique rs w Hu) as [Hu1 Hp1].
  set (w2 := world_after (AddRecords rs) w) in *.
  assert (Hlast : world_after (AddRecords [r]) w2 = world_after (db.AddRecord r) w2).
  { unfold world_after. cbn [AddRecords]. unfold mbind, IO_bind, mret, IO_ret.
    now destruct (db.AddRecord r w2) as [[e w3] log3]. }
  rewrite Hlast.
  destruct (AddRecord_once r w2) as (_ & Hu2 & Hrow & _); [congruence|assumption..|].
  now split.
Qed.

End Upsert.

(** ** Concrete runs

    Each statement below instantiates one of the theorems above, or runs
    the model on a query, with the reference library. *)

(** An AAAA record whose value is the IPv4 literal 203.0.113.5 is answered
    with the 16-byte form of that address. *)
Lemma AAAA_accepts_any_IP_witness :
  let r := mkRecord "example.com" "AAAA" 300 "203.0.113.5" in
  let q := question "example.com." TypeAAAA in
  To4 (ParseIP (Value r)) = [203; 0; 113; 5]
  /\ In (RR_AAAA (rr_header r TypeAAAA) (ParseIP (Value r)))
        (Answer (reply_with (query "example.com." TypeAAAA) [r] q)).
Proof.
  intros r q. split; [reflexivity|].
  apply (AAAA_accepts_any_IP (query "example.com." TypeAAAA) q [r] r).
  - simpl. tauto.
  - reflexivity.
  - reflexivity.
  - vm_compute. discriminate.
Defined.

(** An MX record asked for by an MX query passes the type filter and still
    yields no answer. *)
Lemma unsupported_type_yields_no_answer_witness :
  let mx := mkRecord "example.com" "MX" 300 "10 mail.example.com." in
  let a := mkRecord "example.com" "A" 300 "203.0.113.5" in
  let q := question "example.com." 15 in
  selected q mx = true
  /\ Answer (reply_with (query "example.com." 15) ([a] ++ mx :: []) q)
     = Answer (reply_with (query "example.com." 15) ([a] ++ []) q).
Proof.
  intros mx a q. split; [reflexivity|].
  apply (unsupported_type_yields_no_answer (query "example.com." 15) q [a] [] mx).
  vm_compute. intuition discriminate.
Defined.

(** A query whose key holds a cached record list. *)
Lemma cache_hit_skips_store_witness :
  let r := query "example.com." TypeA in
  let w := set_rdb (insert "dns:record:example.com:A" (JSON [exA])) (store []) in
  HandleDNSRequest r w
  = (tt, w, [RedisGet "dns:record:example.com:A";
             WriteMsg (reply_with r [exA] (question "example.com." TypeA));
             Go (GoServedFromCache "example.com" "A")]).
Proof.
  intros r w.
  destruct (cache_hit_skips_store r (question "example.com." TypeA) [] [exA] w)
    as [Hhit _]; [reflexivity|reflexivity|exact Hhit].
Defined.

(** A key that holds text which is not JSON. *)
Lemma corrupt_entry_is_a_miss_witness :
  let r := query "example.com." TypeA in
  let w := set_rdb (insert "dns:record:example.com:A" (Raw "{")) (store [exA]) in
  log_of (HandleDNSRequest r) w
  = log_of (HandleDNSRequest r) (set_rdb (delete "dns:record:example.com:A") w).
Proof.
  intros r w.
  destruct (corrupt_entry_is_a_miss r (question "example.com." TypeA) [] "{" w)
    as (_ & Hlog & _); [reflexivity|reflexivity|reflexivity|exact Hlog].
Defined.

(** A store whose only row for the pair does not parse: the answer is a
    success with no answers, not NameError. *)
Lemma nxdomain_when_no_row_for_pair_witness :
  let r := query "example.com." TypeA in
  let bad := mkRecord "example.com" "A" 300 "not-an-address" in
  written (log_of (HandleDNSRequest r) (store [bad]))
  = [reply_with r [bad] (question "example.com." TypeA)]
  /\ Answer (reply_with r [bad] (question "example.com." TypeA)) = []
  /\ Rcode (reply_with r [bad] (question "example.com." TypeA)) = RcodeSuccess.
Proof.
  intros r bad.
  destruct (nxdomain_when_no_row_for_pair r (question "example.com." TypeA) []
              (store [bad]) eq_refl eq_refl eq_refl) as [_ Hrows].
  destruct (Hrows [bad] eq_refl) as [Hw Hrc]; [discriminate|].
  split; [exact Hw|]. split; [reflexivity|exact Hrc].
Defined.

(** C1, as the specification has it, fails: the store holds an A record
    for example.com and no AAAA record, the cache is empty, and the answer
    to an AAAA query is NameError. *)
Lemma other_types_give_nxdomain :
  let w := store [exA] in
  let r := query "example.com." TypeAAAA in
  (exists x, In x (dns_records w) /\ Domain x = "example.com")
  /\ (forall x, In x (dns_records w) ->
        Domain x = "example.com" -> QType x <> "AAAA")
  /\ written (log_of (HandleDNSRequest r) w)
     = [dnslib.SetRcode r RcodeNameError]
  /\ Rcode (dnslib.SetRcode r RcodeNameError) <> RcodeSuccess.
Proof.
  intros w r. split; [exists exA; split; [now left|reflexivity]|].
  split; [|split; [reflexivity|discriminate]].
  intros x [<-|[]] _. discriminate.
Qed.

(** Three upserts of one triple with TTLs 60, 300 and 600 into a table that
    already holds it: one row, TTL 600. *)
Lemma AddRecord_is_idempotent_upsert_witness :
  let w := store [exA] in
  let r := db.set_ttl 600 exA in
  let wn := world_after (AddRecords ([db.set_ttl 60 exA; exA] ++ [r])) w in
  dns_records wn = [r]
  /\ List.filter (db.conflicts r) (dns_records wn) = [r].
Proof.
  intros w r wn. split; [reflexivity|].
  apply (AddRecord_is_idempotent_upsert [db.set_ttl 60 exA; exA] r w).
  - reflexivity.
  - reflexivity.
  - unfold unique_rows. cbn. apply NoDup_singleton.
Defined.

(** With the default threshold the fifth query answered from the store is
    the one that issues the SET, here in a run during which Redis stops
    answering for a while. *)
Lemma promotion_only_after_threshold_witness :
  let w0 := store [exA] in
  let before := [lower; lower; Backends true false; lower; lower;
                 Backends true true] in
  let log := log_of (step lower) (run before w0).1 in
  cache_written "dns:record:example.com:A" log = true
  /\ rdb (run before w0).1 !! "dns:record:example.com:A" = None
  /\ result_of minHits w0
     <= count_store_served "example.com" "A" ((run before w0).2 ++ [log]).
Proof.
  intros w0 before log.
  assert (Hw : cache_written "dns:record:example.com:A" log = true)
    by (vm_compute; reflexivity).
  destruct (promotion_only_after_threshold "example.com" "A" w0 before lower)
    as (_ & _ & _ & Habsent & _ & Hn).
  - reflexivity.
  - reflexivity.
  - intros s' r d t Hin Hq Ha _.
    assert (Hr : r = query "example.com." TypeA).
    { cbn in Hin.
      repeat destruct Hin as [<-|Hin]; try discriminate Hq;
        try (now injection Hq as <-). destruct Hin. }
    subst r. now injection Ha as <- <-.
  - exact Hw.
  - split; [exact Hw|]. split; [|exact Hn]. apply Habsent. reflexivity.
Defined.

(** A lookup that fails because Redis does not answer is a miss: with a
    threshold of 1, the entry written by a first query is still there
    when a second query, whose GET fails, is answered from the store, and
    its goroutine, Redis answering again, issues a SET over it. *)
Example failed_lookup_rewrites_entry :
  let w0 := setenv "MIN_HITS_FOR_CACHE" "1" (store [exA]) in
  let key := "dns:record:example.com:A" in
  let w := (run [lower; Backends true false] w0).1 in
  let log := log_of (step (QueryChanging (query "example.com." TypeA) true true)) w in
  rdb w !! key = Some (JSON [exA])
  /\ result_of (cache_lookup "example.com" "A") w = None
  /\ store_served "example.com" "A" log = true
  /\ cache_written key log = true.
Proof. vm_compute. repeat split; reflexivity. Qed.

(** C2, as the specification has it, fails.  With the default threshold of
    5 and records for example.com and for EXAMPLE.COM, which share a cache
    key: five queries for EXAMPLE.COM are answered from the store and the
    fifth caches the records; five queries for example.com are answered
    from that entry, each counted; the entry expires; the next query for
    example.com is answered from the store and caches the records.  The
    pair (example.com, A) began uncached and without a counter, and this
    is its first resolution that was not served from the cache. *)
Lemma promotion_counts_cache_hits :
  let w0 := store [exA; exU] in
  let key := cache.CacheKey "example.com" "A" in
  let before := replicate 5 upper ++ replicate 5 lower ++ [Expire key] in
  let log := log_of (step lower) (run before w0).1 in
  rdb w0 !! key = None
  /\ dns_metrics w0 !! ("example.com", "A") = None
  /\ result_of minHits w0 = 5
  /\ map spawned ((run before w0).2 ++ [log])
     = replicate 5 [GoServedNotFromCache "EXAMPLE.COM" "A"]
       ++ replicate 5 [GoServedFromCache "example.com" "A"]
       ++ [[]; [GoServedNotFromCache "example.com" "A"]]
  /\ In (RedisSet key (JSON [exA]) cache.time_Hour) log
  /\ count_store_served "example.com" "A" ((run before w0).2 ++ [log]) = 1.
Proof.
  vm_compute. repeat split; try reflexivity. tauto.
Qed.

(** The four outcomes: no question; Postgres down; no row; one row. *)
Lemma resolver_outcomes_witness :
  let r := query "example.com." TypeA in
  let q := question "example.com." TypeA in
  log_of (HandleDNSRequest no_question) (store [exA])
  = [WriteMsg (dnslib.SetRcode no_question RcodeFormatError)]
  /\ log_of (HandleDNSRequest r) (pg_down (store [exA]))
     = [RedisGet "dns:record:example.com:A";
        PgFetchRecords "example.com" "A";
        WriteMsg (dnslib.SetRcode r RcodeServerFailure)]
  /\ written (log_of (HandleDNSRequest r) (store []))
     = [dnslib.SetRcode r RcodeNameError]
  /\ written (log_of (HandleDNSRequest r) (store [exA])) = [reply_with r [exA] q].
Proof.
  intros r q.
  destruct (resolver_outcomes no_question (store [exA])) as (_ & _ & Hformat & _).
  destruct (resolver_outcomes r (pg_down (store [exA]))) as (_ & _ & _ & Hdown).
  destruct (resolver_outcomes r (store [])) as (_ & _ & _ & Hnone).
  destruct (resolver_outcomes r (store [exA])) as (_ & _ & _ & Hrows).
  destruct (Hdown q [] eq_refl eq_refl) as (Herr & _).
  destruct (Hnone q [] eq_refl eq_refl) as (_ & Hzero & _).
  destruct (Hrows q [] eq_refl eq_refl) as (_ & _ & Hsome).
  split; [exact (Hformat eq_refl)|].
  split; [exact (Herr eq_refl)|].
  split; [exact (Hzero eq_refl)|].
  destruct (Hsome [exA] eq_refl) as [Hw _]; [discriminate|exact Hw].
Defined.

(** A first resolution, and four in a row, stay below the default
    threshold of 5. *)
Lemma below_threshold_no_cache_write_witness :
  let w := store [exA] in
  log_of (updateMetric "example.com" "A" false) w
  = [PgIncrementMetric "example.com" "A"; PgGetDomainHits "example.com" "A"]
  /\ rdb (run (replicate 4 lower) w).1 = rdb w.
Proof.
  intros w. destruct below_threshold_no_cache_write as [Hone Hmany]. split.
  - destruct (Hone "example.com" "A" false w 1) as [Hlog _];
      [reflexivity|reflexivity|exact Hlog].
  - destruct (Hmany "example.com" "A" (replicate 4 lower) w) as [Hrdb _];
      [| |exact Hrdb].
    + repeat constructor; exists (query "example.com." TypeA); split; reflexivity.
    + intros h Hh. vm_compute in Hh. injection Hh as <-. reflexivity.
Defined.

(** An A record that does not parse, between two that do: the answers
    are those of the two, in their order. *)
Lemma invalid_A_record_is_dropped_witness :
  let req := query "example.com." TypeA in
  let q := question "example.com." TypeA in
  let second := mkRecord "example.com" "A" 60 "203.0.113.6" in
  let header := fun ttl => {| Name := "example.com."; Rrtype := TypeA;
                              Class_ := ClassINET; Ttl := ttl |} in
  strings.ToUpper (QType not_an_address) = "A"
  /\ To4 (ParseIP (Value not_an_address)) = []
  /\ Answer (reply_with req [exA; not_an_address; second] q)
     = [RR_A (header 300) [203; 0; 113; 5]; RR_A (header 60) [203; 0; 113; 6]].
Proof.
  intros req q second header. split; [reflexivity|]. split; [reflexivity|].
  destruct (invalid_A_record_is_dropped req q [exA; not_an_address; second]
              (store [])) as (_ & _ & _ & Hkept & _).
  rewrite (Hkept [exA; not_an_address] second []
                 (RR_A (header 60) [203; 0; 113; 6]) eq_refl eq_refl);
    [reflexivity|left; repeat split; discriminate].
Defined.

(** ** The scenarios of the specification, run on the model *)

(** A record is added and then resolved: one answer with its value and
    TTL. *)
Example resolve_added_record :
  written (log_of (HandleDNSRequest (query "example.com." TypeA))
                  (world_after (db.AddRecord exA) (store [])))
  = [{| Id := 1; Response := true; Rcode := RcodeSuccess;
        Question := [question "example.com." TypeA];
        Answer := [RR_A {| Name := "example.com."; Rrtype := TypeA;
                           Class_ := ClassINET; Ttl := 300 |}
                        [203; 0; 113; 5]] |}].
Proof. reflexivity. Qed.

(** With a threshold of 2, two resolutions from the store put the records
    in the cache, and the third is answered from it without a lookup in
    Postgres. *)
Example third_resolution_from_cache :
  let w := setenv "MIN_HITS_FOR_CACHE" "2" (store [exA]) in
  map spawned (run [lower; lower; lower] w).2
  = [[GoServedNotFromCache "example.com" "A"];
     [GoServedNotFromCache "example.com" "A"];
     [GoServedFromCache "example.com" "A"]]
  /\ rdb (run [lower; lower] w).1 !! "dns:record:example.com:A"
     = Some (JSON [exA])
  /\ forall e, In e (log_of (step lower) (run [lower; lower] w).1) ->
               e <> PgFetchRecords "example.com" "A".
Proof.
  vm_compute. repeat split; try reflexivity.
  intros e [<-|[<-|[<-|[<-|[<-|[]]]]]]; discriminate.
Qed.

(** An ANY query that misses the cache asks Postgres for rows of type
    "ANY": a domain with A and TXT rows only is answered NameError. *)
Example any_query_from_store :
  let txt := mkRecord "example.com" "TXT" 300 "v=spf1 -all" in
  let r := query "example.com." TypeANY in
  log_of (HandleDNSRequest r) (store [exA; txt])
  = [RedisGet "dns:record:example.com:ANY";
     PgFetchRecords "example.com" "ANY";
     WriteMsg (dnslib.SetRcode r RcodeNameError)].
Proof. reflexivity. Qed.

(** Detached goroutines may race, as two handlers can both miss the cache
    before either goroutine has run: with a threshold of 1, two queries
    handled back to back are both answered from the store, and both
    goroutines then issue a SET for the key. *)
Example racing_promotions :
  let w := setenv "MIN_HITS_FOR_CACHE" "1" (store [exA]) in
  let r := query "example.com." TypeA in
  map (cache_written "dns:record:example.com:A")
      (sched_run [Handle r; Handle r; RunPending; RunPending] (w, [])).2
  = [false; false; true; true].
Proof. vm_compute. reflexivity. Qed.

(** * Further properties of the code *)

(** ** Cache keys *)

Section CacheKeys.

Lemma upper_of_lower_byte (c : ascii) :
  strings.upper_byte (strings.lower_byte c) = strings.upper_byte c.
Proof. destruct c as [[] [] [] [] [] [] [] []]; reflexivity. Qed.

Lemma lower_of_upper_byte (c : ascii) :
  strings.lower_byte (strings.upper_byte c) = strings.lower_byte c.
Proof. destruct c as [[] [] [] [] [] [] [] []]; reflexivity. Qed.

Lemma lower_byte_colon (c : ascii) :
  strings.lower_byte c = ":"%char <-> c = ":"%char.
Proof.
  destruct c as [[] [] [] [] [] [] [] []]; vm_compute; split; congruence.
Qed.

Lemma EqualFold_ToLower (s t : string) :
  strings.EqualFold s t = true <-> strings.ToLower s = strings.ToLower t.
Proof.
  revert t. induction s as [|a s IH]; intros [|b t]; cbn;
    try (split; [reflexivity|reflexivity]); try (split; discriminate).
  rewrite andb_true_iff, IH. split.
  - intros [Hab ->]. apply Ascii.eqb_eq in Hab. now rewrite Hab.
  - intros [= Hab Hst]. split; [now apply Ascii.eqb_eq|exact Hst].
Qed.

Lemma ToLower_ToUpper (s t : string) :
  strings.ToLower s = strings.ToLower t <-> strings.ToUpper s = strings.ToUpper t.
Proof.
  revert t. induction s as [|a s IH]; intros [|b t]; cbn;
    try (split; [reflexivity|reflexivity]); try (split; discriminate).
  split; intros [= Hab Hst]; f_equal; try (now apply IH).
  - now rewrite <- (upper_of_lower_byte a), Hab, upper_of_lower_byte.
  - now rewrite <- (lower_of_upper_byte a), Hab, lower_of_upper_byte.
Qed.

Lemma ToLower_colon_free (s : string) :
  colon_free s -> colon_free (strings.ToLower s).
Proof.
  unfold colon_free. induction s as [|a s IH]; [auto|].
  cbn. intros Hs [Ha|Hin].
  - apply Hs. left. now apply lower_byte_colon.
  - apply IH; [|exact Hin]. intros Hin'. apply Hs. now right.
Qed.

(** Two texts split at their first colon are equal part by part. *)
Lemma append_colon_inj (l1 l2 u1 u2 : string) :
  colon_free l1 -> colon_free l2 ->
  l1 +:+ ":" +:+ u1 = l2 +:+ ":" +:+ u2 ->
  l1 = l2 /\ u1 = u2.
Proof.
  unfold colon_free. revert l2.
  induction l1 as [|a l1 IH]; intros [|b l2] H1 H2; simpl; intros Heq.
  - injection Heq as Heq. cbn in Heq. now subst.
  - injection Heq as Hb _. exfalso. apply H2. left. now symmetry.
  - injection Heq as Ha _. exfalso. apply H1. now left.
  - injection Heq as -> Heq.
    destruct (IH l2) as [-> ->]; try assumption; auto.
    + intros Hin. apply H1. now right.
    + intros Hin. apply H2. now right.
Qed.

(** X1.  Two (domain, qtype) pairs of ASCII strings whose domains hold no
    colon have the same cache key exactly when the domains are equal up to
    case and the types are equal up to case. *)
Theorem CacheKey_shared_iff_equal_up_to_case (d d' q q' : string) :
  is_ascii d = true -> is_ascii d' = true ->
  is_ascii q = true -> is_ascii q' = true ->
  colon_free d -> colon_free d' ->
  cache.CacheKey d q = cache.CacheKey d' q'
  <-> strings.EqualFold d d' = true /\ strings.EqualFold q q' = true.
Proof.
  intros _ _ _ _ Hd Hd'. rewrite !EqualFold_ToLower. unfold cache.CacheKey. split.
  - intros Heq. cbn in Heq. injection Heq as Heq.
    apply append_colon_inj in Heq as [Hl Hu];
      try now apply ToLower_colon_free.
    split; [exact Hl|]. now apply ToLower_ToUpper.
  - intros [Hl Hu]. apply ToLower_ToUpper in Hu. now rewrite Hl, Hu.
Qed.

End CacheKeys.

Lemma CacheKey_shared_iff_equal_up_to_case_witness :
  cache.CacheKey "Example.COM" "a" = cache.CacheKey "example.com" "A"
  <-> strings.EqualFold "Example.COM" "example.com" = true
      /\ strings.EqualFold "a" "A" = true.
Proof.
  apply CacheKey_shared_iff_equal_up_to_case; try reflexivity;
    unfold colon_free; vm_compute; intuition discriminate.
Defined.

(** With a colon in the domain the key no longer tells the pairs apart. *)
Example CacheKey_colon_collision :
  cache.CacheKey "a:1" "2" = cache.CacheKey "a" "1:2".
Proof. reflexivity. Qed.

(** ** The store: writing and reading back *)

Section StoreRoundTrips.

Lemma AddRecord_frame (r : Record_) (w : World) :
  let w' := world_after (db.AddRecord r) w in
  dns_metrics w' = dns_metrics w /\ rdb w' = rdb w /\ pg_up w' = pg_up w
  /\ redis_up w' = redis_up w /\ environ w' = environ w.
Proof.
  unfold world_after. rewrite AddRecord_eq.
  destruct (pg_up w && db.int4 (TTL r)); cbn; tauto.
Qed.

Lemma AddRecord_other_pairs (r : Record_) (w : World) (d t : string) :
  (d, t) <> (Domain r, QType r) ->
  List.filter (db.same_pair d t) (dns_records (world_after (db.AddRecord r) w))
  = List.filter (db.same_pair d t) (dns_records w).
Proof.
  intros Hne.
  assert (Hr : db.same_pair d t r = false).
  { unfold db.same_pair.
    destruct (String.eqb_spec (Domain r) d) as [<-|]; [|reflexivity].
    destruct (String.eqb_spec (QType r) t) as [<-|]; [|reflexivity].
    now contradiction Hne. }
  assert (Hc : forall x, db.conflicts r x = true -> db.same_pair d t x = false).
  { intros x Hx. apply conflicts_triple in Hx. injection Hx as Hd Ht _.
    unfold db.same_pair in *. now rewrite Hd, Ht. }
  unfold world_after. rewrite AddRecord_eq.
  destruct (pg_up w && db.int4 (TTL r)); [|reflexivity].
  cbn [fst snd set_dns_records dns_records].
  destruct (existsb (db.conflicts r) (dns_records w)).
  - induction (dns_records w) as [|x rows IH]; [reflexivity|].
    cbn [map List.filter]. destruct (db.conflicts r x) eqn:Hx.
    + rewrite (conflicts_set_ttl r x Hx), Hr, (Hc x Hx). exact IH.
    + now rewrite IH.
  - rewrite List.filter_app. cbn [List.filter]. rewrite Hr. apply app_nil_r.
Qed.

(** X2.  After an upsert that Postgres accepts, on a table that satisfies
    its UNIQUE constraint, a lookup of the record's (domain, qtype) returns
    the record, and returns no other row with its value; lookups of every
    other pair return what they returned before. *)
Theorem AddRecord_then_FetchRecords (r : Record_) (w : World) :
  pg_up w = true -> db.int4 (TTL r) = true ->
  unique_rows (dns_records w) ->
  let w' := world_after (db.AddRecord r) w in
  (exists rows,
     result_of (db.FetchRecords (Domain r) (QType r)) w' = Ok rows
     /\ In r rows
     /\ forall x, In x rows -> Value x = Value r -> x = r)
  /\ (forall d t, (d, t) <> (Domain r, QType r) ->
        result_of (db.FetchRecords d t) w' = result_of (db.FetchRecords d t) w).
Proof.
  intros Hpg Httl Hu w'.
  destruct (AddRecord_once r w Hpg Httl Hu) as (_ & _ & Hrow & _).
  destruct (AddRecord_frame r w) as (_ & _ & Hpg' & _). fold w' in Hrow, Hpg'.
  split.
  - exists (List.filter (db.same_pair (Domain r) (QType r)) (dns_records w')).
    rewrite FetchRecords_result, Hpg', Hpg. split; [reflexivity|].
    assert (Hin : In r (List.filter (db.conflicts r) (dns_records w')))
      by (rewrite Hrow; now left).
    apply filter_In in Hin as [Hin _]. split.
    + apply filter_In. split; [exact Hin|].
      unfold db.same_pair. now rewrite !String.eqb_refl.
    + intros x Hx Hv. apply filter_In in Hx as [Hx Hpair].
      assert (Hc : In x (List.filter (db.conflicts r) (dns_records w'))).
      { apply filter_In. split; [exact Hx|].
        unfold db.same_pair in Hpair. apply andb_true_iff in Hpair as [Hd Ht].
        unfold db.conflicts. rewrite Hd, Ht, Hv. now rewrite String.eqb_refl. }
      rewrite Hrow in Hc. now destruct Hc as [<-|[]].
  - intros d t Hne. rewrite !FetchRecords_result, Hpg', Hpg.
    f_equal. now apply AddRecord_other_pairs.
Qed.

(** X3.  After an increment that Postgres accepts the counter reads one
    more than before, 1 for a pair that had no row; the counter of a pair
    that was never incremented does not read as 0 but as an error; and the
    counters of other pairs read as before. *)
Theorem IncrementMetric_then_GetDomainHits (d t : string) (w : World) :
  pg_up w = true ->
  hits_of w d t < strconv.maxInt64 ->
  let w' := world_after (db.IncrementMetric d t) w in
  result_of (db.GetDomainHits d t) w' = Ok (hits_of w d t + 1)
  /\ (dns_metrics w !! (d, t) = None -> result_of (db.GetDomainHits d t) w = Err)
  /\ (forall d' t', (d', t') <> (d, t) ->
        result_of (db.GetDomainHits d' t') w'
        = result_of (db.GetDomainHits d' t') w).
Proof.
  intros Hpg Hlt w'.
  destruct (IncrementMetric_frame d t w) as (_ & _ & Hpg' & _).
  destruct (IncrementMetric_metrics d t w) as (Hother & _ & _).
  fold w' in Hpg', Hother. rewrite !GetDomainHits_result, Hpg', Hpg.
  split; [|split].
  - subst w'. unfold world_after, db.IncrementMetric, hits_of in *. io_unfold.
    cbv beta iota. rewrite Hpg.
    destruct (dns_metrics w !! (d, t)) as [hits|] eqn:Hm; cbn in Hlt |- *.
    + destruct (Z.leb_spec (hits + 1) strconv.maxInt64); [|lia].
      cbn. now rewrite lookup_insert_eq.
    + now rewrite lookup_insert_eq.
  - now intros ->.
  - intros d' t' Hne. rewrite !GetDomainHits_result, Hpg', Hpg.
    now rewrite (Hother _ Hne).
Qed.

End StoreRoundTrips.

Lemma AddRecord_then_FetchRecords_witness :
  let r := db.set_ttl 600 exA in
  let w' := world_after (db.AddRecord r) (store [exA; exU]) in
  (exists rows,
     result_of (db.FetchRecords "example.com" "A") w' = Ok rows
     /\ In r rows
     /\ forall x, In x rows -> Value x = Value r -> x = r)
  /\ result_of (db.FetchRecords "EXAMPLE.COM" "A") w' = Ok [exU].
Proof.
  intros r w'.
  destruct (AddRecord_then_FetchRecords r (store [exA; exU])) as [Hrow Hother].
  - reflexivity.
  - reflexivity.
  - unfold unique_rows. cbn. apply NoDup_cons. split; [|apply NoDup_singleton].
    intros Hin. apply list_elem_of_In in Hin. destruct Hin as [Heq|[]].
    discriminate Heq.
  - split; [exact Hrow|]. now rewrite Hother.
Defined.

Lemma IncrementMetric_then_GetDomainHits_witness :
  result_of (db.GetDomainHits "example.com" "A")
            (world_after (db.IncrementMetric "example.com" "A") (store []))
  = Ok 1
  /\ result_of (db.GetDomainHits "example.com" "A") (store []) = Err.
Proof.
  destruct (IncrementMetric_then_GetDomainHits "example.com" "A" (store []))
    as (Hone & Hnone & _); [reflexivity|reflexivity|].
  split; [exact Hone|]. apply Hnone. reflexivity.
Defined.

(** ** What resolving does to the stores *)

Section Counting.

Context `{GoLib}.

Lemma IncrementMetric_counter (d t : string) (w : World) :
  world_after (db.IncrementMetric d t) w
  = if pg_up w && (hits_of w d t + 1 <=? strconv.maxInt64)
    then set_dns_metrics (insert (d, t) (hits_of w d t + 1)) w
    else w.
Proof.
  unfold world_after, db.IncrementMetric, hits_of. io_unfold. cbv beta iota.
  destruct (pg_up w); [|reflexivity].
  destruct (dns_metrics w !! (d, t)) as [hits|]; cbn; [|reflexivity].
  destruct (hits + 1 <=? strconv.maxInt64); reflexivity.
Qed.

Lemma updateMetric_log (d t : string) (served : bool) (w : World) :
  written (log_of (updateMetric d t served) w) = []
  /\ spawned (log_of (updateMetric d t served) w) = [].
Proof.
  unfold log_of.
  destruct (updateMetric_cases d t served w)
    as [Hu|[Hu|(_ & hits & rows & _ & _ & _ & Hu)]]; rewrite Hu; now cbn.
Qed.

Lemma updateMetric_metrics (d t : string) (served : bool) (w : World) :
  dns_metrics (world_after (updateMetric d t served) w)
  = dns_metrics (world_after (db.IncrementMetric d t) w).
Proof.
  unfold world_after at 1.
  destruct (updateMetric_cases d t served w)
    as [Hu|[Hu|(_ & hits & rows & _ & _ & _ & Hu)]]; rewrite Hu;
    cbn [fst snd]; try reflexivity.
  now destruct (redis_up w).
Qed.

(** What a goroutine of the handler writes to Redis: the rows the store
    holds for its pair, under the pair's key, for an hour. *)
Lemma updateMetric_sets (d t : string) (served : bool) (w : World)
    (k : string) (v : RedisValue) (e : Z) :
  In (RedisSet k v e) (log_of (updateMetric d t served) w) ->
  served = false
  /\ k = cache.CacheKey d t /\ e = cache.time_Hour
  /\ v = JSON (List.filter (db.same_pair d t) (dns_records w))
  /\ List.filter (db.same_pair d t) (dns_records w) <> [].
Proof.
  unfold log_of. rewrite updateMetric_eq. cbv zeta.
  destruct (IncrementMetric_frame d t w) as (Hrec & _ & _).
  set (w1 := world_after (db.IncrementMetric d t) w) in *.
  assert (Hno : forall l : list Event,
            (forall x, In x l -> forall k' v' e', x <> RedisSet k' v' e') ->
            In (RedisSet k v e) l -> False).
  { intros l Hl Hin. exact (Hl _ Hin k v e eq_refl). }
  destruct (result_of (db.GetDomainHits d t) w1) as [hits|]; cbn [snd].
  2:{ intros Hin. exfalso. revert Hin. apply Hno.
      intros x [<-|[<-|[]]]; discriminate. }
  destruct ((hits <? result_of minHits w1) || served) eqn:Hb; cbn [snd].
  { intros Hin. exfalso. revert Hin. apply Hno.
    intros x [<-|[<-|[]]]; discriminate. }
  apply orb_false_iff in Hb as [_ ->].
  rewrite FetchRecords_result.
  destruct (pg_up w1); cbn [snd].
  2:{ intros Hin. exfalso. revert Hin. apply Hno.
      intros x [<-|[<-|[<-|[]]]]; discriminate. }
  rewrite Hrec.
  destruct (List.filter (db.same_pair d t) (dns_records w)) as [|row rows];
    cbn [snd].
  { intros Hin. exfalso. revert Hin. apply Hno.
    intros x [<-|[<-|[<-|[]]]]; discriminate. }
  intros [Hin|[Hin|[Hin|[Hin|[]]]]]; try discriminate Hin.
  injection Hin as <- <- <-. repeat split. discriminate.
Qed.

Lemma serve_eq (r : Msg) (w : World) :
  serve r w
  = (tt, world_after (run_tasks (spawned (log_of (HandleDNSRequest r) w))) w,
     log_of (HandleDNSRequest r) w
     ++ log_of (run_tasks (spawned (log_of (HandleDNSRequest r) w))) w).
Proof.
  unfold serve, world_after, log_of. rewrite HandleDNSRequest_eq.
  destruct (Question r) as [|q rest]; [reflexivity|]. cbv zeta.
  destruct (result_of (cache_lookup _ _) w) as [recs|].
  - cbn [spawned fst snd]. now destruct (run_tasks _ w) as [[[] w2] log2].
  - destruct (result_of (db.FetchRecords _ _) w) as [[|row rows]|];
      cbn [spawned fst snd]; try reflexivity.
    now destruct (run_tasks _ w) as [[[] w2] log2].
Qed.

(** X4.  However many queries are served and keys expire, the resolver
    leaves the table of records as it was, and a counter row that exists
    stays and never decreases. *)
Theorem resolving_keeps_records_and_counters (steps : list Step) (w : World) :
  dns_records (run steps w).1 = dns_records w
  /\ forall d t h, dns_metrics w !! (d, t) = Some h ->
       exists h', dns_metrics (run steps w).1 !! (d, t) = Some h' /\ h <= h'.
Proof.
  split.
  - revert w. induction steps as [|s steps IH]; intros w; [reflexivity|].
    rewrite run_cons. cbn [fst]. rewrite IH.
    now destruct (step_frame s w _ _ (step_eta s w)) as (Hr & _).
  - intros d t h Hh. now apply run_frame.
Qed.

(** X5.  Serving a query writes exactly one message.  When the message
    carries a failure code nothing is changed; when it carries NOERROR the
    counter of the pair asked for is raised by one, unless Postgres does
    not answer or the counter is at the top of its range, and no other
    counter is touched. *)
Theorem only_answers_are_counted (r : Msg) (w : World) :
  exists m,
    written (log_of (serve r) w) = [m]
    /\ (Rcode m <> RcodeSuccess -> world_after (serve r) w = w)
    /\ (Rcode m = RcodeSuccess ->
          exists d t,
            asked r = Some (d, t)
            /\ dns_metrics (world_after (serve r) w)
               = if pg_up w && (hits_of w d t + 1 <=? strconv.maxInt64)
                 then <[(d, t) := hits_of w d t + 1]> (dns_metrics w)
                 else dns_metrics w).
Proof.
  assert (Hcount : forall d t served,
            dns_metrics (world_after (updateMetric d t served) w)
            = if pg_up w && (hits_of w d t + 1 <=? strconv.maxInt64)
              then <[(d, t) := hits_of w d t + 1]> (dns_metrics w)
              else dns_metrics w).
  { intros d t served. rewrite updateMetric_metrics, IncrementMetric_counter.
    now destruct (pg_up w && _). }
  assert (Hw : world_after (serve r) w
               = world_after (run_tasks (spawned (log_of (HandleDNSRequest r) w))) w)
    by (unfold world_after at 1; now rewrite serve_eq).
  assert (Hl : log_of (serve r) w
               = log_of (HandleDNSRequest r) w
                 ++ log_of (run_tasks (spawned (log_of (HandleDNSRequest r) w))) w)
    by (unfold log_of at 1; now rewrite serve_eq).
  rewrite Hw, Hl. clear Hw Hl.
  remember (log_of (HandleDNSRequest r) w) as hl eqn:Hhl.
  unfold log_of in Hhl. rewrite HandleDNSRequest_eq in Hhl. unfold asked.
  destruct (Question r) as [|q rest].
  { subst hl. eexists. split; [reflexivity|]. split; [reflexivity|]. discriminate. }
  cbv zeta in Hhl.
  destruct (result_of (cache_lookup _ _) w) as [recs|].
  - subst hl. cbn [snd spawned]. unfold log_of, world_after.
    rewrite run_tasks_one. cbn [fst snd run_task].
    eexists. split; [|split].
    + cbn [written app]. unfold updateMetricServedFromCache.
      now rewrite (proj1 (updateMetric_log _ _ _ _)).
    + intros Hr. now contradiction Hr.
    + intros _. eexists _, _. split; [reflexivity|]. apply Hcount.
  - destruct (result_of (db.FetchRecords _ _) w) as [[|row rows]|]; subst hl.
    + eexists. split; [reflexivity|]. split; [reflexivity|]. discriminate.
    + cbn [snd spawned]. unfold log_of, world_after.
      rewrite run_tasks_one. cbn [fst snd run_task].
      eexists. split; [|split].
      * cbn [written app]. unfold updateMetricServedNotFromCache.
        now rewrite (proj1 (updateMetric_log _ _ _ _)).
      * intros Hr. now contradiction Hr.
      * intros _. eexists _, _. split; [reflexivity|]. apply Hcount.
    + eexists. split; [reflexivity|]. split; [reflexivity|]. discriminate.
Qed.

End Counting.

Section CacheWrites.

Context `{GoLib}.

Lemma serve_changing_sets (r : Msg) (pg redis : bool) (w : World)
    (k : string) (v : RedisValue) (e : Z) :
  In (RedisSet k v e) (log_of (serve_changing r pg redis) w) ->
  exists d t,
    asked r = Some (d, t)
    /\ k = cache.CacheKey d t /\ e = cache.time_Hour
    /\ v = JSON (List.filter (db.same_pair d t) (dns_records w))
    /\ List.filter (db.same_pair d t) (dns_records w) <> [].
Proof.
  unfold log_of, serve_changing, asked. rewrite HandleDNSRequest_eq.
  destruct (Question r) as [|q rest].
  { cbn. intros [Hin|[]]. discriminate Hin. }
  cbv zeta.
  destruct (result_of (cache_lookup _ _) w) as [recs|].
  - cbn [spawned]. rewrite run_tasks_one. cbn [snd run_task app].
    intros [Hin|[Hin|[Hin|Hin]]]; try discriminate Hin.
    apply updateMetric_sets in Hin as (Hs & _). discriminate Hs.
  - destruct (result_of (db.FetchRecords _ _) w) as [[|row rows]|].
    + cbn. intros [Hin|[Hin|[Hin|[]]]]; discriminate Hin.
    + cbn [spawned]. rewrite run_tasks_one. cbn [snd run_task app].
      intros [Hin|[Hin|[Hin|[Hin|Hin]]]]; try discriminate Hin.
      apply updateMetric_sets in Hin as (_ & Hk & He & Hv & Hne).
      eexists _, _. split; [reflexivity|]. auto.
    + cbn. intros [Hin|[Hin|[Hin|[]]]]; discriminate Hin.
Qed.

(** X6.  Whatever the resolver writes to Redis in a run is a copy of the
    store: every SET, in any step, is for the key of some (domain, qtype)
    pair, holds exactly the rows the table has for that pair, which are not
    none, and expires after one hour. *)
Theorem cache_writes_mirror_the_store
    (steps : list Step) (w : World) (log : list Event)
    (k : string) (v : RedisValue) (e : Z) :
  In log (run steps w).2 ->
  In (RedisSet k v e) log ->
  exists d t,
    k = cache.CacheKey d t /\ e = cache.time_Hour
    /\ v = JSON (List.filter (db.same_pair d t) (dns_records w))
    /\ List.filter (db.same_pair d t) (dns_records w) <> [].
Proof.
  revert w. induction steps as [|s steps IH]; intros w; [intros []|].
  rewrite run_cons. cbn [snd]. intros [<-|Hlog] Hin.
  - destruct s as [r|key|pg redis|r pg redis]; cbn [step] in Hin.
    + unfold log_of in Hin. rewrite serve_as_changing in Hin.
      apply serve_changing_sets in Hin as (d & t & _ & Hrest). now exists d, t.
    + destruct Hin.
    + destruct Hin.
    + apply serve_changing_sets in Hin as (d & t & _ & Hrest). now exists d, t.
  - destruct (step_frame s w _ _ (step_eta s w)) as (Hr & _).
    rewrite <- Hr. now apply IH.
Qed.

End CacheWrites.

Lemma cache_writes_mirror_the_store_witness :
  let w := setenv "MIN_HITS_FOR_CACHE" "1" (store [exA; not_an_address]) in
  exists d t,
    "dns:record:example.com:A" = cache.CacheKey d t
    /\ cache.time_Hour = cache.time_Hour
    /\ JSON [exA; not_an_address]
       = JSON (List.filter (db.same_pair d t) (dns_records w))
    /\ List.filter (db.same_pair d t) (dns_records w) <> [].
Proof.
  intros w.
  apply (cache_writes_mirror_the_store [lower] w (log_of (step lower) w)).
  - left. reflexivity.
  - vm_compute. do 7 right. left. reflexivity.
Defined.

(** ** Promotion does happen *)

Section PromotionHappens.

Context `{GoLib}.

Lemma digits_nonneg (s : string) (n : Z) :
  0 <= n -> 0 <= (strconv.digits s n).1.
Proof.
  revert n. induction s as [|c s IH]; intros n Hn; cbn [strconv.digits];
    [exact Hn|].
  unfold strconv.digit.
  destruct ((48 <=? Z.of_nat (nat_of_ascii c))
            && (Z.of_nat (nat_of_ascii c) <=? 57)) eqn:Hd; [|cbn; lia].
  apply andb_true_iff in Hd as [Hlo _]. apply Z.leb_le in Hlo.
  destruct (_ <=? n); [cbn; unfold strconv.maxUint64; lia|].
  destruct (_ <? _); [cbn; unfold strconv.maxUint64; lia|].
  apply IH. lia.
Qed.

Lemma ParseInt_le_max (s : string) : (strconv.ParseInt s).1 <= strconv.maxInt64.
Proof.
  assert (Hmax : 0 <= strconv.maxInt64) by (unfold strconv.maxInt64; lia).
  unfold strconv.ParseInt. destruct s as [|c rest]; [exact Hmax|].
  cbv zeta.
  set (body := if Ascii.eqb c "+"%char || Ascii.eqb c "-"%char
               then rest else String c rest).
  assert (Hun : 0 <= (strconv.ParseUint body).1).
  { unfold strconv.ParseUint. destruct body; [cbn; lia|].
    apply digits_nonneg. lia. }
  destruct (strconv.ParseUint body) as [un [[|]|]]; cbn [fst] in Hun;
    [exact Hmax| |];
    (destruct (Ascii.eqb c "-"%char); cbn [negb andb];
     [destruct (2 ^ 63 <? un); cbn [fst]; unfold strconv.minInt64; lia
     |destruct (Z.leb_spec (2 ^ 63) un); cbn [fst]; unfold strconv.maxInt64; lia]).
Qed.

Lemma minHits_le_max (w : World) : result_of minHits w <= strconv.maxInt64.
Proof.
  unfold result_of, minHits, util.MustGetenv, util.Getenv. io_unfold.
  cbv beta iota. destruct (negb _); cbn [fst]; apply ParseInt_le_max.
Qed.

(** A query that misses the cache and finds rows is answered from the
    store, and its goroutine is the one for that case. *)
Lemma serve_from_store (r : Msg) (d t : string) (w : World) :
  asked r = Some (d, t) ->
  result_of (cache_lookup d t) w = None ->
  pg_up w = true ->
  List.filter (db.same_pair d t) (dns_records w) <> [] ->
  world_after (serve r) w = world_after (updateMetric d t false) w.
Proof.
  intros Ha Hc Hpg Hrows.
  apply asked_question in Ha as (q & rest & Hq & Hd & Ht).
  unfold world_after at 1. rewrite serve_eq. cbn [fst snd].
  unfold log_of. rewrite HandleDNSRequest_eq, Hq. cbv zeta.
  rewrite Hd, Ht, Hc, FetchRecords_result, Hpg.
  destruct (List.filter (db.same_pair d t) (dns_records w)) as [|row rows];
    [now contradiction Hrows|].
  cbn [snd spawned]. unfold world_after at 1. now rewrite run_tasks_one.
Qed.

Lemma updateMetric_below (d t : string) (w : World) :
  pg_up w = true ->
  hits_of w d t + 1 < result_of minHits w ->
  world_after (updateMetric d t false) w
  = set_dns_metrics (insert (d, t) (hits_of w d t + 1)) w.
Proof.
  intros Hpg Hlt. pose proof (minHits_le_max w) as Hmax.
  unfold world_after at 1. rewrite updateMetric_eq. cbv zeta.
  rewrite IncrementMetric_counter, Hpg.
  destruct (Z.leb_spec (hits_of w d t + 1) strconv.maxInt64); [|lia].
  cbn [andb]. set (w1 := set_dns_metrics _ w).
  rewrite GetDomainHits_result. cbn [w1 set_dns_metrics pg_up dns_metrics].
  rewrite Hpg, lookup_insert_eq.
  rewrite (minHits_environ w w1 eq_refl).
  destruct (Z.ltb_spec (hits_of w d t + 1) (result_of minHits w)); [|lia].
  reflexivity.
Qed.

Lemma updateMetric_promotes (d t : string) (w : World) :
  pg_up w = true -> redis_up w = true ->
  List.filter (db.same_pair d t) (dns_records w) <> [] ->
  result_of minHits w <= hits_of w d t + 1 ->
  hits_of w d t < strconv.maxInt64 ->
  world_after (updateMetric d t false) w
  = set_rdb (insert (cache.CacheKey d t)
               (JSON (List.filter (db.same_pair d t) (dns_records w))))
      (set_dns_metrics (insert (d, t) (hits_of w d t + 1)) w).
Proof.
  intros Hpg Hredis Hrows Hmin Hlt.
  unfold world_after at 1. rewrite updateMetric_eq. cbv zeta.
  rewrite IncrementMetric_counter, Hpg.
  destruct (Z.leb_spec (hits_of w d t + 1) strconv.maxInt64); [|lia].
  cbn [andb]. set (w1 := set_dns_metrics _ w).
  rewrite GetDomainHits_result, FetchRecords_result.
  cbn [w1 set_dns_metrics pg_up dns_metrics dns_records redis_up].
  rewrite Hpg, Hredis, lookup_insert_eq.
  rewrite (minHits_environ w w1 eq_refl).
  destruct (Z.ltb_spec (hits_of w d t + 1) (result_of minHits w)); [lia|].
  cbn [orb].
  destruct (List.filter (db.same_pair d t) (dns_records w)) as [|row rows];
    [now contradiction Hrows|reflexivity].
Qed.

(** A query whose key holds a list of records is answered with that list,
    without a lookup in Postgres. *)
Lemma HandleDNSRequest_cached (r : Msg) (q : Question_) (rest : list Question_)
    (w : World) (recs : list Record_) :
  Question r = q :: rest ->
  redis_up w = true ->
  rdb w !! cache.CacheKey (strings.TrimSuffix (QName q) ".")
                          (TypeToString (Qtype q)) = Some (JSON recs) ->
  HandleDNSRequest r w
  = (tt, w,
     [RedisGet (cache.CacheKey (strings.TrimSuffix (QName q) ".")
                               (TypeToString (Qtype q)));
      WriteMsg (reply_with r recs q);
      Go (GoServedFromCache (strings.TrimSuffix (QName q) ".")
                            (TypeToString (Qtype q)))]).
Proof.
  intros Hq Hredis Hkey. rewrite HandleDNSRequest_eq, Hq. cbv zeta.
  now rewrite cache_lookup_result, Hredis, Hkey.
Qed.

(** X7.  When a query is answered from the store and its counter thereby
    reaches the threshold, with both backends answering, the rows of its
    pair are in Redis once the query is served; every later query whose
    pair has the same key, as long as the entry is there, is answered with
    these rows and without a lookup in Postgres. *)
Theorem promotion_serves_later_queries_from_cache
    (r : Msg) (d t : string) (w : World) :
  asked r = Some (d, t) ->
  pg_up w = true -> redis_up w = true ->
  result_of (cache_lookup d t) w = None ->
  List.filter (db.same_pair d t) (dns_records w) <> [] ->
  result_of minHits w <= hits_of w d t + 1 ->
  hits_of w d t < strconv.maxInt64 ->
  let rows := List.filter (db.same_pair d t) (dns_records w) in
  let w' := world_after (serve r) w in
  rdb w' = <[cache.CacheKey d t := JSON rows]> (rdb w)
  /\ forall r' q' rest',
       Question r' = q' :: rest' ->
       cache.CacheKey (strings.TrimSuffix (QName q') ".")
                      (TypeToString (Qtype q')) = cache.CacheKey d t ->
       log_of (HandleDNSRequest r') w'
       = [RedisGet (cache.CacheKey d t);
          WriteMsg (reply_with r' rows q');
          Go (GoServedFromCache (strings.TrimSuffix (QName q') ".")
                                (TypeToString (Qtype q')))].
Proof.
  intros Ha Hpg Hredis Hc Hrows Hmin Hlt rows w'.
  assert (Hw' : w' = set_rdb (insert (cache.CacheKey d t) (JSON rows))
                       (set_dns_metrics (insert (d, t) (hits_of w d t + 1)) w)).
  { subst w'. rewrite (serve_from_store r d t w Ha Hc Hpg Hrows).
    now apply updateMetric_promotes. }
  split; [now rewrite Hw'|].
  intros r' q' rest' Hq' Hkey. unfold log_of.
  rewrite (HandleDNSRequest_cached r' q' rest' w' rows Hq').
  - cbn [snd]. now rewrite Hkey.
  - now rewrite Hw'.
  - rewrite Hkey, Hw'. cbn. now rewrite lookup_insert_eq.
Qed.

Lemma replicate_snoc {A} (n : nat) (x : A) :
  replicate (S n) x = replicate n x ++ [x].
Proof. induction n as [|n IH]; [reflexivity|]. cbn in *. now rewrite <- IH. Qed.

(** X8.  From a pair that has rows, no counter and no cache entry, with
    both backends answering: when the threshold is [m >= 1], the first
    [m - 1] queries for the pair leave Redis as it was and the [m]-th puts
    the pair's rows under its key; a threshold below 1 behaves as 1. *)
Theorem threshold_th_query_promotes (r : Msg) (d t : string) (w : World) (n : nat) :
  asked r = Some (d, t) ->
  pg_up w = true -> redis_up w = true ->
  rdb w !! cache.CacheKey d t = None ->
  dns_metrics w !! (d, t) = None ->
  List.filter (db.same_pair d t) (dns_records w) <> [] ->
  Z.of_nat n + 1 = Z.max 1 (result_of minHits w) ->
  let w_n := (run (replicate n (Query r)) w).1 in
  rdb w_n = rdb w
  /\ hits_of w_n d t = Z.of_nat n
  /\ rdb (world_after (serve r) w_n)
     = <[cache.CacheKey d t
         := JSON (List.filter (db.same_pair d t) (dns_records w))]> (rdb w).
Proof.
  intros Ha Hpg Hredis Hkey Hm Hrows Hn.
  pose proof (minHits_le_max w) as Hmax.
  assert (Hinv : forall k, (k <= n)%nat ->
            let wk := (run (replicate k (Query r)) w).1 in
            dns_records wk = dns_records w /\ pg_up wk = true
            /\ redis_up wk = true /\ environ wk = environ w
            /\ rdb wk = rdb w /\ hits_of wk d t = Z.of_nat k).
  { induction k as [|k IH]; intros Hk.
    - cbn. unfold hits_of. rewrite Hm. repeat split; assumption.
    - destruct IH as (Hr & Hp & Hu & He & Hb & Hh); [lia|].
      cbv zeta. rewrite replicate_snoc, run_app. cbn [fst].
      set (wk := (run (replicate k (Query r)) w).1) in *.
      rewrite run_cons. cbn [run fst step].
      assert (Hck : result_of (cache_lookup d t) wk = None)
        by (now rewrite cache_lookup_result, Hu, Hb, Hkey).
      rewrite (serve_from_store r d t wk Ha Hck Hp) by now rewrite Hr.
      rewrite updateMetric_below;
        [|assumption|rewrite (minHits_environ w wk He); lia].
      unfold hits_of. cbn. rewrite lookup_insert_eq. cbn.
      unfold hits_of in Hh. rewrite Hh. repeat split; try assumption. lia. }
  destruct (Hinv n (le_n n)) as (Hr & Hp & Hu & He & Hb & Hh).
  cbv zeta. set (w_n := (run (replicate n (Query r)) w).1) in *.
  split; [exact Hb|]. split; [exact Hh|].
  assert (Hck : result_of (cache_lookup d t) w_n = None)
    by (now rewrite cache_lookup_result, Hu, Hb, Hkey).
  rewrite (serve_from_store r d t w_n Ha Hck Hp) by now rewrite Hr.
  rewrite updateMetric_promotes; try assumption.
  - cbn. now rewrite Hr, Hb.
  - now rewrite Hr.
  - rewrite (minHits_environ w w_n He). lia.
  - unfold strconv.maxInt64 in *. lia.
Qed.

End PromotionHappens.

(** With a threshold of 1 the first query for example.com puts its row in
    Redis, and a query for EXAMPLE.COM is then answered with that row. *)
Lemma promotion_serves_later_queries_from_cache_witness :
  let w := setenv "MIN_HITS_FOR_CACHE" "1" (store [exA]) in
  let r := query "example.com." TypeA in
  let r' := query "EXAMPLE.COM." TypeA in
  log_of (HandleDNSRequest r') (world_after (serve r) w)
  = [RedisGet "dns:record:example.com:A";
     WriteMsg (reply_with r' [exA] (question "EXAMPLE.COM." TypeA));
     Go (GoServedFromCache "EXAMPLE.COM" "A")].
Proof.
  intros w r r'.
  destruct (promotion_serves_later_queries_from_cache r "example.com" "A" w)
    as [_ Hlater].
  - reflexivity.
  - reflexivity.
  - reflexivity.
  - reflexivity.
  - discriminate.
  - vm_compute. discriminate.
  - reflexivity.
  - exact (Hlater r' (question "EXAMPLE.COM." TypeA) [] eq_refl eq_refl).
Defined.

(** With the default threshold of 5, four queries leave Redis empty and
    the fifth fills the key. *)
Lemma threshold_th_query_promotes_witness :
  let w := store [exA] in
  let r := query "example.com." TypeA in
  let w4 := (run (replicate 4 (Query r)) w).1 in
  rdb w4 = rdb w
  /\ hits_of w4 "example.com" "A" = 4
  /\ rdb (world_after (serve r) w4)
     = <["dns:record:example.com:A" := JSON [exA]]> (rdb w).
Proof.
  intros w r w4.
  apply (threshold_th_query_promotes r "example.com" "A" w 4).
  - reflexivity.
  - reflexivity.
  - reflexivity.
  - reflexivity.
  - reflexivity.
  - discriminate.
  - reflexivity.
Defined.

(** ** The HTTP API *)

Lemma IO_eta {A} (m : IO A) (w : World) :
  m w = (result_of m w, world_after m w, log_of m w).
Proof. unfold result_of, world_after, log_of. now destruct (m w) as [[a w1] l]. Qed.

Lemma bind_result {A B} (m : IO A) (f : A -> IO B) (w : World) :
  result_of (m ≫= f) w = result_of (f (result_of m w)) (world_after m w).
Proof.
  unfold result_of at 1. unfold mbind, IO_bind. rewrite (IO_eta m w).
  now rewrite (IO_eta (f _) _).
Qed.

Lemma bind_world {A B} (m : IO A) (f : A -> IO B) (w : World) :
  world_after (m ≫= f) w = world_after (f (result_of m w)) (world_after m w).
Proof.
  unfold world_after at 1. unfold mbind, IO_bind. rewrite (IO_eta m w).
  now rewrite (IO_eta (f _) _).
Qed.

Lemma bind_log {A B} (m : IO A) (f : A -> IO B) (w : World) :
  log_of (m ≫= f) w
  = log_of m w ++ log_of (f (result_of m w)) (world_after m w).
Proof.
  unfold log_of at 1. unfold mbind, IO_bind. rewrite (IO_eta m w).
  now rewrite (IO_eta (f _) _).
Qed.

Lemma AddRecord_result (r : Record_) (w : World) :
  result_of (db.AddRecord r) w = negb (pg_up w && db.int4 (TTL r)).
Proof.
  unfold result_of. rewrite AddRecord_eq.
  now destruct (pg_up w && db.int4 (TTL r)).
Qed.

Lemma AddRecord_world (r : Record_) (w : World) :
  world_after (db.AddRecord r) w
  = if pg_up w && db.int4 (TTL r)
    then set_dns_records
           (fun rows =>
              if existsb (db.conflicts r) rows
              then map (fun x => if db.conflicts r x
                                 then db.set_ttl (TTL r) x else x) rows
              else rows ++ [r]) w
    else w.
Proof.
  unfold world_after. rewrite AddRecord_eq.
  now destruct (pg_up w && db.int4 (TTL r)).
Qed.

Lemma AddRecord_stores (r : Record_) (w : World) :
  pg_up w = true -> db.int4 (TTL r) = true ->
  In r (dns_records (world_after (db.AddRecord r) w)).
Proof.
  intros Hpg Httl. rewrite AddRecord_world, Hpg, Httl. cbn.
  destruct (existsb (db.conflicts r) (dns_records w)) eqn:He.
  - apply existsb_exists in He as (x & Hx & Hc).
    apply in_map_iff. exists x. split; [|exact Hx].
    rewrite Hc. now apply conflicts_set_ttl.
  - apply in_or_app. right. now left.
Qed.

Lemma FetchRecords_world (d t : string) (w : World) :
  world_after (db.FetchRecords d t) w = w.
Proof. unfold world_after. now rewrite FetchRecords_run. Qed.

Lemma CacheRecord_world (d t : string) (row : Record_) (rows : list Record_)
    (w : World) :
  world_after (cache.CacheRecord d t (row :: rows)) w
  = if redis_up w
    then set_rdb (insert (cache.CacheKey d t) (JSON (row :: rows))) w
    else w.
Proof. unfold world_after. now rewrite CacheRecord_run. Qed.

Lemma CacheRecord_result (d t : string) (row : Record_) (rows : list Record_)
    (w : World) :
  result_of (cache.CacheRecord d t (row :: rows)) w = negb (redis_up w).
Proof. unfold result_of. now rewrite CacheRecord_run. Qed.

(** The Redis calls of the handlers, by the client they go through. *)
Lemma Rdb_CacheRecord_run (c : RdbClient) (d t : string) (row : Record_)
    (rows : list Record_) (w : World) :
  Rdb_CacheRecord c d t (row :: rows) w
  = match c with
    | Rdb_nil => (None, w, [])
    | Rdb_set =>
        (Some (negb (redis_up w)),
         if redis_up w
         then set_rdb (insert (cache.CacheKey d t) (JSON (row :: rows))) w
         else w,
         [RedisSet (cache.CacheKey d t) (JSON (row :: rows)) cache.time_Hour])
    end.
Proof.
  destruct c; [reflexivity|]. unfold Rdb_CacheRecord, mbind, IO_bind.
  rewrite CacheRecord_run. reflexivity.
Qed.

Lemma Rdb_Del_run (c : RdbClient) (key : string) (w : World) :
  Rdb_Del c key w
  = match c with
    | Rdb_nil => (None, w, [])
    | Rdb_set =>
        (Some tt, if redis_up w then set_rdb (delete key) w else w, [])
    end.
Proof.
  destruct c; [reflexivity|]. unfold Rdb_Del. io_unfold. cbv beta iota.
  now destruct (redis_up w).
Qed.

Lemma refresh_if_cached_run (c : RdbClient) (d t : string) (row : Record_)
    (rows : list Record_) (w : World) :
  api.refresh_if_cached c d t (row :: rows) w
  = match c with
    | Rdb_nil => (None, w, [])
    | Rdb_set =>
        if redis_up w
        then match rdb w !! cache.CacheKey d t with
             | Some _ =>
                 (Some tt,
                  set_rdb (insert (cache.CacheKey d t) (JSON (row :: rows))) w,
                  [RedisSet (cache.CacheKey d t) (JSON (row :: rows))
                            cache.time_Hour])
             | None => (Some tt, w, [])
             end
        else (Some tt, w, [])
    end.
Proof.
  destruct c; [reflexivity|].
  unfold api.refresh_if_cached, Rdb_Exists. io_unfold. cbv beta iota.
  destruct (redis_up w) eqn:Hredis; [|reflexivity].
  destruct (rdb w !! cache.CacheKey d t); [|reflexivity].
  cbn [Z.ltb Z.compare]. rewrite Rdb_CacheRecord_run, Hredis. cbn.
  reflexivity.
Qed.

Lemma refresh_if_cached_result (c : RdbClient) (d t : string) (row : Record_)
    (rows : list Record_) (w : World) :
  result_of (api.refresh_if_cached c d t (row :: rows)) w
  = match c with Rdb_nil => None | Rdb_set => Some tt end.
Proof.
  unfold result_of. rewrite refresh_if_cached_run. destruct c; [reflexivity|].
  destruct (redis_up w); [|reflexivity].
  now destruct (rdb w !! cache.CacheKey d t).
Qed.

Lemma refresh_if_cached_world (c : RdbClient) (d t : string) (row : Record_)
    (rows : list Record_) (w : World) :
  world_after (api.refresh_if_cached c d t (row :: rows)) w
  = match c with
    | Rdb_nil => w
    | Rdb_set =>
        if redis_up w
        then match rdb w !! cache.CacheKey d t with
             | Some _ =>
                 set_rdb (insert (cache.CacheKey d t) (JSON (row :: rows))) w
             | None => w
             end
        else w
    end.
Proof.
  unfold world_after. rewrite refresh_if_cached_run. destruct c; [reflexivity|].
  destruct (redis_up w); [|reflexivity].
  now destruct (rdb w !! cache.CacheKey d t).
Qed.

(** The reply after the cache block: nothing when it panicked. *)
Lemma reply_after {A} (done : option A) (reply : HttpReply) (w : World) :
  result_of (match done with
             | None => mret Panic
             | Some _ => mret reply
             end) w
  = match done with None => Panic | Some _ => reply end
  /\ world_after (match done with
                  | None => mret Panic
                  | Some _ => mret reply
                  end) w = w.
Proof. now destruct done. Qed.

Section Api.

Context `{GoLib}.

(** The record [CreateRecord] stores for a decoded body. *)
Lemma created_ttl (x : Record_) :
  db.int4 (TTL x) = true ->
  db.int4 (TTL (if TTL x =? 0 then db.set_ttl 300 x else x)) = true
  /\ TTL (if TTL x =? 0 then db.set_ttl 300 x else x) <> 0
  /\ Domain (if TTL x =? 0 then db.set_ttl 300 x else x) = Domain x
  /\ QType (if TTL x =? 0 then db.set_ttl 300 x else x) = QType x.
Proof.
  intros Httl. destruct (Z.eqb_spec (TTL x) 0); cbn.
  - repeat split. discriminate.
  - repeat split; assumption.
Qed.

(** X9.  A record created through the API is stored with the TTL of the
    request, or with 300 when the request has none or has 0; it is then
    among the records the API lists.  No record is stored with TTL 0, the
    counters are left alone, and no key is added to Redis.  The reply is
    201 in a process whose Redis client is set; where [cache.InitRedis]
    has not run, as under the api command, the handler stores the record
    all the same and then panics, without a reply. *)
Theorem CreateRecord_stores_the_record (c : RdbClient) (x : Record_) (w : World) :
  pg_up w = true -> db.int4 (TTL x) = true ->
  let record := if TTL x =? 0 then db.set_ttl 300 x else x in
  let w' := world_after (api.CreateRecord c (Some x)) w in
  result_of (api.CreateRecord c (Some x)) w
  = match c with
    | Rdb_set => WriteHeader StatusCreated
    | Rdb_nil => Panic
    end
  /\ In record (dns_records w')
  /\ TTL record <> 0
  /\ (exists rows, result_of api.ListRecords w' = Encode rows /\ In record rows)
  /\ dns_metrics w' = dns_metrics w
  /\ forall k, rdb w !! k = None -> rdb w' !! k = None.
Proof.
  intros Hpg Httl record w'.
  destruct (created_ttl x Httl) as (Hint & Hnz & Hd & Ht). fold record in Hint, Hnz.
  assert (Hres : result_of (db.AddRecord record) w = false)
    by (now rewrite AddRecord_result, Hpg, Hint).
  assert (Hin : In record (dns_records (world_after (db.AddRecord record) w)))
    by (now apply AddRecord_stores).
  destruct (AddRecord_frame record w) as (Hm & Hrdb & Hpg' & Hredis & _).
  set (w1 := world_after (db.AddRecord record) w) in *.
  assert (Hw' : w' = world_after
                       (api.refresh_if_cached c (Domain record) (QType record)
                                              [record]) w1).
  { subst w'. unfold api.CreateRecord. fold record.
    rewrite bind_world, Hres. fold w1. rewrite bind_world.
    apply reply_after. }
  assert (Hcases : w' = w1
                   \/ w' = set_rdb (insert (cache.CacheKey (Domain record)
                                                           (QType record))
                                           (JSON [record])) w1
                      /\ is_Some (rdb w1 !! cache.CacheKey (Domain record)
                                                          (QType record))).
  { rewrite Hw', refresh_if_cached_world. destruct c; [now left|].
    destruct (redis_up w1); [|now left].
    destruct (rdb w1 !! cache.CacheKey _ _) eqn:Hk; [|now left].
    right. split; [reflexivity|eauto]. }
  split.
  { unfold api.CreateRecord. fold record.
    rewrite bind_result, Hres. fold w1. rewrite bind_result.
    rewrite (proj1 (reply_after _ _ _)), refresh_if_cached_result.
    now destruct c. }
  assert (Hrec : dns_records w' = dns_records w1)
    by (destruct Hcases as [->|[-> _]]; reflexivity).
  split; [now rewrite Hrec|]. split; [exact Hnz|]. split.
  { exists (dns_records w'). split; [|now rewrite Hrec].
    unfold api.ListRecords, FetchAllRecords, result_of. io_unfold.
    cbv beta iota.
    assert (Hup : pg_up w' = true)
      by (destruct Hcases as [->|[-> _]]; cbn; congruence).
    now rewrite Hup. }
  split.
  { destruct Hcases as [->|[-> _]]; cbn; congruence. }
  intros k Hk. destruct Hcases as [->|[-> Hsome]]; [congruence|].
  cbn. rewrite <- Hrdb in Hk.
  destruct (decide (k = cache.CacheKey (Domain record) (QType record)))
    as [->|Hne].
  - rewrite Hk in Hsome. now destruct Hsome.
  - now rewrite lookup_insert_ne.
Qed.

(** X10.  When the pair of a created record has an entry in Redis, the
    entry is overwritten with the created record alone: later queries for
    the pair are answered with this one record, whatever other rows the
    store holds for the pair. *)
Theorem CreateRecord_narrows_cached_answer
    (x : Record_) (w : World) (old : RedisValue) :
  pg_up w = true -> redis_up w = true -> db.int4 (TTL x) = true ->
  rdb w !! cache.CacheKey (Domain x) (QType x) = Some old ->
  let record := if TTL x =? 0 then db.set_ttl 300 x else x in
  let w' := world_after (api.CreateRecord Rdb_set (Some x)) w in
  rdb w' = <[cache.CacheKey (Domain x) (QType x) := JSON [record]]> (rdb w)
  /\ forall r q rest,
       Question r = q :: rest ->
       cache.CacheKey (strings.TrimSuffix (QName q) ".")
                      (TypeToString (Qtype q))
       = cache.CacheKey (Domain x) (QType x) ->
       written (log_of (HandleDNSRequest r) w') = [reply_with r [record] q].
Proof.
  intros Hpg Hredis Httl Hold record w'.
  destruct (created_ttl x Httl) as (Hint & _ & Hd & Ht).
  fold record in Hint, Hd, Ht.
  assert (Hres : result_of (db.AddRecord record) w = false)
    by (now rewrite AddRecord_result, Hpg, Hint).
  destruct (AddRecord_frame record w) as (_ & Hrdb & _ & Hredis' & _).
  set (w1 := world_after (db.AddRecord record) w) in *.
  assert (Hw' : w' = set_rdb (insert (cache.CacheKey (Domain x) (QType x))
                                     (JSON [record])) w1).
  { subst w'. unfold api.CreateRecord. fold record.
    rewrite bind_world, Hres. fold w1. rewrite bind_world.
    rewrite (proj2 (reply_after _ _ _)).
    rewrite refresh_if_cached_world, Hredis', Hredis, Hd, Ht, Hrdb, Hold.
    reflexivity. }
  split; [rewrite Hw'; cbn; now rewrite Hrdb|].
  intros r q rest Hq Hkey. unfold log_of.
  rewrite (HandleDNSRequest_cached r q rest w' [record] Hq).
  - reflexivity.
  - rewrite Hw'. cbn. congruence.
  - rewrite Hkey, Hw'. cbn. now rewrite lookup_insert_eq.
Qed.

Lemma existsb_ext {A} (f g : A -> bool) (l : list A) :
  (forall x, f x = g x) -> existsb f l = existsb g l.
Proof. intros Hfg. induction l as [|x l IH]; cbn; [reflexivity|]. now rewrite Hfg, IH. Qed.

Lemma existsb_map {A B} (f : B -> bool) (g : A -> B) (l : list A) :
  existsb f (map g l) = existsb (fun x => f (g x)) l.
Proof. induction l as [|x l IH]; cbn; [reflexivity|]. now rewrite IH. Qed.

(** The loop of [UpdateRecordTTL] on rows that are in the table: every
    row that conflicts with one of them gets the TTL, the others stay. *)
Lemma update_ttls_world (ttl : Z) (rs : list Record_) (w : World) :
  pg_up w = true -> db.int4 ttl = true ->
  (forall r, In r rs -> existsb (db.conflicts r) (dns_records w) = true) ->
  result_of (api.update_ttls ttl rs) w = false
  /\ world_after (api.update_ttls ttl rs) w
     = set_dns_records
         (map (fun x => if existsb (fun r => db.conflicts r x) rs
                        then db.set_ttl ttl x else x)) w.
Proof.
  revert w. induction rs as [|r rs IH]; intros w Hpg Httl Hin.
  - split; [reflexivity|]. unfold world_after. cbn.
    destruct w. unfold set_dns_records. cbn. f_equal.
    now rewrite map_id.
  - assert (Hc : forall y, db.conflicts (db.set_ttl ttl r) y = db.conflicts r y)
      by reflexivity.
    assert (Hex : existsb (db.conflicts (db.set_ttl ttl r)) (dns_records w) = true).
    { rewrite <- (Hin r (or_introl eq_refl)). apply existsb_ext. exact Hc. }
    assert (Hres : result_of (db.AddRecord (db.set_ttl ttl r)) w = false)
      by (rewrite AddRecord_result, Hpg; cbn [db.set_ttl TTL]; now rewrite Httl).
    assert (Hw1 : world_after (db.AddRecord (db.set_ttl ttl r)) w
                  = set_dns_records
                      (map (fun x => if db.conflicts r x
                                     then db.set_ttl ttl x else x)) w).
    { rewrite AddRecord_world, Hpg. cbn [db.set_ttl TTL]. rewrite Httl.
      cbn [andb]. unfold set_dns_records. rewrite Hex. reflexivity. }
    cbn [api.update_ttls]. rewrite bind_result, bind_world, Hres, Hw1.
    set (w1 := set_dns_records _ w).
    destruct (IH w1) as [IHr IHw]; [exact Hpg|exact Httl| |].
    { intros r' Hr'. cbn [w1 set_dns_records dns_records].
      rewrite existsb_map. rewrite <- (Hin r' (or_intror Hr')).
      apply existsb_ext. intros y.
      destruct (db.conflicts r y); reflexivity. }
    split; [exact IHr|]. rewrite IHw.
    unfold w1, set_dns_records. cbn. f_equal. rewrite map_map.
    apply map_ext. intros y. cbn [existsb].
    destruct (db.conflicts r y) eqn:Hy; cbn [orb].
    + assert (He : existsb (fun r0 => db.conflicts r0 (db.set_ttl ttl y)) rs
                   = existsb (fun r0 => db.conflicts r0 y) rs)
        by (apply existsb_ext; reflexivity).
      rewrite He. now destruct (existsb _ rs).
    + reflexivity.
Qed.

Lemma same_pair_refl (x : Record_) : db.same_pair (Domain x) (QType x) x = true.
Proof. unfold db.same_pair. now rewrite !String.eqb_refl. Qed.

Lemma conflicts_refl (x : Record_) : db.conflicts x x = true.
Proof. unfold db.conflicts. now rewrite !String.eqb_refl. Qed.

Lemma conflicts_same_pair (d t : string) (r x : Record_) :
  db.conflicts r x = true -> db.same_pair d t x = db.same_pair d t r.
Proof.
  intros Hc. apply conflicts_triple in Hc. injection Hc as Hd Ht _.
  unfold db.same_pair. now rewrite Hd, Ht.
Qed.

(** X11.  A TTL update on a pair that has rows, with Postgres answering
    and a TTL that fits the column, sets the TTL on every row of the pair
    in the store and on no other row.  In a process whose Redis client is
    set the reply is 200, and if the pair has an entry in Redis, the entry
    is rewritten with the rows as they were read before the update, so
    that queries for the pair are then answered with the old TTLs.  Where
    [cache.InitRedis] has not run, as under the api command, the handler
    updates the rows and then panics, without a reply and without touching
    Redis. *)
Theorem UpdateRecordTTL_caches_old_ttls
    (c : RdbClient) (d t : string) (ttl : Z) (w : World) :
  pg_up w = true -> db.int4 ttl = true ->
  List.filter (db.same_pair d t) (dns_records w) <> [] ->
  let rows := List.filter (db.same_pair d t) (dns_records w) in
  let w' := world_after (api.UpdateRecordTTL c d t (Some ttl)) w in
  result_of (api.UpdateRecordTTL c d t (Some ttl)) w
  = match c with
    | Rdb_set => WriteHeader StatusOK
    | Rdb_nil => Panic
    end
  /\ dns_records w'
     = map (fun x => if db.same_pair d t x then db.set_ttl ttl x else x)
           (dns_records w)
  /\ (c = Rdb_set ->
      redis_up w = true ->
      is_Some (rdb w !! cache.CacheKey d t) ->
      rdb w' !! cache.CacheKey d t = Some (JSON rows)
      /\ forall r q rest,
           Question r = q :: rest ->
           cache.CacheKey (strings.TrimSuffix (QName q) ".")
                          (TypeToString (Qtype q)) = cache.CacheKey d t ->
           written (log_of (HandleDNSRequest r) w') = [reply_with r rows q])
  /\ (c = Rdb_nil \/ rdb w !! cache.CacheKey d t = None -> rdb w' = rdb w).
Proof.
  intros Hpg Httl Hrows rows w'.
  assert (Hfetch : result_of (db.FetchRecords d t) w = Ok rows)
    by (now rewrite FetchRecords_result, Hpg).
  assert (Hin : forall r, In r rows ->
                  existsb (db.conflicts r) (dns_records w) = true).
  { intros r Hr. apply filter_In in Hr as [Hr _].
    apply existsb_exists. exists r. split; [exact Hr|apply conflicts_refl]. }
  destruct (update_ttls_world ttl rows w Hpg Httl Hin) as [Hres Hw1].
  assert (Hmap : map (fun x => if existsb (fun r => db.conflicts r x) rows
                               then db.set_ttl ttl x else x) (dns_records w)
                 = map (fun x => if db.same_pair d t x
                                 then db.set_ttl ttl x else x) (dns_records w)).
  { apply map_ext_in. intros x Hx.
    destruct (db.same_pair d t x) eqn:Hp.
    - assert (He : existsb (fun r => db.conflicts r x) rows = true).
      { apply existsb_exists. exists x. split; [|apply conflicts_refl].
        apply filter_In. now split. }
      now rewrite He.
    - destruct (existsb (fun r => db.conflicts r x) rows) eqn:He; [|reflexivity].
      apply existsb_exists in He as (r & Hr & Hc).
      apply filter_In in Hr as [_ Hr].
      rewrite (conflicts_same_pair d t r x Hc), Hr in Hp. discriminate. }
  set (w1 := world_after (api.update_ttls ttl rows) w) in *.
  assert (Hw' : w' = world_after (api.refresh_if_cached c d t rows) w1).
  { subst w'. unfold api.UpdateRecordTTL.
    rewrite bind_world, Hfetch, FetchRecords_world.
    destruct rows as [|row rest] eqn:Hr; [now contradiction Hrows|].
    cbn [length Nat.eqb]. rewrite bind_world, Hres. fold w1.
    rewrite bind_world. apply reply_after. }
  assert (Hcases : w' = match c with
                        | Rdb_nil => w1
                        | Rdb_set =>
                            if redis_up w
                            then match rdb w !! cache.CacheKey d t with
                                 | Some _ =>
                                     set_rdb (insert (cache.CacheKey d t)
                                                     (JSON rows)) w1
                                 | None => w1
                                 end
                            else w1
                        end).
  { rewrite Hw'. destruct rows as [|row rest] eqn:Hr; [now contradiction Hrows|].
    rewrite refresh_if_cached_world, Hw1. reflexivity. }
  split.
  { unfold api.UpdateRecordTTL.
    rewrite bind_result, Hfetch, FetchRecords_world.
    destruct rows as [|row rest] eqn:Hr; [now contradiction Hrows|].
    cbn [length Nat.eqb]. rewrite bind_result, Hres. fold w1.
    rewrite bind_result, (proj1 (reply_after _ _ _)), refresh_if_cached_result.
    now destruct c. }
  split.
  { rewrite Hcases, <- Hmap.
    destruct c; [|destruct (redis_up w);
                  [destruct (rdb w !! cache.CacheKey d t)|]];
      rewrite Hw1; reflexivity. }
  split.
  - intros -> Hredis [old Hold]. rewrite Hredis, Hold in Hcases.
    assert (Hk : rdb w' !! cache.CacheKey d t = Some (JSON rows))
      by (rewrite Hcases; cbn; now rewrite lookup_insert_eq).
    split; [exact Hk|].
    intros r q rest Hq Hkey. unfold log_of.
    rewrite (HandleDNSRequest_cached r q rest w' rows Hq).
    + reflexivity.
    + rewrite Hcases, Hw1. exact Hredis.
    + now rewrite Hkey.
  - intros [->|Hnone]; rewrite Hcases, Hw1; [reflexivity|].
    rewrite Hnone. destruct c; [reflexivity|]. now destruct (redis_up w).
Qed.

Lemma filter_deleted (d t : string) (l : list Record_) :
  List.filter (db.same_pair d t)
              (List.filter (fun x => negb (db.same_pair d t x)) l) = [].
Proof.
  induction l as [|x l IH]; [reflexivity|].
  cbn [List.filter]. destruct (db.same_pair d t x) eqn:Hx; cbn; [exact IH|].
  now rewrite Hx, IH.
Qed.

Lemma filter_not_deleted (d t d' t' : string) (l : list Record_) :
  (d', t') <> (d, t) ->
  List.filter (db.same_pair d' t')
              (List.filter (fun x => negb (db.same_pair d t x)) l)
  = List.filter (db.same_pair d' t') l.
Proof.
  intros Hne. induction l as [|x l IH]; [reflexivity|].
  cbn [List.filter]. destruct (db.same_pair d t x) eqn:Hx; cbn [negb].
  - assert (Hx' : db.same_pair d' t' x = false).
    { unfold db.same_pair in *. apply andb_true_iff in Hx as [Hd Ht].
      apply String.eqb_eq in Hd, Ht. subst d t.
      destruct (String.eqb_spec (Domain x) d') as [<-|]; [|reflexivity].
      destruct (String.eqb_spec (QType x) t') as [<-|]; [|reflexivity].
      now contradiction Hne. }
    now rewrite Hx'.
  - cbn [List.filter]. now rewrite IH.
Qed.

(** X12.  A delete that Postgres accepts removes every row of the pair and
    no other row, and leaves the counters as they are.  In a process whose
    Redis client is set the reply is 200 whether or not Redis answers: the
    key of the pair is removed when Redis answers, and a query for the
    pair is then answered NXDOMAIN; when Redis does not answer the entry
    stays.  Where [cache.InitRedis] has not run, as under the api command,
    the handler deletes the rows and then panics, without a reply and
    without touching Redis. *)
Theorem DeleteRecord_removes_rows_and_entry
    (c : RdbClient) (d t : string) (w : World) :
  pg_up w = true ->
  let w' := world_after (api.DeleteRecord c d t) w in
  result_of (api.DeleteRecord c d t) w
  = match c with
    | Rdb_set => WriteHeader StatusOK
    | Rdb_nil => Panic
    end
  /\ result_of (db.FetchRecords d t) w' = Ok []
  /\ (forall d' t', (d', t') <> (d, t) ->
        result_of (db.FetchRecords d' t') w'
        = result_of (db.FetchRecords d' t') w)
  /\ dns_metrics w' = dns_metrics w
  /\ rdb w' = match c with
              | Rdb_set =>
                  if redis_up w then delete (cache.CacheKey d t) (rdb w)
                  else rdb w
              | Rdb_nil => rdb w
              end
  /\ (c = Rdb_set ->
      redis_up w = true ->
      forall r q rest,
        Question r = q :: rest ->
        strings.TrimSuffix (QName q) "." = d ->
        TypeToString (Qtype q) = t ->
        written (log_of (HandleDNSRequest r) w')
        = [dnslib.SetRcode r RcodeNameError]).
Proof.
  intros Hpg w'.
  set (w1 := set_dns_records
               (List.filter (fun x => negb (db.same_pair d t x))) w).
  assert (Hexec : Exec_delete d t w = (false, w1, [])).
  { unfold Exec_delete. io_unfold. cbv beta iota. now rewrite Hpg. }
  assert (Hw' : w' = match c with
                     | Rdb_set =>
                         if redis_up w
                         then set_rdb (delete (cache.CacheKey d t)) w1
                         else w1
                     | Rdb_nil => w1
                     end).
  { subst w'. unfold api.DeleteRecord. rewrite bind_world.
    unfold result_of at 1, world_after at 2. rewrite Hexec. cbn [fst snd].
    rewrite bind_world, (proj2 (reply_after _ _ _)).
    unfold world_after. rewrite Rdb_Del_run. now destruct c. }
  assert (Hrec : dns_records w'
                 = List.filter (fun x => negb (db.same_pair d t x)) (dns_records w))
    by (rewrite Hw'; destruct c; [|destruct (redis_up w)]; reflexivity).
  assert (Hpg' : pg_up w' = true)
    by (rewrite Hw'; destruct c; [|destruct (redis_up w)]; exact Hpg).
  assert (Hgone : List.filter (db.same_pair d t) (dns_records w') = [])
    by (rewrite Hrec; apply filter_deleted).
  split.
  { unfold api.DeleteRecord. rewrite bind_result.
    unfold result_of at 2, world_after at 1. rewrite Hexec. cbn [fst snd].
    rewrite bind_result, (proj1 (reply_after _ _ _)).
    unfold result_of. rewrite Rdb_Del_run. now destruct c. }
  split; [now rewrite FetchRecords_result, Hpg', Hgone|].
  split.
  { intros d' t' Hne. rewrite !FetchRecords_result, Hpg', Hpg, Hrec. f_equal.
    now apply filter_not_deleted. }
  split; [rewrite Hw'; destruct c; [|destruct (redis_up w)]; reflexivity|].
  split; [rewrite Hw'; destruct c; [|destruct (redis_up w)]; reflexivity|].
  intros -> Hredis r q rest Hq Hd Ht. unfold log_of.
  rewrite HandleDNSRequest_eq, Hq. cbv zeta. rewrite Hd, Ht.
  rewrite cache_lookup_result, FetchRecords_result, Hpg', Hgone.
  rewrite Hw', Hredis. cbn [set_rdb redis_up rdb set_dns_records w1].
  rewrite Hredis, lookup_delete_eq. reflexivity.
Qed.

(** X13.  AddToCache replies 200 exactly when the Redis client is set,
    Postgres answers, the pair has rows and Redis answers.  The entry of
    the pair then holds these rows, and a query whose pair has this key is
    answered with them without a lookup in Postgres.  When Postgres does
    not answer the reply is 404, as for a pair without rows. *)
Theorem AddToCache_warms_the_cache (c : RdbClient) (d t : string) (w : World) :
  let rows := List.filter (db.same_pair d t) (dns_records w) in
  let w' := world_after (api.AddToCache c d t) w in
  (result_of (api.AddToCache c d t) w = WriteHeader StatusOK
   <-> c = Rdb_set /\ pg_up w = true /\ redis_up w = true /\ rows <> [])
  /\ (result_of (api.AddToCache c d t) w = WriteHeader StatusOK ->
      rdb w' = <[cache.CacheKey d t := JSON rows]> (rdb w)
      /\ forall r q rest,
           Question r = q :: rest ->
           cache.CacheKey (strings.TrimSuffix (QName q) ".")
                          (TypeToString (Qtype q)) = cache.CacheKey d t ->
           log_of (HandleDNSRequest r) w'
           = [RedisGet (cache.CacheKey d t);
              WriteMsg (reply_with r rows q);
              Go (GoServedFromCache (strings.TrimSuffix (QName q) ".")
                                    (TypeToString (Qtype q)))])
  /\ (pg_up w = false ->
      result_of (api.AddToCache c d t) w
      = HttpError "record not found" StatusNotFound).
Proof.
  intros rows w'.
  assert (Hres : result_of (api.AddToCache c d t) w
                 = if pg_up w
                   then match rows with
                        | [] => HttpError "record not found" StatusNotFound
                        | _ :: _ =>
                            match c with
                            | Rdb_nil => Panic
                            | Rdb_set =>
                                if redis_up w
                                then WriteHeader StatusOK
                                else HttpError "failed to cache"
                                               StatusInternalServerError
                            end
                        end
                   else HttpError "record not found" StatusNotFound).
  { unfold api.AddToCache.
    rewrite bind_result, FetchRecords_result, FetchRecords_world.
    destruct (pg_up w); [|reflexivity]. fold rows.
    destruct rows as [|row rest]; [reflexivity|].
    cbn [length Nat.eqb]. rewrite bind_result.
    unfold result_of at 2. rewrite Rdb_CacheRecord_run.
    destruct c; [reflexivity|]. cbn [fst].
    now destruct (redis_up w). }
  assert (Hw' : c = Rdb_set -> pg_up w = true -> redis_up w = true ->
                rows <> [] ->
                w' = set_rdb (insert (cache.CacheKey d t) (JSON rows)) w).
  { intros -> Hpg Hredis Hrows. subst w'. unfold api.AddToCache.
    rewrite bind_world, FetchRecords_result, FetchRecords_world, Hpg.
    fold rows. destruct rows as [|row rest]; [now contradiction Hrows|].
    cbn [length Nat.eqb]. rewrite bind_world.
    unfold result_of, world_after at 2. rewrite Rdb_CacheRecord_run, Hredis.
    reflexivity. }
  assert (Hiff : result_of (api.AddToCache c d t) w = WriteHeader StatusOK
                 <-> c = Rdb_set /\ pg_up w = true /\ redis_up w = true
                     /\ rows <> []).
  { rewrite Hres.
    destruct (pg_up w); [|split; [discriminate|intros (_ & ? & _); discriminate]].
    destruct rows as [|row rest].
    - split; [discriminate|]. intros (_ & _ & _ & Hne). now contradiction Hne.
    - destruct c; [split; [discriminate|intros [? _]; discriminate]|].
      destruct (redis_up w).
      + split; [|reflexivity]. intros _. repeat split. discriminate.
      + split; [discriminate|]. intros (_ & _ & ? & _). discriminate. }
  split; [exact Hiff|]. split.
  - intros Hok. apply Hiff in Hok as (Hc & Hpg & Hredis & Hrows).
    specialize (Hw' Hc Hpg Hredis Hrows).
    split; [now rewrite Hw'|].
    intros r q rest Hq Hkey. unfold log_of.
    rewrite (HandleDNSRequest_cached r q rest w' rows Hq).
    + cbn [snd]. now rewrite Hkey.
    + now rewrite Hw'.
    + rewrite Hkey, Hw'. cbn. now rewrite lookup_insert_eq.
  - intros Hpg. now rewrite Hres, Hpg.
Qed.

Lemma AddToCache_world (c : RdbClient) (d t : string) (w : World) :
  world_after (api.AddToCache c d t) w
  = match c with
    | Rdb_nil => w
    | Rdb_set =>
        if pg_up w && redis_up w
        then match List.filter (db.same_pair d t) (dns_records w) with
             | [] => w
             | rows => set_rdb (insert (cache.CacheKey d t) (JSON rows)) w
             end
        else w
    end.
Proof.
  unfold api.AddToCache.
  rewrite bind_world, FetchRecords_result, FetchRecords_world.
  destruct (pg_up w); [|now destruct c].
  destruct (List.filter (db.same_pair d t) (dns_records w)) as [|row rest];
    [destruct c; [reflexivity|now destruct (redis_up w)]|].
  cbn [length Nat.eqb]. rewrite bind_world.
  unfold result_of, world_after at 2. rewrite Rdb_CacheRecord_run.
  destruct c; [reflexivity|]. cbn [fst snd andb].
  now destruct (redis_up w).
Qed.

(** X14.  In a process whose Redis client is set RemoveFromCache always
    replies 200: when Redis answers the key of the pair is gone afterwards
    and a query for the pair asks Postgres; when Redis does not answer
    nothing is changed.  Where [cache.InitRedis] has not run, as under the
    api command, the handler panics, without a reply and without a change.
    Removing the entry after AddToCache leaves what a removal alone would
    have left. *)
Theorem RemoveFromCache_undoes_AddToCache
    (c : RdbClient) (d t : string) (w : World) :
  let w' := world_after (api.RemoveFromCache c d t) w in
  result_of (api.RemoveFromCache c d t) w
  = match c with
    | Rdb_set => WriteHeader StatusOK
    | Rdb_nil => Panic
    end
  /\ w' = match c with
          | Rdb_set =>
              if redis_up w then set_rdb (delete (cache.CacheKey d t)) w
              else w
          | Rdb_nil => w
          end
  /\ world_after (api.RemoveFromCache c d t)
                 (world_after (api.AddToCache c d t) w)
     = w'
  /\ (c = Rdb_set ->
      redis_up w = true ->
      forall r q rest,
        Question r = q :: rest ->
        strings.TrimSuffix (QName q) "." = d ->
        TypeToString (Qtype q) = t ->
        In (PgFetchRecords d t) (log_of (HandleDNSRequest r) w')).
Proof.
  intros w'.
  assert (Hrm : forall v, world_after (api.RemoveFromCache c d t) v
                          = match c with
                            | Rdb_set =>
                                if redis_up v
                                then set_rdb (delete (cache.CacheKey d t)) v
                                else v
                            | Rdb_nil => v
                            end).
  { intros v. unfold api.RemoveFromCache.
    rewrite bind_world, (proj2 (reply_after _ _ _)).
    unfold world_after. rewrite Rdb_Del_run. now destruct c. }
  split.
  { unfold api.RemoveFromCache.
    rewrite bind_result, (proj1 (reply_after _ _ _)).
    unfold result_of. rewrite Rdb_Del_run. now destruct c. }
  split; [apply Hrm|]. split.
  - subst w'. rewrite !Hrm, AddToCache_world. destruct c; [reflexivity|].
    destruct (pg_up w); cbn [andb]; [|reflexivity].
    destruct (redis_up w) eqn:Hredis; cbv iota; [|now rewrite Hredis].
    destruct (List.filter (db.same_pair d t) (dns_records w)) as [|row rest];
      [now rewrite Hredis|].
    cbn. rewrite Hredis. unfold set_rdb. cbn. now rewrite delete_insert_eq.
  - intros Hc Hredis r q rest Hq Hd Ht. subst w' c. rewrite Hrm, Hredis.
    unfold log_of. rewrite HandleDNSRequest_eq, Hq. cbv zeta. rewrite Hd, Ht.
    rewrite cache_lookup_result. cbn [set_rdb redis_up rdb].
    rewrite Hredis, lookup_delete_eq. cbn.
    destruct (result_of (db.FetchRecords d t) _) as [[|row rows]|]; cbn; auto.
Qed.

(** X15.  A handler that answers with an error has changed neither the
    store nor Redis, whatever the Redis client of its process; for
    UpdateRecordTTL this is so of its 400 and 404 answers. *)
Theorem api_errors_change_nothing
    (c : RdbClient) (w : World) (msg : string) (s : Z) :
  (forall body,
     result_of (api.CreateRecord c body) w = HttpError msg s ->
     world_after (api.CreateRecord c body) w = w)
  /\ (forall d t body,
        result_of (api.UpdateRecordTTL c d t body) w = HttpError msg s ->
        s <> StatusInternalServerError ->
        world_after (api.UpdateRecordTTL c d t body) w = w)
  /\ (forall d t,
        result_of (api.DeleteRecord c d t) w = HttpError msg s ->
        world_after (api.DeleteRecord c d t) w = w)
  /\ (forall d t,
        result_of (api.AddToCache c d t) w = HttpError msg s ->
        world_after (api.AddToCache c d t) w = w).
Proof.
  split; [|split; [|split]].
  - intros [x|]; [|reflexivity]. unfold api.CreateRecord.
    rewrite bind_result, bind_world, AddRecord_result, AddRecord_world.
    destruct (pg_up w && db.int4 _); cbn [negb]; [|reflexivity].
    rewrite bind_result, (proj1 (reply_after _ _ _)).
    destruct (result_of _ _); discriminate.
  - intros d t [ttl|]; [|reflexivity]. unfold api.UpdateRecordTTL.
    rewrite bind_result, bind_world, FetchRecords_result, FetchRecords_world.
    destruct (pg_up w); [|reflexivity].
    destruct (List.filter (db.same_pair d t) (dns_records w)) as [|row rest];
      [reflexivity|].
    cbn [length Nat.eqb]. rewrite bind_result, bind_world.
    destruct (result_of (api.update_ttls ttl (row :: rest)) w).
    + intros [= _ <-] Hs. now contradiction Hs.
    + rewrite bind_result, (proj1 (reply_after _ _ _)).
      destruct (result_of _ _); discriminate.
  - intros d t. unfold api.DeleteRecord. rewrite bind_result, bind_world.
    assert (Hexec : result_of (Exec_delete d t) w = negb (pg_up w)
                    /\ (pg_up w = false -> world_after (Exec_delete d t) w = w)).
    { unfold result_of, world_after, Exec_delete. io_unfold. cbv beta iota.
      now destruct (pg_up w). }
    destruct Hexec as [-> Hsame].
    destruct (pg_up w); cbn [negb]; [|now rewrite Hsame].
    rewrite bind_result, (proj1 (reply_after _ _ _)).
    destruct (result_of _ _); discriminate.
  - intros d t. rewrite AddToCache_world. unfold api.AddToCache.
    rewrite bind_result, FetchRecords_result, FetchRecords_world.
    destruct (pg_up w); [|now destruct c].
    destruct (List.filter (db.same_pair d t) (dns_records w)) as [|row rest];
      [destruct c; [reflexivity|now destruct (redis_up w)]|].
    cbn [length Nat.eqb]. rewrite bind_result.
    unfold result_of at 2. rewrite Rdb_CacheRecord_run.
    destruct c; [discriminate|]. cbn [fst andb].
    destruct (redis_up w); [discriminate|reflexivity].
Qed.

(** X16.  The [cacheRecord] of the single-file version, whose commands all
    set their Redis client first, and the AddToCache handler of a process
    whose Redis client is set do the same: they issue the same calls,
    leave the same stores, and the one returns an error exactly when the
    other does not reply 200. *)
Theorem bak_cacheRecord_is_AddToCache (d t : string) (w : World) :
  world_after (bak.cacheRecord d t) w = world_after (api.AddToCache Rdb_set d t) w
  /\ log_of (bak.cacheRecord d t) w = log_of (api.AddToCache Rdb_set d t) w
  /\ (result_of (bak.cacheRecord d t) w = false
      <-> result_of (api.AddToCache Rdb_set d t) w = WriteHeader StatusOK).
Proof.
  unfold bak.cacheRecord, bak.fetchRecordsFromDB, api.AddToCache.
  rewrite !bind_world, !bind_log, !bind_result.
  rewrite FetchRecords_result, FetchRecords_world.
  destruct (pg_up w); [|repeat split; discriminate].
  destruct (List.filter (db.same_pair d t) (dns_records w)) as [|row rest];
    [repeat split; discriminate|].
  cbn [length Nat.eqb].
  rewrite !bind_world, !bind_log, !bind_result.
  unfold world_after, log_of, result_of.
  change (bak.cacheKey d t) with (cache.CacheKey d t).
  rewrite Rdb_CacheRecord_run.
  unfold cache.Set_. io_unfold. cbv beta iota.
  destruct (redis_up w); cbn; repeat split; try discriminate;
    now rewrite ?app_nil_r.
Qed.

End Api.

(** A request without a TTL is stored with TTL 300; under the api command
    the record is stored and the handler panics. *)
Lemma CreateRecord_stores_the_record_witness :
  let x := mkRecord "example.com" "A" 0 "203.0.113.5" in
  (result_of (api.CreateRecord Rdb_set (Some x)) (store [])
   = WriteHeader StatusCreated
   /\ In exA (dns_records (world_after (api.CreateRecord Rdb_set (Some x))
                                       (store []))))
  /\ (result_of (api.CreateRecord Rdb_nil (Some x)) (store []) = Panic
      /\ In exA (dns_records (world_after (api.CreateRecord Rdb_nil (Some x))
                                          (store [])))).
Proof.
  intros x. split.
  - destruct (CreateRecord_stores_the_record Rdb_set x (store []))
      as (Hres & Hin & _); [reflexivity|reflexivity|].
    split; [exact Hres|exact Hin].
  - destruct (CreateRecord_stores_the_record Rdb_nil x (store []))
      as (Hres & Hin & _); [reflexivity|reflexivity|].
    split; [exact Hres|exact Hin].
Defined.

(** A pair with two addresses is warmed, a third address is created: the
    queries that follow are answered with the third address alone. *)
Lemma CreateRecord_narrows_cached_answer_witness :
  let second := mkRecord "example.com" "A" 300 "203.0.113.6" in
  let third := mkRecord "example.com" "A" 300 "203.0.113.7" in
  let w := world_after (api.AddToCache Rdb_set "example.com" "A")
                       (store [exA; second]) in
  let w' := world_after (api.CreateRecord Rdb_set (Some third)) w in
  let r := query "example.com." TypeA in
  dns_records w' = [exA; second; third]
  /\ written (log_of (HandleDNSRequest r) w')
     = [reply_with r [third] (question "example.com." TypeA)].
Proof.
  intros second third w w' r. split; [reflexivity|].
  destruct (CreateRecord_narrows_cached_answer third w (JSON [exA; second]))
    as [_ Hlater]; [reflexivity|reflexivity|reflexivity|reflexivity|].
  exact (Hlater r (question "example.com." TypeA) [] eq_refl eq_refl).
Defined.

(** The TTL of a cached pair is lowered from 300 to 60: the store has 60,
    the entry in Redis still has 300. *)
Lemma UpdateRecordTTL_caches_old_ttls_witness :
  let w := world_after (api.AddToCache Rdb_set "example.com" "A") (store [exA]) in
  let w' := world_after (api.UpdateRecordTTL Rdb_set "example.com" "A" (Some 60)) w in
  result_of (api.UpdateRecordTTL Rdb_set "example.com" "A" (Some 60)) w
  = WriteHeader StatusOK
  /\ dns_records w' = [db.set_ttl 60 exA]
  /\ rdb w' !! "dns:record:example.com:A" = Some (JSON [exA]).
Proof.
  intros w w'.
  destruct (UpdateRecordTTL_caches_old_ttls Rdb_set "example.com" "A" 60 w)
    as (Hres & Hrec & Hcached & _); [reflexivity|reflexivity|discriminate|].
  split; [exact Hres|]. split; [exact Hrec|].
  destruct Hcached as [Hentry _];
    [reflexivity|reflexivity|now exists (JSON [exA])|].
  exact Hentry.
Defined.

Lemma DeleteRecord_removes_rows_and_entry_witness :
  let w := world_after (api.AddToCache Rdb_set "example.com" "A")
                       (store [exA; exU]) in
  let w' := world_after (api.DeleteRecord Rdb_set "example.com" "A") w in
  let r := query "example.com." TypeA in
  dns_records w' = [exU]
  /\ written (log_of (HandleDNSRequest r) w')
     = [dnslib.SetRcode r RcodeNameError].
Proof.
  intros w w' r. split; [reflexivity|].
  destruct (DeleteRecord_removes_rows_and_entry Rdb_set "example.com" "A" w)
    as (_ & _ & _ & _ & _ & Hquery); [reflexivity|].
  exact (Hquery eq_refl eq_refl r (question "example.com." TypeA) []
                eq_refl eq_refl eq_refl).
Defined.

(** ** More on the answers *)

Section Answers.

Context `{GoLib}.

Lemma To4_length (ip : IP) : To4 ip <> [] -> length (To4 ip) = 4%nat.
Proof.
  unfold To4. destruct (Nat.eqb_spec (length ip) 4) as [H4|_]; [auto|].
  destruct (Nat.eqb_spec (length ip) 16) as [H16|_]; cbn [andb];
    [|intros Hn; now contradiction Hn].
  destruct (isZeros (take 10 ip) && (nth 10 ip 0 =? 255) && (nth 11 ip 0 =? 255));
    [|intros Hn; now contradiction Hn].
  intros _. rewrite length_drop. lia.
Qed.

(** What one record contributes, by the type it carries. *)
Lemma respond_step_payload (q : Question_) (r : Record_) (rr : RR) :
  In rr (respond_step q [] r) ->
  match rr with
  | RR_A h a =>
      Rrtype h = TypeA /\ strings.ToUpper (QType r) = "A"
      /\ a = To4 (ParseIP (Value r)) /\ To4 (ParseIP (Value r)) <> []
  | RR_AAAA h ip =>
      Rrtype h = TypeAAAA /\ strings.ToUpper (QType r) = "AAAA"
      /\ ip = ParseIP (Value r) /\ ParseIP (Value r) <> []
  | RR_CNAME h target =>
      Rrtype h = TypeCNAME /\ strings.ToUpper (QType r) = "CNAME"
      /\ target = dnslib.Fqdn (Value r)
  | RR_TXT h txt =>
      Rrtype h = TypeTXT /\ strings.ToUpper (QType r) = "TXT"
      /\ txt = [Value r]
  end.
Proof.
  unfold respond_step. destruct (selected q r); [|intros []].
  cbv zeta.
  destruct (String.eqb_spec (strings.ToUpper (QType r)) "A") as [HA|_].
  { destruct (To4 (ParseIP (Value r))) as [|b a] eqn:Hip; cbn; [intros []|].
    intros [<-|[]]. repeat split; [exact HA|discriminate]. }
  destruct (String.eqb_spec (strings.ToUpper (QType r)) "AAAA") as [H6|_].
  { destruct (ParseIP (Value r)) as [|b a] eqn:Hip; cbn; [intros []|].
    intros [<-|[]]. repeat split; [exact H6|discriminate]. }
  destruct (String.eqb_spec (strings.ToUpper (QType r)) "CNAME") as [HC|_].
  { cbn. intros [<-|[]]. repeat split. exact HC. }
  destruct (String.eqb_spec (strings.ToUpper (QType r)) "TXT") as [HT|_].
  { cbn. intros [<-|[]]. repeat split. exact HT. }
  intros [].
Qed.

Lemma respond_step_length (q : Question_) (r : Record_) :
  (length (respond_step q [] r) <= if selected q r then 1 else 0)%nat.
Proof.
  unfold respond_step. destruct (selected q r); [|cbn; lia].
  repeat match goal with
         | |- context [if ?b then _ else _] => destruct b
         end; cbn; lia.
Qed.

(** X17.  Every answer has the type of the record it is built from, not
    that of the question: an A answer stems from a record of type A and
    carries exactly four bytes, an AAAA answer carries whatever address the
    value of its AAAA record parses to, a CNAME answer carries the value as
    a name that ends in a dot, and a TXT answer carries the value as its
    single string. *)
Theorem answers_carry_the_records_values
    (req : Msg) (recs : list Record_) (q : Question_) (rr : RR) :
  In rr (Answer (reply_with req recs q)) ->
  exists r,
    In r recs /\ selected q r = true
    /\ match rr with
       | RR_A h a =>
           Rrtype h = TypeA /\ strings.ToUpper (QType r) = "A"
           /\ a = To4 (ParseIP (Value r)) /\ length a = 4%nat
       | RR_AAAA h ip =>
           Rrtype h = TypeAAAA /\ strings.ToUpper (QType r) = "AAAA"
           /\ ip = ParseIP (Value r) /\ ip <> []
       | RR_CNAME h target =>
           Rrtype h = TypeCNAME /\ strings.ToUpper (QType r) = "CNAME"
           /\ target = dnslib.Fqdn (Value r)
           /\ strings.HasSuffix target "." = true
       | RR_TXT h txt =>
           Rrtype h = TypeTXT /\ strings.ToUpper (QType r) = "TXT"
           /\ txt = [Value r]
       end.
Proof.
  rewrite Answer_reply_with. intros Hin.
  apply in_flat_map in Hin as (r & Hr & Hrr).
  destruct (respond_step_header q r rr Hrr) as (_ & Hsel & _).
  apply respond_step_payload in Hrr.
  exists r. split; [exact Hr|]. split; [exact Hsel|].
  destruct rr as [h a|h ip|h target|h txt].
  - destruct Hrr as (Hty & Hq & -> & Hne). repeat split; try assumption.
    now apply To4_length.
  - destruct Hrr as (Hty & Hq & -> & Hne). repeat split; assumption.
  - destruct Hrr as (Hty & Hq & ->). repeat split; try assumption.
    apply Fqdn_ends_in_dot.
  - destruct Hrr as (Hty & Hq & ->). repeat split; assumption.
Qed.

(** X18.  The answers are built record by record, in the order of the
    list: the answers to a list are those to its first part followed by
    those to the rest.  There is at most one answer for each record that
    passes the type filter, and the answers do not depend on the request
    beyond the question. *)
Theorem answers_follow_the_records
    (req req' : Msg) (xs ys : list Record_) (q : Question_) :
  Answer (reply_with req (xs ++ ys) q)
  = Answer (reply_with req xs q) ++ Answer (reply_with req ys q)
  /\ (length (Answer (reply_with req xs q))
      <= length (List.filter (selected q) xs))%nat
  /\ Answer (reply_with req xs q) = Answer (reply_with req' xs q).
Proof.
  rewrite !Answer_reply_with. split; [apply flat_map_app|]. split; [|reflexivity].
  induction xs as [|x xs IH]; [cbn; lia|].
  cbn [flat_map List.filter]. rewrite length_app.
  pose proof (respond_step_length q x) as Hx.
  destruct (selected q x); cbn [length]; lia.
Qed.

(** X19.  Whatever the handler writes is a response to the request: it
    carries the request's id, has the response bit set, and repeats the
    first question of the request and no other.  A response with a failure
    code has no answers. *)
Theorem responses_echo_the_request (r : Msg) (w : World) (m : Msg) :
  In m (written (log_of (HandleDNSRequest r) w)) ->
  Id m = Id r /\ Response m = true
  /\ Question m = take 1 (Question r)
  /\ (Rcode m <> RcodeSuccess -> Answer m = []).
Proof.
  set (P := fun m : Msg =>
              Id m = Id r /\ Response m = true
              /\ Question m = take 1 (Question r)
              /\ (Rcode m <> RcodeSuccess -> Answer m = [])).
  change (In m (written (log_of (HandleDNSRequest r) w)) -> P m).
  assert (Hcode : forall c, P (dnslib.SetRcode r c)).
  { intros c. unfold P. cbn. repeat split; now destruct (Question r). }
  assert (Hreply : forall recs q, P (reply_with r recs q)).
  { intros recs q. unfold P. cbn. repeat split; now destruct (Question r). }
  clearbody P.
  unfold log_of. rewrite HandleDNSRequest_eq.
  destruct (Question r) as [|q rest].
  { cbn [snd written]. intros [<-|[]]. apply Hcode. }
  cbv zeta.
  destruct (result_of (cache_lookup _ _) w) as [recs|].
  - cbn [snd written]. intros [<-|[]]. apply Hreply.
  - destruct (result_of (db.FetchRecords _ _) w) as [[|row rows]|];
      cbn [snd written]; intros [<-|[]]; first [apply Hcode|apply Hreply].
Qed.

(** X20.  An upsert does not touch Redis: a pair that is answered from the
    cache is answered with the same cached list after any number of
    records were added or updated in the store. *)
Theorem upserts_do_not_refresh_the_cache
    (rs : list Record_) (r : Msg) (q : Question_) (rest : list Question_)
    (w : World) (recs : list Record_) :
  Question r = q :: rest ->
  result_of (cache_lookup (strings.TrimSuffix (QName q) ".")
                          (TypeToString (Qtype q))) w = Some recs ->
  rdb (world_after (AddRecords rs) w) = rdb w
  /\ written (log_of (HandleDNSRequest r) (world_after (AddRecords rs) w))
     = [reply_with r recs q].
Proof.
  intros Hq Hc.
  assert (Hframe : rdb (world_after (AddRecords rs) w) = rdb w
                   /\ redis_up (world_after (AddRecords rs) w) = redis_up w).
  { revert w Hc. induction rs as [|x rs IH]; intros w Hc; [now split|].
    cbn [AddRecords]. rewrite bind_world.
    destruct (AddRecord_frame x w) as (_ & Hrdb & _ & Hredis & _).
    assert (Hc' : result_of (cache_lookup (strings.TrimSuffix (QName q) ".")
                                          (TypeToString (Qtype q)))
                            (world_after (db.AddRecord x) w) = Some recs)
      by (rewrite cache_lookup_result, Hredis, Hrdb, <- cache_lookup_result;
          exact Hc).
    destruct (IH _ Hc') as [IHr IHu]. split; congruence. }
  destruct Hframe as [Hrdb Hredis]. split; [exact Hrdb|].
  unfold log_of. rewrite HandleDNSRequest_eq, Hq. cbv zeta.
  rewrite cache_lookup_result, Hredis, Hrdb, <- cache_lookup_result, Hc.
  reflexivity.
Qed.

End Answers.

Lemma answers_carry_the_records_values_witness :
  let q := question "example.com." TypeANY in
  let mapped := mkRecord "example.com" "a" (-1) "::ffff:203.0.113.5" in
  let h := {| Name := "example.com."; Rrtype := TypeA;
              Class_ := ClassINET; Ttl := 4294967295 |} in
  exists r,
    In r [mapped] /\ selected q r = true
    /\ Rrtype h = TypeA /\ strings.ToUpper (QType r) = "A"
    /\ [203; 0; 113; 5] = To4 (ParseIP (Value r))
    /\ length [203; 0; 113; 5] = 4%nat.
Proof.
  intros q mapped h.
  apply (answers_carry_the_records_values (query "example.com." TypeANY)
           [mapped] q (RR_A h [203; 0; 113; 5])).
  vm_compute. left. reflexivity.
Defined.

Lemma responses_echo_the_request_witness :
  let r := {| Id := 4660; Response := false; Rcode := RcodeSuccess;
              Question := [question "example.com." TypeA;
                           question "example.org." TypeTXT];
              Answer := [] |} in
  let m := dnslib.SetRcode r RcodeNameError in
  Id m = 4660 /\ Response m = true
  /\ Question m = [question "example.com." TypeA]
  /\ (Rcode m <> RcodeSuccess -> Answer m = []).
Proof.
  intros r m.
  apply (responses_echo_the_request r (store []) m).
  left. reflexivity.
Defined.

(** The row of a cached pair is updated to TTL 60 in the store: the
    answer still carries 300. *)
Lemma upserts_do_not_refresh_the_cache_witness :
  let w := world_after (api.AddToCache Rdb_set "example.com" "A") (store [exA]) in
  let w' := world_after (AddRecords [db.set_ttl 60 exA]) w in
  let r := query "example.com." TypeA in
  dns_records w' = [db.set_ttl 60 exA]
  /\ written (log_of (HandleDNSRequest r) w')
     = [reply_with r [exA] (question "example.com." TypeA)].
Proof.
  intros w w' r. split; [reflexivity|].
  destruct (upserts_do_not_refresh_the_cache
              [db.set_ttl 60 exA] r (question "example.com." TypeA) [] w [exA])
    as [_ Hsame]; [reflexivity|reflexivity|].
  exact Hsame.
Defined.

(** ** Queries answered from the store *)

Section StoreAnswers.

Context `{GoLib}.

Lemma EqualFold_refl (s : string) : strings.EqualFold s s = true.
Proof. now apply EqualFold_ToLower. Qed.

Lemma respond_step_unsupported (q : Question_) (x : Record_) :
  ~ In (strings.ToUpper (QType x)) ["A"; "AAAA"; "CNAME"; "TXT"] ->
  respond_step q [] x = [].
Proof.
  intros Hty. unfold respond_step. destruct (selected q x); [|reflexivity].
  cbv zeta.
  destruct (String.eqb_spec (strings.ToUpper (QType x)) "A") as [HA|_];
    [contradiction Hty; rewrite HA; cbn; tauto|].
  destruct (String.eqb_spec (strings.ToUpper (QType x)) "AAAA") as [H6|_];
    [contradiction Hty; rewrite H6; cbn; tauto|].
  destruct (String.eqb_spec (strings.ToUpper (QType x)) "CNAME") as [HC|_];
    [contradiction Hty; rewrite HC; cbn; tauto|].
  destruct (String.eqb_spec (strings.ToUpper (QType x)) "TXT") as [HT|_];
    [contradiction Hty; rewrite HT; cbn; tauto|].
  reflexivity.
Qed.

Lemma flat_map_nil {A B} (f : A -> list B) (l : list A) :
  (forall x, In x l -> f x = []) -> flat_map f l = [].
Proof.
  induction l as [|x l IH]; intros Hf; [reflexivity|].
  cbn. rewrite (Hf x (or_introl eq_refl)), IH; [reflexivity|].
  intros y Hy. apply Hf. now right.
Qed.

(** X21.  On a cache miss the rows come from the store with exactly the
    type name asked for, so each of them passes the type filter; and when
    that type name is none of A, AAAA, CNAME and TXT (as for an ANY or MX
    query), the response has no answers, whatever rows the store holds. *)
Theorem store_answers_need_a_supported_type
    (r : Msg) (q : Question_) (rest : list Question_) (w : World) :
  Question r = q :: rest ->
  result_of (cache_lookup (strings.TrimSuffix (QName q) ".")
                          (TypeToString (Qtype q))) w = None ->
  (forall rows x,
     result_of (db.FetchRecords (strings.TrimSuffix (QName q) ".")
                                (TypeToString (Qtype q))) w = Ok rows ->
     In x rows -> selected q x = true)
  /\ (~ In (strings.ToUpper (TypeToString (Qtype q))) ["A"; "AAAA"; "CNAME"; "TXT"] ->
      forall m, In m (written (log_of (HandleDNSRequest r) w)) -> Answer m = []).
Proof.
  intros Hq Hc.
  assert (Hrows : forall rows x,
            result_of (db.FetchRecords (strings.TrimSuffix (QName q) ".")
                                       (TypeToString (Qtype q))) w = Ok rows ->
            In x rows -> QType x = TypeToString (Qtype q)).
  { intros rows x. rewrite FetchRecords_result.
    destruct (pg_up w); [|discriminate]. intros [= <-] Hx.
    apply filter_In in Hx as [_ Hx]. unfold db.same_pair in Hx.
    apply andb_true_iff in Hx as [_ Hx]. now apply String.eqb_eq. }
  split.
  - intros rows x Hf Hx. unfold selected.
    rewrite (Hrows rows x Hf Hx), EqualFold_refl. reflexivity.
  - intros Hty m. unfold log_of. rewrite HandleDNSRequest_eq, Hq. cbv zeta.
    rewrite Hc.
    destruct (result_of (db.FetchRecords _ _) w) as [rows|] eqn:Hf.
    + assert (Hnone : Answer (reply_with r rows q) = []).
      { rewrite Answer_reply_with. apply flat_map_nil. intros x Hx.
        apply respond_step_unsupported.
        now rewrite (Hrows rows x eq_refl Hx). }
      destruct rows as [|row rows']; cbn [snd written].
      * intros [<-|[]]. reflexivity.
      * intros [<-|[]]. exact Hnone.
    + cbn [snd written]. intros [<-|[]]. reflexivity.
Qed.

End StoreAnswers.

(** A row stored with the type name ANY is found by an ANY query and
    gives no answer. *)
Lemma store_answers_need_a_supported_type_witness :
  let any := mkRecord "example.com" "ANY" 300 "203.0.113.5" in
  let r := query "example.com." TypeANY in
  written (log_of (HandleDNSRequest r) (store [exA; any]))
  = [reply_with r [any] (question "example.com." TypeANY)]
  /\ Answer (reply_with r [any] (question "example.com." TypeANY)) = [].
Proof.
  intros any r. split; [reflexivity|].
  destruct (store_answers_need_a_supported_type
              r (question "example.com." TypeANY) [] (store [exA; any]))
    as [_ Hnone]; [reflexivity|reflexivity|].
  apply Hnone.
  - vm_compute. intros [Hc|[Hc|[Hc|[Hc|[]]]]]; discriminate Hc.
  - left. reflexivity.
Defined.
